(** * aireyes worker: trace reconciliation, flight points and the sync ledger

    A shallow embedding of the data layer ([data.js]), the local database
    layer ([database.js]) and the tracker bookkeeping ([tracker.js]) of the
    aireyes worker application, with the properties the specification states
    about them.

    Conventions of the embedding.
    - A JavaScript number is a [number]: [NaN] or an integer [Num z].  Every
      arithmetic operation the modelled code performs on timestamps (adding
      and subtracting a base, multiplying by 1000, comparing with 0) is exact
      on integer-valued doubles below 2^53, and [parseInt], [parseFloat] and
      [toString] are the decimal conversions on them.
    - [null] and [undefined] are kept apart ([JNull], [JUndefined]); where a
      field is either [null] or a number it is an [option number].
    - The sample arrays of a trace are JavaScript objects that the merge
      mutates in place, so they live in a store ([heap]) and a trace holds
      references ([loc]) to them. *)

From stdpp Require Import gmap strings list fin_maps sorting pretty.
From Stdlib Require Import ZArith String Ascii.

Open Scope Z_scope.

(** ** JavaScript values *)

(** Numbers.  The model holds the integers and [NaN]; it adds, subtracts
    and multiplies integers exactly and prints them in plain decimal
    digits.  That is what JavaScript does while the integers involved stay
    below 2^53 in magnitude: beyond, and on fractions, its sums and
    differences are rounded, and from 10^21 its decimal strings take an
    exponent.  A property of the merge that needs a sum to be exact, or two
    decimal strings to be in numeric order, therefore says so as a
    condition on [num_add], [num_sub] and [toString] themselves, and its
    proof uses no law of the integers. *)
Inductive number :=
| NaN
| Num (z : Z).

Inductive jsval :=
| JUndefined
| JNull
| JNum (n : number)
| JStr (s : string).

Global Instance number_eq_dec : EqDecision number.
Proof. solve_decision. Defined.

Global Instance jsval_eq_dec : EqDecision jsval.
Proof. solve_decision. Defined.

Global Instance number_inhabited : Inhabited number := populate NaN.

(** [a + b] on numbers (exact on integers, see above). *)
Definition num_add (a b : number) : number :=
  match a, b with
  | Num x, Num y => Num (x + y)
  | _, _ => NaN
  end.

(** [a - b] on numbers (exact on integers, see above). *)
Definition num_sub (a b : number) : number :=
  match a, b with
  | Num x, Num y => Num (x - y)
  | _, _ => NaN
  end.

(** [a * b] on numbers. *)
Definition num_mul (a b : number) : number :=
  match a, b with
  | Num x, Num y => Num (x * y)
  | _, _ => NaN
  end.

(** [a > b], [a < b] and [a >= b]: every comparison with [NaN] is false. *)
Definition num_gtb (a b : number) : bool :=
  match a, b with
  | Num x, Num y => bool_decide (y < x)
  | _, _ => false
  end.

Definition num_ltb (a b : number) : bool :=
  match a, b with
  | Num x, Num y => bool_decide (x < y)
  | _, _ => false
  end.

Definition num_geb (a b : number) : bool :=
  match a, b with
  | Num x, Num y => bool_decide (y <= x)
  | _, _ => false
  end.

(** [Number.prototype.toString], which is also the conversion of a number to
    a property key: the decimal digits of an integer (no exponent, see
    above). *)
Definition toString (n : number) : string :=
  match n with
  | NaN => "NaN"
  | Num z => pretty z
  end.

(** Truthiness, as [||] and [!] use it. *)
Definition truthy (v : jsval) : bool :=
  match v with
  | JUndefined | JNull => false
  | JNum NaN => false
  | JNum (Num z) => bool_decide (z <> 0)
  | JStr s => negb (String.eqb s "")
  end.

(** [v || null]. *)
Definition or_null (v : jsval) : jsval :=
  if truthy v then v else JNull.

(** ** The host environment

    Library and runtime functions the worker calls but does not define: the
    prefix parsing of strings behind [parseInt] and [parseFloat], the date
    formatting of [com.formatTime] and [com.dateToUtc], and the BLAKE2b
    digest of the [blake2] package (digest length in bytes, data hashed,
    result in hexadecimal). *)

Class Host := {
  parseIntStr : string → number;
  parseFloatStr : string → number;
  formatTime : number → string;
  dateToUtc : number → string;
  blake2bHex : nat → string → string
}.

(** A string of [n] zeros. *)
Fixpoint zeros (n : nat) : string :=
  match n with
  | O => ""
  | S n' => String "0" (zeros n')
  end.

(** A host to run examples on: its string parsers find no number, its dates
    print as the number of seconds, and its digest is a row of zeros of the
    width asked for.  No property below depends on it. *)
Definition stubHost : Host :=
  {| parseIntStr := λ _, NaN;
     parseFloatStr := λ _, NaN;
     formatTime := toString;
     dateToUtc := toString;
     blake2bHex := λ digestLength _, zeros (2 * digestLength) |}.

(** [parseFloat(v)] and [parseInt(v)]: the argument is first converted to a
    string, so [null] and [undefined] give [NaN] and a number gives itself. *)
Definition parseFloat `{Host} (v : jsval) : number :=
  match v with
  | JNum n => n
  | JStr s => parseFloatStr s
  | JUndefined | JNull => NaN
  end.

Definition parseInt `{Host} (v : jsval) : number :=
  match v with
  | JNum n => n
  | JStr s => parseIntStr s
  | JUndefined | JNull => NaN
  end.

(** ** data.js: traces and flight points *)

(** A reference to a sample array. *)
Definition loc := nat.

(** One element of a trace's [trace] array:
    [[offsetSeconds, lat, lon, altitude, groundSpeed, track, ?, vertRate, ?,
    dataSource]].  Index 0 always holds a number. *)
Record TraceObject := mkTraceObject {
  to_time : number;    (* [0] *)
  to_lat : jsval;      (* [1] *)
  to_lon : jsval;      (* [2] *)
  to_alt : jsval;      (* [3] *)
  to_gs : jsval;       (* [4] *)
  to_track : jsval;    (* [5] *)
  to_rate : jsval;     (* [7] *)
  to_source : jsval    (* [9] *)
}.

(** [traceObject[0] = v]. *)
Definition set_time (v : number) (o : TraceObject) : TraceObject :=
  mkTraceObject v (to_lat o) (to_lon o) (to_alt o) (to_gs o) (to_track o)
    (to_rate o) (to_source o).

(** The store of sample arrays. *)
Abbreviation heap := (gmap loc TraceObject).

(** [traceObject[0]] of the sample array at [l]. *)
Definition timeOf (h : heap) (l : loc) : number :=
  from_option to_time NaN (h !! l).

Record AircraftTrace := mkAircraftTrace {
  at_icao : jsval;
  at_r : jsval;
  at_t : jsval;
  at_desc : jsval;
  at_ownOp : jsval;
  at_year : jsval;
  at_timestamp : number;
  at_trace : list loc
}.

Record FlightPoint := mkFlightPoint {
  fp_timestamp : number;
  fp_timestampMillis : number;
  fp_latitude : option number;
  fp_longitude : option number;
  fp_altitude : option number;
  fp_groundSpeed : jsval;
  fp_rotation : jsval;
  fp_verticalRate : option number;
  fp_dataSource : jsval;
  fp_time : string;
  fp_position : jsval * jsval;
  fp_isAscending : bool;
  fp_isDescending : bool;
  fp_isOnGround : bool
}.

(** [(altitudeRate !== null) ? altitudeRate > 0 : false] and its mirror. *)
Definition isAscendingOf (altitudeRate : option number) : bool :=
  match altitudeRate with
  | Some r => num_gtb r (Num 0)
  | None => false
  end.

Definition isDescendingOf (altitudeRate : option number) : bool :=
  match altitudeRate with
  | Some r => num_ltb r (Num 0)
  | None => false
  end.

Section Normalizer.
Context `{Host}.

(** The body of the loop of [flightPointsFromTrace], for one sample. *)
Definition flightPointFromTraceObject (traceTimestamp : number)
    (traceObject : TraceObject) : FlightPoint :=
  let absoluteTimestamp := num_add (to_time traceObject) traceTimestamp in
  let altitude :=
    if decide (to_alt traceObject = JNull) then None
    else if decide (to_alt traceObject = JStr "ground") then Some (Num 0)
    else Some (parseInt (to_alt traceObject)) in
  let altitudeRate :=
    if decide (to_rate traceObject = JNull) then None
    else Some (parseInt (to_rate traceObject)) in
  let dataSource := or_null (to_source traceObject) in
  {| fp_timestamp := absoluteTimestamp;
     fp_timestampMillis := num_mul absoluteTimestamp (Num 1000);
     fp_latitude := Some (parseFloat (to_lat traceObject));
     fp_longitude := Some (parseFloat (to_lon traceObject));
     fp_altitude := altitude;
     fp_groundSpeed := to_gs traceObject;
     fp_rotation := to_track traceObject;
     fp_verticalRate := altitudeRate;
     fp_dataSource := dataSource;
     fp_time := formatTime absoluteTimestamp;
     fp_position := (to_lat traceObject, to_lon traceObject);
     fp_isAscending := isAscendingOf altitudeRate;
     fp_isDescending := isDescendingOf altitudeRate;
     fp_isOnGround := bool_decide (to_alt traceObject = JStr "ground") |}.

(** [flightPointsFromTrace(aircraftTrace)]: one flight point per sample,
    in order; the samples are read through the store. *)
Definition flightPointsFromTrace (h : heap) (aircraftTrace : AircraftTrace)
    : list FlightPoint :=
  omap (λ l, flightPointFromTraceObject (at_timestamp aircraftTrace) <$> h !! l)
       (at_trace aircraftTrace).

(** An element of the [aircraft] array of a decoded binary update; an
    absent key reads as [undefined]. *)
Record BinaryAircraftObject := mkBinaryAircraftObject {
  bo_hex : string;
  bo_r : string;
  bo_t : string;
  bo_flight : string;
  bo_lat : jsval;
  bo_lon : jsval;
  bo_alt_baro : jsval;
  bo_baro_rate : jsval;
  bo_gs : jsval;
  bo_track : jsval;
  bo_type : jsval
}.

(** [flightPointFromBinary(updateAt, binaryAircraftObject)]. *)
Definition flightPointFromBinary (updateAt : number)
    (binaryAircraftObject : BinaryAircraftObject) : FlightPoint :=
  let altitude :=
    if decide (bo_alt_baro binaryAircraftObject = JUndefined) then None
    else if decide (bo_alt_baro binaryAircraftObject = JStr "ground") then Some (Num 0)
    else Some (parseInt (bo_alt_baro binaryAircraftObject)) in
  let altitudeRate :=
    if decide (bo_baro_rate binaryAircraftObject = JUndefined) then None
    else Some (parseInt (bo_baro_rate binaryAircraftObject)) in
  let groundSpeed :=
    if decide (bo_gs binaryAircraftObject = JUndefined) then JNull
    else JNum (parseFloat (bo_gs binaryAircraftObject)) in
  let rotation :=
    if decide (bo_track binaryAircraftObject = JUndefined) then JNull
    else JNum (parseFloat (bo_track binaryAircraftObject)) in
  let dataSource := or_null (bo_type binaryAircraftObject) in
  {| fp_timestamp := updateAt;
     fp_timestampMillis := num_mul updateAt (Num 1000);
     fp_latitude := Some (parseFloat (bo_lat binaryAircraftObject));
     fp_longitude := Some (parseFloat (bo_lon binaryAircraftObject));
     fp_altitude := altitude;
     fp_groundSpeed := groundSpeed;
     fp_rotation := rotation;
     fp_verticalRate := altitudeRate;
     fp_dataSource := dataSource;
     fp_time := formatTime updateAt;
     fp_position := (bo_lat binaryAircraftObject, bo_lon binaryAircraftObject);
     fp_isAscending := isAscendingOf altitudeRate;
     fp_isDescending := isDescendingOf altitudeRate;
     fp_isOnGround := bool_decide (bo_alt_baro binaryAircraftObject = JStr "ground") |}.
End Normalizer.

(** ** data.js: merging traces *)

(** What a JavaScript [throw] carries: the string [mergeAllTraces] throws,
    and the error classes [decodeBinaryUpdate] tells apart. *)
Inductive thrown :=
| ThrownString (s : string)
| ZSTDDecompressionFailed (error_code reason : string)
| TypeError (message : string)
| OtherError (message : string).

Inductive completion (A : Type) :=
| Return (a : A)
| Throw (e : thrown).

Arguments Return {A} a.
Arguments Throw {A} e.

(** An argument of [mergeAllTraces]: a trace object, [null] or [undefined]. *)
Inductive traceArg :=
| ArgNull
| ArgUndefined
| ArgTrace (aircraftTrace : AircraftTrace).

(** [traceObject[0] += d] and [traceObject[0] -= d]. *)
Definition addToTime (d : number) (o : TraceObject) : TraceObject :=
  set_time (num_add (to_time o) d) o.

Definition subFromTime (d : number) (o : TraceObject) : TraceObject :=
  set_time (num_sub (to_time o) d) o.

(** A loop that applies [f] to the sample array behind each element of an
    array of references, in index order. *)
Definition forEachObject (f : TraceObject → TraceObject) (h : heap) (ls : list loc) : heap :=
  foldl (λ h l, alter f l h) h ls.

(** [normaliseTimestamps(aircraftTrace)]:
    [aircraftTrace.trace[i][0] += aircraftTrace.timestamp] for every index,
    written into the sample arrays themselves. *)
Definition normaliseTimestamps (h : heap) (aircraftTrace : AircraftTrace) : heap :=
  forEachObject (addToTime (at_timestamp aircraftTrace)) h (at_trace aircraftTrace).

(** [relativeTimestamps(aircraftTrace)]:
    [aircraftTrace.trace[i][0] -= aircraftTrace.timestamp] for every index. *)
Definition relativeTimestamps (h : heap) (aircraftTrace : AircraftTrace) : heap :=
  forEachObject (subFromTime (at_timestamp aircraftTrace)) h (at_trace aircraftTrace).

(** [absoluteTimestampDict]: an object whose property keys are absolute
    timestamps and whose values are sample arrays.  An entry is kept under
    the number whose [toString] is the property key (the conversion is
    injective), in insertion order.  No such key names a property that an
    empty object inherits, so [in] sees the entries only. *)
Abbreviation dict := (list (number * loc)).

(** [key in absoluteTimestampDict]. *)
Definition dict_has (d : dict) (k : number) : bool :=
  bool_decide (k ∈ d.*1).

(** [absoluteTimestampDict[key]]. *)
Fixpoint dict_get (d : dict) (k : number) : option loc :=
  match d with
  | [] => None
  | (k', l) :: d' => if decide (k' = k) then Some l else dict_get d' k
  end.

(** [if(!(key in dict)) { dict[key] = value; }]. *)
Definition setIfAbsent (d : dict) (entry : number * loc) : dict :=
  if dict_has d entry.1 then d else d ++ [entry].

(** The body of the inner loop of [mergeAllTraces]: the sample is stored
    under its absolute timestamp unless that key is already present. *)
Definition recordTraceObject (h : heap) (d : dict) (traceObject : loc) : dict :=
  let absoluteTimestamp := timeOf h traceObject in
  setIfAbsent d (absoluteTimestamp, traceObject).

(** The body of the outer loop of [mergeAllTraces]. *)
Definition mergeTrace (st : heap * dict) (trace : traceArg) : heap * dict :=
  match trace with
  | ArgNull | ArgUndefined => st
  | ArgTrace aircraftTrace =>
      let normalised := normaliseTimestamps st.1 aircraftTrace in
      (normalised, foldl (recordTraceObject normalised) st.2 (at_trace aircraftTrace))
  end.

(** The order [Array.prototype.sort] uses when it is given no comparison
    function: the elements, here property keys, are compared as strings. *)
Definition key_le (a b : number) : Prop :=
  String.leb (toString a) (toString b).

Global Instance key_le_dec : RelDecision key_le.
Proof. intros a b. unfold key_le. apply _. Defined.

(** [Object.keys(absoluteTimestampDict).sort()]. *)
Definition sortedKeysOf (d : dict) : list number :=
  merge_sort key_le d.*1.

(** [mergeAllTraces(...traces)], from the store [h]: the store after the
    call and the trace returned, or the exception thrown. [parseFloat] of a
    key gives back the number the key was made from, and [parseFloat] of
    [sortedKeys[0]] is [NaN] when there is no key. *)
Definition mergeAllTraces (h : heap) (traces : list traceArg)
    : completion (heap * AircraftTrace) :=
  match head traces with
  | None | Some ArgNull | Some ArgUndefined =>
      Throw (ThrownString "Failed to merge traces - trace1 can't be null or undefined.")
  | Some (ArgTrace referenceTrace) =>
      let '(h1, absoluteTimestampDict) := foldl mergeTrace (h, []) traces in
      let sortedKeys := sortedKeysOf absoluteTimestampDict in
      let resultingTrace :=
        {| at_icao := at_icao referenceTrace;
           at_r := at_r referenceTrace;
           at_t := at_t referenceTrace;
           at_desc := at_desc referenceTrace;
           at_ownOp := at_ownOp referenceTrace;
           at_year := at_year referenceTrace;
           at_timestamp := default NaN (head sortedKeys);
           at_trace := omap (dict_get absoluteTimestampDict) sortedKeys |} in
      Return (relativeTimestamps h1 resultingTrace, resultingTrace)
  end.

(** Decoding a trace back to absolute timestamps: each sample's offset plus
    the trace's base timestamp, as [flightPointsFromTrace] computes it. *)
Definition absoluteTimestamps (h : heap) (aircraftTrace : AircraftTrace) : list number :=
  (λ l, num_add (timeOf h l) (at_timestamp aircraftTrace)) <$> at_trace aircraftTrace.

(** The offsets a trace holds. *)
Definition offsetsOf (h : heap) (aircraftTrace : AircraftTrace) : list number :=
  timeOf h <$> at_trace aircraftTrace.

(** The sample arrays reachable from the arguments, in argument order. *)
Definition inputObjects (traces : list traceArg) : list loc :=
  traces ≫= λ trace,
    match trace with
    | ArgTrace aircraftTrace => at_trace aircraftTrace
    | ArgNull | ArgUndefined => []
    end.

(** Every input sample with its absolute timestamp (its offset in the store
    [h] plus the base timestamp of its trace), in argument order and, within
    a trace, in sample order. *)
Definition contributions (h : heap) (traces : list traceArg) : dict :=
  traces ≫= λ trace,
    match trace with
    | ArgTrace aircraftTrace =>
        (λ l, (num_add (timeOf h l) (at_timestamp aircraftTrace), l)) <$> at_trace aircraftTrace
    | ArgNull | ArgUndefined => []
    end.

(** A sample array with its time blanked: everything but index 0. *)
Definition payloadOf (h : heap) (l : loc) : option TraceObject :=
  set_time NaN <$> h !! l.

(** The numeric order on numbers; [NaN] is not related to anything. *)
Definition num_lt (a b : number) : Prop :=
  match a, b with
  | Num x, Num y => x < y
  | _, _ => False
  end.

Global Instance num_lt_dec : RelDecision num_lt.
Proof. intros [|x] [|y]; simpl; apply _. Defined.

(** The strict order of keys as [Array.prototype.sort] sees them: the
    string of [a] comes before that of [b] and is not equal to it. *)
Definition key_lt (a b : number) : Prop := ¬ key_le b a.

Global Instance key_lt_dec : RelDecision key_lt.
Proof. intros a b. unfold key_lt. apply _. Defined.

(** The sort of the keys as strings puts these timestamps in numeric
    order: of two different ones, the one whose string comes first is the
    smaller number. *)
Definition keysInOrder (keys : list number) : Prop :=
  ∀ k k', k ∈ keys → k' ∈ keys → k ≠ k' → key_le k k' → num_lt k k'.

(** Different timestamps have different decimal strings, as the
    dictionary of absolute timestamps takes it. *)
Definition distinctKeys (keys : list number) : Prop :=
  ∀ k k', k ∈ keys → k' ∈ keys → toString k = toString k' → k = k'.

(** Subtracting the base [b] from the timestamp [k] and adding it back
    gives [k] again. *)
Definition rebasesExactly (b k : number) : Prop :=
  num_add (num_sub k b) b = k.

Global Instance rebasesExactly_dec : RelDecision rebasesExactly.
Proof. intros b k. unfold rebasesExactly. apply _. Defined.

(** A trace and a copy of it held in other sample arrays. *)
Definition copyOf (h : heap) (t t' : AircraftTrace) : Prop :=
  at_timestamp t' = at_timestamp t
  ∧ Forall2 (λ l l', h !! l' = h !! l) (at_trace t) (at_trace t')
  ∧ NoDup (at_trace t ++ at_trace t').

(** The absolute timestamps a merge result decodes to. *)
Definition decodedTimestamps (r : completion (heap * AircraftTrace)) : option (list number) :=
  match r with
  | Return (h', merged) => Some (absoluteTimestamps h' merged)
  | Throw _ => None
  end.

(** The offsets a trace holds once a merge has run. *)
Definition offsetsAfter (r : completion (heap * AircraftTrace)) (aircraftTrace : AircraftTrace)
    : option (list number) :=
  match r with
  | Return (h', _) => Some (offsetsOf h' aircraftTrace)
  | Throw _ => None
  end.

(** ** data.js: decoding a binary update *)

Abbreviation buffer := (list Byte.byte).

Record DecodedBinaryUpdate := mkDecodedBinaryUpdate {
  bu_now : number;
  bu_aircraft : list BinaryAircraftObject
}.

Section Decoder.
(** The two vendored decoders ([adsbexchange/zstddec.js] and
    [adsbexchange/wqi.js]): what each returns or throws on a buffer. *)
Variable zstdDecode : buffer → completion buffer.
Variable wqiDecode : buffer → completion DecodedBinaryUpdate.

(** The first [try] of [decodeBinaryUpdate]: the decompressed bytes, the
    buffer itself when decompression fails with [ZSTDDecompressionFailed]
    (whatever its error code), and any other exception thrown again. *)
Definition decompressOrRaw (buf : buffer) : completion buffer :=
  match zstdDecode buf with
  | Return decompressedBuffer => Return decompressedBuffer
  | Throw (ZSTDDecompressionFailed _ _) => Return buf
  | Throw err => Throw err
  end.

(** [decodeBinaryUpdate(buffer)], once the decompressor is initialised;
    [None] is the [null] it returns when [wqiDecode] throws, whatever is
    thrown.  The lookup functions that [decodedBinaryUpdateFromObject]
    attaches to the decoded object do not change its data. *)
Definition decodeBinaryUpdate (buf : buffer) : completion (option DecodedBinaryUpdate) :=
  match decompressOrRaw buf with
  | Throw err => Throw err
  | Return decompressedBuffer =>
      match wqiDecode decompressedBuffer with
      | Throw _ => Return None
      | Return resultData => Return (Some resultData)
      end
  end.




End Decoder.

(** ** database.js: flight point models and receipts *)

Record Aircraft := mkAircraft {
  ac_icao : string;
  ac_flightName : jsval;
  ac_isSetup : bool
}.

(** A row of the [FlightPoints] table, or a model instance built for it.
    [AircraftIcao] and [flightPointHash] are unset ([None]) until
    [saveToAircraft] fills them; [synchronised] defaults to [false]. *)
Record FlightPointModel := mkFlightPointModel {
  fm_timestamp : number;
  fm_date : string;
  fm_latitude : option number;
  fm_longitude : option number;
  fm_altitude : option number;
  fm_groundSpeed : jsval;
  fm_rotation : jsval;
  fm_verticalRate : option number;
  fm_dataSource : jsval;
  fm_isOnGround : bool;
  fm_isAscending : bool;
  fm_isDescending : bool;
  fm_AircraftIcao : option string;
  fm_flightPointHash : option string;
  fm_synchronised : bool
}.

Global Instance FlightPointModel_eq_dec : EqDecision FlightPointModel.
Proof. solve_decision. Defined.

Record FlightPointReceipt := mkFlightPointReceipt {
  rc_AircraftIcao : string;
  rc_flightPointHash : string;
  rc_synchronised : bool
}.

(** [positionForHash] and [altitudeForHash] of [saveToAircraft]. *)
Definition positionForHash (latitude longitude : option number) : string :=
  match latitude, longitude with
  | Some lat, Some lon => toString lat +:+ toString lon
  | _, _ => "0"
  end.

Definition altitudeForHash (altitude : option number) : string :=
  match altitude with
  | Some alt => toString alt
  | None => "na"
  end.

(** The bytes [saveToAircraft] hashes for a point of the aircraft [icao]. *)
Definition hashInput (icao : string) (timestamp : number)
    (latitude longitude altitude : option number) : string :=
  icao +:+ toString timestamp +:+ positionForHash latitude longitude
       +:+ altitudeForHash altitude.

(** [fm.AircraftIcao = icao; fm.flightPointHash = hash]. *)
Definition withIdentity (icao hash : string) (fm : FlightPointModel) : FlightPointModel :=
  mkFlightPointModel (fm_timestamp fm) (fm_date fm) (fm_latitude fm) (fm_longitude fm)
    (fm_altitude fm) (fm_groundSpeed fm) (fm_rotation fm) (fm_verticalRate fm)
    (fm_dataSource fm) (fm_isOnGround fm) (fm_isAscending fm) (fm_isDescending fm)
    (Some icao) (Some hash) (fm_synchronised fm).

(** [fm.synchronised = true]. *)
Definition markSynchronised (fm : FlightPointModel) : FlightPointModel :=
  mkFlightPointModel (fm_timestamp fm) (fm_date fm) (fm_latitude fm) (fm_longitude fm)
    (fm_altitude fm) (fm_groundSpeed fm) (fm_rotation fm) (fm_verticalRate fm)
    (fm_dataSource fm) (fm_isOnGround fm) (fm_isAscending fm) (fm_isDescending fm)
    (fm_AircraftIcao fm) (fm_flightPointHash fm) true.

(** The [FlightPoints] table, in insertion order. *)
Abbreviation table := (list FlightPointModel).

(** [flightPoint.save()] of a newly built model of an aircraft that has a
    row in the [Aircraft] table: an INSERT, refused when the hash is unset
    or already stored ([allowNull: false], [unique: true]);
    [Promise.allSettled] swallows the refusal.  The table also refuses every
    point of an aircraft that has no row (the foreign key [AircraftIcao]),
    which [save] does not look at: a property that says a point is stored
    assumes the aircraft is. *)
Definition save (tbl : table) (fm : FlightPointModel) : table :=
  match fm_flightPointHash fm with
  | None => tbl
  | Some hash =>
      if bool_decide (Some hash ∈ fm_flightPointHash <$> tbl) then tbl else tbl ++ [fm]
  end.

Section Database.
Context `{Host}.

(** [newFlightPointModel(flightPoint)]. *)
Definition newFlightPointModel (flightPoint : FlightPoint) : FlightPointModel :=
  {| fm_timestamp := fp_timestamp flightPoint;
     fm_date := dateToUtc (num_mul (fp_timestamp flightPoint) (Num 1000));
     fm_latitude := fp_latitude flightPoint;
     fm_longitude := fp_longitude flightPoint;
     fm_altitude := fp_altitude flightPoint;
     fm_groundSpeed := fp_groundSpeed flightPoint;
     fm_rotation := fp_rotation flightPoint;
     fm_verticalRate := fp_verticalRate flightPoint;
     fm_dataSource := fp_dataSource flightPoint;
     fm_isOnGround := fp_isOnGround flightPoint;
     fm_isAscending := fp_isAscending flightPoint;
     fm_isDescending := fp_isDescending flightPoint;
     fm_AircraftIcao := None;
     fm_flightPointHash := None;
     fm_synchronised := false |}.

(** [buildFlightPointsModels(flightPoints).flightPoints]. *)
Definition buildFlightPointsModels (flightPoints : list FlightPoint) : list FlightPointModel :=
  newFlightPointModel <$> flightPoints.

(** The body of the loop of [saveToAircraft]: the parent aircraft and the
    content hash of one model. *)
Definition identify (aircraft : Aircraft) (fm : FlightPointModel) : FlightPointModel :=
  let flightPointHash :=
    blake2bHex 16 (hashInput (ac_icao aircraft) (fm_timestamp fm)
                     (fm_latitude fm) (fm_longitude fm) (fm_altitude fm)) in
  withIdentity (ac_icao aircraft) flightPointHash fm.

(** [builtFlightPoints.saveToAircraft(aircraft)]: the models with their
    identity set, and the table after they are saved. *)
Definition saveToAircraft (built : list FlightPointModel) (tbl : table)
    (aircraft : Aircraft) : list FlightPointModel * table :=
  let identified := identify aircraft <$> built in
  (identified, foldl save tbl identified).

(** The content hashes, in order, that the points of a trace receive when
    they are built and saved for [aircraft]. *)
Definition contentHashes (aircraft : Aircraft) (h : heap) (aircraftTrace : AircraftTrace)
    : list (option string) :=
  fm_flightPointHash <$>
    (saveToAircraft (buildFlightPointsModels (flightPointsFromTrace h aircraftTrace)) [] aircraft).1.
End Database.

(** The WHERE clause of [updateFlightPointReceipts]. *)
Definition receiptMatches (receipt : FlightPointReceipt) (fm : FlightPointModel) : bool :=
  bool_decide (fm_AircraftIcao fm = Some (rc_AircraftIcao receipt)
               ∧ fm_flightPointHash fm = Some (rc_flightPointHash receipt)).

(** [FlightPoint.update({ synchronised: true }, { where: ... })]. *)
Definition acknowledge (tbl : table) (receipt : FlightPointReceipt) : table :=
  (λ fm, if receiptMatches receipt fm then markSynchronised fm else fm) <$> tbl.

(** The row a list of receipts leaves in place of [fm]. *)
Definition acknowledged (receipts : list FlightPointReceipt) (fm : FlightPointModel)
    : FlightPointModel :=
  if existsb (λ r, receiptMatches r fm) receipts then markSynchronised fm else fm.

(** [updateFlightPointReceipts(flightPointReceiptsArray)]: the table after
    every update has settled, and the array handed back. *)
Definition updateFlightPointReceipts (tbl : table)
    (flightPointReceiptsArray : list FlightPointReceipt)
    : completion (table * list FlightPointReceipt) :=
  Return (foldl acknowledge tbl flightPointReceiptsArray, flightPointReceiptsArray).

(** ** conf.js and tracker.js: the tracked-aircraft table *)

(** A value exported by [conf.js]: an integer constant, or a value the
    model does not look into (strings taken from the environment, regular
    expressions, the list of blocked resources, the fraction 0.5). *)
Inductive confValue :=
| ConfNumber (z : Z)
| ConfOpaque.

(** The properties of the [exports] object of [conf.js], one per
    [exports.NAME = NAME] line. *)
Definition conf : gmap string confValue :=
  list_to_map [
    ("CURRENT_TIMEZONE", ConfOpaque);
    ("NODE_ENV", ConfOpaque);
    ("DATABASE_URI", ConfOpaque);
    ("LOG_DIRECTORY", ConfOpaque);
    ("BLOCKED_RESOURCE", ConfOpaque);
    ("MAX_ACCEPTED_NULL_ASSIGNMENT_COUNT", ConfNumber 20);
    ("SCAN_PASS_NUM_TIMES", ConfNumber 5);
    ("SCAN_PASS_TIME_BETWEEN_MINUTES", ConfOpaque);
    ("NEW_AIRCRAFT_SCAN_SECONDS", ConfNumber 10);
    ("AIRCRAFT_TIMEOUT", ConfNumber 60);
    ("BINARY_UPDATE_BINCRAFT_REGEX", ConfOpaque);
    ("BINARY_UPDATE_BINCRAFT_TYPE_REGEX", ConfOpaque);
    ("BINARY_UPDATE_ZSTD_BINCRAFT_REGEX", ConfOpaque)
  ]%string.

(** [conf.NAME] as the right operand of [>=]: a property that is not there
    reads as [undefined], which converts to [NaN]; so do the opaque values
    of [conf.js] (none of them is a numeric string in the file). *)
Definition confNumber (name : string) : number :=
  match conf !! name with
  | Some (ConfNumber z) => Num z
  | Some ConfOpaque | None => NaN
  end.

(** The [trackedAircraft] object of [tracker.js]. *)
Record TrackedAircraft := mkTrackedAircraft {
  ta_aircraft : gmap string Aircraft;
  ta_savedUpdates : gmap string (list FlightPoint);
  ta_missedUpdates : gmap string number
}.

(** The names every object literal inherits from [Object.prototype]. *)
Definition objectPrototypeKeys : list string :=
  ["constructor"; "__defineGetter__"; "__defineSetter__"; "hasOwnProperty";
   "__lookupGetter__"; "__lookupSetter__"; "isPrototypeOf"; "propertyIsEnumerable";
   "toString"; "valueOf"; "__proto__"; "toLocaleString"]%string.

(** [key in object], for an object written as a literal: the key names a
    property of the object itself or one it inherits. *)
Definition hasProperty {A} (object : gmap string A) (key : string) : bool :=
  bool_decide (is_Some (object !! key) ∨ key ∈ objectPrototypeKeys).

(** [trackedAircraft.add(aircraftModel)]. *)
Definition add (ta : TrackedAircraft) (aircraftModel : Aircraft) : TrackedAircraft :=
  if hasProperty (ta_aircraft ta) (ac_icao aircraftModel) then ta
  else
    mkTrackedAircraft (<[ac_icao aircraftModel := aircraftModel]> (ta_aircraft ta))
      (<[ac_icao aircraftModel := []]> (ta_savedUpdates ta))
      (ta_missedUpdates ta).

(** [trackedAircraft.remove(aircraftModel)]: each [delete] is guarded by
    [in], and deleting a name that is only inherited removes nothing. *)
Definition remove (ta : TrackedAircraft) (aircraftModel : Aircraft) : TrackedAircraft :=
  mkTrackedAircraft (delete (ac_icao aircraftModel) (ta_aircraft ta))
    (delete (ac_icao aircraftModel) (ta_savedUpdates ta))
    (delete (ac_icao aircraftModel) (ta_missedUpdates ta)).

(** [trackedAircraft.isVehicleTracked(icao)]. *)
Definition isVehicleTracked (ta : TrackedAircraft) (icao : string) : bool :=
  hasProperty (ta_aircraft ta) icao.

(** [(this.missedUpdates[icao] || 0)]. *)
Definition missedSoFar (ta : TrackedAircraft) (icao : string) : number :=
  match ta_missedUpdates ta !! icao with
  | Some n => if truthy (JNum n) then n else Num 0
  | None => Num 0
  end.

(** The body of [trackedAircraft.missingUpdate(aircraftModel)], with the
    value the threshold expression evaluates to as an argument. *)
Definition missingUpdateAgainst (threshold : number) (ta : TrackedAircraft)
    (aircraftModel : Aircraft) : TrackedAircraft :=
  let icao := ac_icao aircraftModel in
  let counted :=
    mkTrackedAircraft (ta_aircraft ta) (ta_savedUpdates ta)
      (<[icao := num_add (missedSoFar ta icao) (Num 1)]> (ta_missedUpdates ta)) in
  if num_geb (default NaN (ta_missedUpdates counted !! icao)) threshold
  then remove counted aircraftModel
  else counted.

(** [trackedAircraft.missingUpdate(aircraftModel)]: the threshold is
    [conf.NUM_MISSED_UPDATES_AIRCRAFT_LANDED]. *)
Definition missingUpdate (ta : TrackedAircraft) (aircraftModel : Aircraft) : TrackedAircraft :=
  missingUpdateAgainst (confNumber "NUM_MISSED_UPDATES_AIRCRAFT_LANDED") ta aircraftModel.

(** ** The flight segmenter *)

Module FlightSegmenter.

(** Modelled from the spec: the segmenter is not among the sources (only the
    report of one of its runs is); a partial flight is the record of §3. *)
Record PartialFlight := mkPartialFlight {
  points : list FlightPoint;
  startedWithTakeoff : bool;
  endedWithLanding : bool;
  incompletePast : bool;
  incompleteFuture : bool;
  isCompleteFlight : bool
}.

(** Modelled from the spec: the three boundaries of §4.4 between two
    consecutive points. *)
Inductive boundary :=
| GroundContact
| Timeout
| HardSegment.

(** Modelled from the spec: why a partial starts and why it ends; a verified
    takeoff or landing, or an artifact of missing data (§3, §4.4). *)
Inductive edge :=
| Verified
| Missing.

(** Modelled from the spec: the edges a boundary leaves on the partial it
    closes and on the partial it opens (§4.4): a ground-contact boundary
    yields a landing and a takeoff, the other two yield incomplete edges. *)
Definition edgeOfBoundary (b : boundary) : edge :=
  match b with
  | GroundContact => Verified
  | Timeout | HardSegment => Missing
  end.

(** Modelled from the spec: the first and the last point of the whole
    sequence give a verified edge when they are ground points (§4.4). *)
Definition edgeOfEndpoint (p : FlightPoint) : edge :=
  if fp_isOnGround p then Verified else Missing.

(** Modelled from the spec: a boundary is exactly one of the two, a verified
    event or an artifact of missing data (invariant of §3). *)
Definition isVerified (e : edge) : bool :=
  match e with
  | Verified => true
  | Missing => false
  end.

(** Modelled from the spec: the flags of a partial from its two edges, with
    [isCompleteFlight] as §3 defines it. *)
Definition mkPartial (startEdge : edge) (pts : list FlightPoint) (endEdge : edge) : PartialFlight :=
  let startedWithTakeoff := isVerified startEdge in
  let endedWithLanding := isVerified endEdge in
  let incompletePast := negb (isVerified startEdge) in
  let incompleteFuture := negb (isVerified endEdge) in
  {| points := pts;
     startedWithTakeoff := startedWithTakeoff;
     endedWithLanding := endedWithLanding;
     incompletePast := incompletePast;
     incompleteFuture := incompleteFuture;
     isCompleteFlight := startedWithTakeoff && endedWithLanding
                         && negb incompletePast && negb incompleteFuture |}.

(** Modelled from the spec: the two thresholds of §4.4, in seconds. *)
Record Thresholds := mkThresholds {
  flightTimeout : Z;
  newFlightGap : Z
}.

(** Modelled from the spec: the gap in seconds between two points exceeds
    [limit]. *)
Definition gapExceeds (limit : Z) (p q : FlightPoint) : bool :=
  num_gtb (num_sub (fp_timestamp q) (fp_timestamp p)) (Num limit).

(** Modelled from the spec: the boundary detection rule of §4.4 for one
    pair of consecutive points: a hard boundary regardless of ground
    evidence, a ground-contact boundary on ground contact followed by
    airborne contact, a timeout boundary with no ground evidence on either
    side. *)
Definition boundaryBetween (th : Thresholds) (p q : FlightPoint) : option boundary :=
  if gapExceeds (newFlightGap th) p q then Some HardSegment
  else if fp_isOnGround p && negb (fp_isOnGround q) then Some GroundContact
  else if gapExceeds (flightTimeout th) p q && negb (fp_isOnGround p) && negb (fp_isOnGround q)
       then Some Timeout
  else None.

Section Scan.
(** Modelled from the spec: §9 leaves the exact combination of thresholds
    open as a policy; the scan takes the rule deciding whether a boundary
    lies between two consecutive points as a parameter. *)
Variable rule : FlightPoint → FlightPoint → option boundary.

(** Modelled from the spec: the left-to-right scan over consecutive point
    pairs (§4.4): [current] is the open partial up to, not including,
    [prev]. *)
Fixpoint scan (startEdge : edge) (current : list FlightPoint) (prev : FlightPoint)
    (rest : list FlightPoint) : list PartialFlight :=
  match rest with
  | [] => [mkPartial startEdge (current ++ [prev]) (edgeOfEndpoint prev)]
  | q :: rest' =>
      match rule prev q with
      | None => scan startEdge (current ++ [prev]) q rest'
      | Some b =>
          mkPartial startEdge (current ++ [prev]) (edgeOfBoundary b)
            :: scan (edgeOfBoundary b) [] q rest'
      end
  end.

(** Modelled from the spec: the segmenter of §4.4; no point, no partial. *)
Definition segmentWith (trace : list FlightPoint) : list PartialFlight :=
  match trace with
  | [] => []
  | p :: rest => scan (edgeOfEndpoint p) [] p rest
  end.
End Scan.

(** Modelled from the spec: the segmenter with the rule of §4.4. *)
Definition segment (th : Thresholds) (trace : list FlightPoint) : list PartialFlight :=
  segmentWith (boundaryBetween th) trace.

End FlightSegmenter.

(** ** Example traces *)

(** A sample [[offset, -37, 145, altitude, 120, 90, _, 0, _, "adsb_icao"]]. *)
Definition exampleSample (offset altitude : Z) : TraceObject :=
  mkTraceObject (Num offset) (JNum (Num (-37))) (JNum (Num 145)) (JNum (Num altitude))
    (JNum (Num 120)) (JNum (Num 90)) (JNum (Num 0)) (JStr "adsb_icao").

(** A trace of the aircraft 7c4ee8 with the given base and sample arrays. *)
Definition exampleTrace (timestamp : Z) (trace : list loc) : AircraftTrace :=
  mkAircraftTrace (JStr "7c4ee8") (JStr "VH-PVE") (JStr "A139") (JStr "AGUSTA AW-139")
    (JStr "STARFLIGHT VICTORIA PTY LTD") (JStr "2019") (Num timestamp) trace.

(** A full trace from 1648420051 with samples at 0, 5 and 10 seconds, and a
    recent trace from 1648420056 with samples at 0, 5 and 10 seconds: the
    first two samples of the recent trace repeat the last two timestamps of
    the full trace, at other altitudes. *)
Definition exampleStore : heap :=
  list_to_map [
    (0%nat, exampleSample 0 2100); (1%nat, exampleSample 5 2200);
    (2%nat, exampleSample 10 2300); (3%nat, exampleSample 0 3100);
    (4%nat, exampleSample 5 3200); (5%nat, exampleSample 10 3300)
  ].

Definition fullTrace : AircraftTrace := exampleTrace 1648420051 [0; 1; 2]%nat.

Definition recentTrace : AircraftTrace := exampleTrace 1648420056 [3; 4; 5]%nat.

(** A trace that straddles 2001-09-09T01:46:40Z, when the number of seconds
    since the epoch went from nine digits to ten. *)
Definition rolloverStore : heap :=
  list_to_map [(0%nat, exampleSample 5 2100); (1%nat, exampleSample 15 2200)].

Definition rolloverTrace : AircraftTrace := exampleTrace 999999990 [0; 1]%nat.

(** A trace of two samples, and the same two samples once more in other
    sample arrays. *)
Definition copyStore : heap :=
  list_to_map [
    (0%nat, exampleSample 0 2100); (1%nat, exampleSample 5 2200);
    (2%nat, exampleSample 0 2100); (3%nat, exampleSample 5 2200)
  ].

Definition originalTrace : AircraftTrace := exampleTrace 1648420051 [0; 1]%nat.

Definition copiedTrace : AircraftTrace := exampleTrace 1648420051 [2; 3]%nat.

(** A trace that holds two samples for the same second, and a copy of it. *)
Definition repeatStore : heap :=
  list_to_map [
    (0%nat, exampleSample 0 2100); (1%nat, exampleSample 0 2200);
    (2%nat, exampleSample 0 2100); (3%nat, exampleSample 0 2200)
  ].

Definition repeatTrace : AircraftTrace := exampleTrace 1648420051 [0; 1]%nat.

Definition repeatCopy : AircraftTrace := exampleTrace 1648420051 [2; 3]%nat.

Definition pol35 : Aircraft := mkAircraft "7c4ee8" (JStr "POL35") true.

(** * Further parts of the worker *)

(** ** Strings

    A string is taken as its sequence of characters below 256, which is all
    that the ICAO address, registration, type and call sign fields hold. *)

(** The characters [String.prototype.trim] strips: tab, line feed, vertical
    tab, form feed, carriage return, space and no-break space. *)
Definition isWhiteSpace (c : ascii) : bool :=
  bool_decide (nat_of_ascii c ∈ [9; 10; 11; 12; 13; 32; 160]%nat).

(** [s.trimStart()]: the string from its first character that is not
    white space. *)
Fixpoint trimStart (s : string) : string :=
  match s with
  | EmptyString => EmptyString
  | String c s' => if isWhiteSpace c then trimStart s' else s
  end.

(** [s.trimEnd()]: the string up to its last character that is not white
    space. *)
Fixpoint trimEnd (s : string) : string :=
  match s with
  | EmptyString => EmptyString
  | String c s' =>
      match trimEnd s' with
      | EmptyString => if isWhiteSpace c then EmptyString else String c EmptyString
      | rest => String c rest
      end
  end.

(** [s.trim()]. *)
Definition trim (s : string) : string := trimEnd (trimStart s).

(** The lower-case form of one character: the letters A to Z and the
    accented capitals from 192 to 222, the multiplication sign 215 apart,
    lie 32 places below their lower-case forms. *)
Definition lowerChar (c : ascii) : ascii :=
  let n := nat_of_ascii c in
  if bool_decide (65 ≤ n ≤ 90 ∨ (192 ≤ n ≤ 222 ∧ n ≠ 215))%nat
  then ascii_of_nat (n + 32) else c.

(** [s.toLowerCase()]. *)
Fixpoint toLowerCase (s : string) : string :=
  match s with
  | EmptyString => EmptyString
  | String c s' => String (lowerChar c) (toLowerCase s')
  end.

(** ** data.js: aircraft states and look-up in a binary update *)

(** An [AircraftState]; a key the object literal leaves out reads as
    [undefined]. *)
Record AircraftState := mkAircraftState {
  as_icao : jsval;
  as_registration : jsval;
  as_type : jsval;
  as_flightName : jsval;
  as_year : jsval;
  as_description : jsval;
  as_ownerOperator : jsval;
  as_comprehensive : bool
}.

(** [aircraftStateFromBinary(aircraftObject)]. *)
Definition aircraftStateFromBinary (aircraftObject : BinaryAircraftObject) : AircraftState :=
  {| as_icao := JStr (trim (bo_hex aircraftObject));
     as_registration := JStr (trim (bo_r aircraftObject));
     as_type := JStr (trim (bo_t aircraftObject));
     as_flightName := JStr (trim (bo_flight aircraftObject));
     as_year := JUndefined;
     as_description := JUndefined;
     as_ownerOperator := JUndefined;
     as_comprehensive := true |}.

(** Index 8 of a sample array: [null] or [undefined], or an object that
    may have a [flight] key holding a string. *)
Inductive sampleDetails :=
| NoDetails
| Details (flight : option string).

(** Index 8 of the sample arrays, which the merge neither reads nor writes,
    kept beside the store; an array with no entry has no details. *)
Abbreviation detailStore := (gmap loc sampleDetails).

(** [traceObject[8] !== null && traceObject[8] !== undefined && "flight" in
    traceObject[8]], with the call sign found. *)
Definition flightOf (details : detailStore) (traceObject : loc) : option string :=
  match details !! traceObject with
  | Some (Details (Some flight)) => Some flight
  | Some (Details None) | Some NoDetails | None => None
  end.

(** [trace.trace.find(...)], then [validTraceObject[8].flight]. *)
Fixpoint findFlight (details : detailStore) (trace : list loc) : option string :=
  match trace with
  | [] => None
  | traceObject :: trace' =>
      match flightOf details traceObject with
      | Some flight => Some flight
      | None => findFlight details trace'
      end
  end.

Section AircraftStates.
Context `{Host}.

(** [aircraftStateFromTrace(trace)]. *)
Definition aircraftStateFromTrace (details : detailStore) (trace : AircraftTrace)
    : AircraftState :=
  let flightName :=
    match findFlight details (at_trace trace) with
    | Some flight => JStr (trim flight)
    | None => JUndefined
    end in
  {| as_icao := at_icao trace;
     as_registration := at_r trace;
     as_type := at_t trace;
     as_flightName := flightName;
     as_year := JNum (parseInt (at_year trace));
     as_description := at_desc trace;
     as_ownerOperator := at_ownOp trace;
     as_comprehensive := true |}.
End AircraftStates.

(** A target vehicle: [{ icao, name, airportCode }]. *)
Record TargetVehicle := mkTargetVehicle {
  tv_icao : string;
  tv_name : string;
  tv_airportCode : string
}.

(** [aircraftStateFromTargetedVehicle(targetedVehicle)]. *)
Definition aircraftStateFromTargetedVehicle (targetedVehicle : TargetVehicle) : AircraftState :=
  {| as_icao := JStr (tv_icao targetedVehicle);
     as_registration := JUndefined;
     as_type := JUndefined;
     as_flightName := JStr (tv_name targetedVehicle);
     as_year := JUndefined;
     as_description := JUndefined;
     as_ownerOperator := JUndefined;
     as_comprehensive := false |}.

(** A [TargetedVehicleTrace]: each trace is the parsed document, [null],
    or [undefined] when the property was never set. *)
Record TargetedVehicleTrace := mkTargetedVehicleTrace {
  tvt_targetedVehicle : TargetVehicle;
  tvt_fullTrace : traceArg;
  tvt_recentTrace : traceArg
}.

(** [trace === null]: [undefined] is not [null]. *)
Definition isNull (trace : traceArg) : bool :=
  match trace with
  | ArgNull => true
  | ArgUndefined | ArgTrace _ => false
  end.

Section AircraftWithPoints.
Context `{Host}.

(** [aircraftWithPointsFromTraces(targetedVehicleTrace)]: the store after
    the call and the pair [[aircraftState, mergedTrace]] returned, or the
    exception the merge throws. *)
Definition aircraftWithPointsFromTraces (h : heap) (details : detailStore)
    (targetedVehicleTrace : TargetedVehicleTrace)
    : completion (heap * (AircraftState * option AircraftTrace)) :=
  let fullTrace := tvt_fullTrace targetedVehicleTrace in
  let recentTrace := tvt_recentTrace targetedVehicleTrace in
  let merging :=
    if negb (isNull recentTrace) && isNull fullTrace
    then Some (mergeAllTraces h [recentTrace; fullTrace])
    else if negb (isNull fullTrace) && isNull recentTrace
    then Some (mergeAllTraces h [fullTrace; recentTrace])
    else if negb (isNull fullTrace) && negb (isNull recentTrace)
    then Some (mergeAllTraces h [fullTrace; recentTrace])
    else None in
  match merging with
  | None =>
      Return (h, (aircraftStateFromTargetedVehicle (tvt_targetedVehicle targetedVehicleTrace),
                  None))
  | Some (Throw e) => Throw e
  | Some (Return (h', mergedTrace)) =>
      Return (h', (aircraftStateFromTrace details mergedTrace, Some mergedTrace))
  end.
End AircraftWithPoints.

(** [binaryUpdateObject.findAircraftObjectByIcao(icao)]: the first aircraft
    of the update whose [hex], in lower case and trimmed, is [icao] in lower
    case and trimmed; [null] when there is none. *)
Fixpoint findAircraftObjectByIcao (aircraft : list BinaryAircraftObject) (icao : string)
    : option BinaryAircraftObject :=
  match aircraft with
  | [] => None
  | aircraftObject :: aircraft' =>
      if String.eqb (trim (toLowerCase (bo_hex aircraftObject))) (trim (toLowerCase icao))
      then Some aircraftObject
      else findAircraftObjectByIcao aircraft' icao
  end.

(** [binaryUpdateObject.findAircraftObjectByRego(registration)]. *)
Fixpoint findAircraftObjectByRego (aircraft : list BinaryAircraftObject)
    (registration : string) : option BinaryAircraftObject :=
  match aircraft with
  | [] => None
  | aircraftObject :: aircraft' =>
      if String.eqb (trim (toLowerCase (bo_r aircraftObject)))
                    (trim (toLowerCase registration))
      then Some aircraftObject
      else findAircraftObjectByRego aircraft' registration
  end.

(** ** database.js: the points not yet synchronised *)

(** The database: the [Aircraft] table by its primary key, and the
    [FlightPoints] table. *)
Record Database := mkDatabase {
  db_Aircraft : gmap string Aircraft;
  db_FlightPoints : table
}.

(** [ORDER BY timestamp ASC]: a timestamp that is not a number is stored as
    NULL, which SQLite sorts before every number. *)
Definition timestamp_le (a b : number) : Prop :=
  match a, b with
  | NaN, _ => True
  | Num _, NaN => False
  | Num x, Num y => x <= y
  end.

Global Instance timestamp_le_dec : RelDecision timestamp_le.
Proof. intros [|x] [|y]; simpl; apply _. Defined.

(** The order of two rows under [ORDER BY timestamp ASC]. *)
Definition byTimestamp (a b : FlightPointModel) : Prop :=
  timestamp_le (fm_timestamp a) (fm_timestamp b).

Global Instance byTimestamp_dec : RelDecision byTimestamp.
Proof. intros a b. unfold byTimestamp. apply _. Defined.

(** The join condition and WHERE clause of [getUnsynchronisedPointsFor]:
    the point belongs to the aircraft and [synchronised] is false. *)
Definition isUnsynchronisedOf (aircraftIcao : string) (fm : FlightPointModel) : bool :=
  bool_decide (fm_AircraftIcao fm = Some aircraftIcao) && negb (fm_synchronised fm).

(** [getUnsynchronisedPointsFor(aircraftIcao)]: [null] when the aircraft is
    not stored, else the aircraft with its unsynchronised points in
    ascending order of timestamp. *)
Definition getUnsynchronisedPointsFor (db : Database) (aircraftIcao : string)
    : option (Aircraft * list FlightPointModel) :=
  match db_Aircraft db !! aircraftIcao with
  | None => None
  | Some aircraft =>
      Some (aircraft,
            merge_sort byTimestamp (filter (isUnsynchronisedOf aircraftIcao) (db_FlightPoints db)))
  end.

(** [getUnsynchronisedPointsFromDayFor(aircraftIcao, isoDay)]. *)
Definition getUnsynchronisedPointsFromDayFor (db : Database) (aircraftIcao isoDay : string)
    : option (Aircraft * list FlightPointModel) :=
  match db_Aircraft db !! aircraftIcao with
  | None => None
  | Some aircraft =>
      Some (aircraft,
            merge_sort byTimestamp
              (filter (λ fm, isUnsynchronisedOf aircraftIcao fm
                             && bool_decide (fm_date fm = isoDay))
                      (db_FlightPoints db)))
  end.

(** [buildFlightPointModel(flightPoint)]. *)
Definition buildFlightPointModel `{Host} (flightPoint : FlightPoint) : list FlightPointModel :=
  buildFlightPointsModels [flightPoint].

(** ** tracker.js: queued updates *)

Global Instance FlightPoint_eq_dec : EqDecision FlightPoint.
Proof. solve_decision. Defined.

(** [array.indexOf(savedUpdate)]: the first index that holds the point, or
    -1 ([None]).  JavaScript compares the queued points as objects; the
    model compares their fields, which is the same for a queue of pairwise
    different points. *)
Fixpoint indexOf (savedUpdate : FlightPoint) (array : list FlightPoint) : option nat :=
  match array with
  | [] => None
  | queued :: array' =>
      if decide (queued = savedUpdate) then Some O else S <$> indexOf savedUpdate array'
  end.

(** [array.splice(start, 1)] for a [start] that [indexOf] gave: a start of
    -1 counts from the end and takes the last element out. *)
Definition splice1 (start : option nat) (array : list FlightPoint) : list FlightPoint :=
  match start with
  | Some i => delete i array
  | None => take (List.length array - 1) array
  end.

(** The loop [for(let savedUpdate of savedUpdatesToSubmit)] of
    [makeAircraftWithPoints] when [savedUpdatesToSubmit] is the array
    [trackedAircraft.savedUpdates[icao]] itself: the iterator reads the
    array at [index], the body splices the element read out of the same
    array, and the iterator moves on to [index + 1]; it stops when [index]
    is past the end. *)
Fixpoint spliceSavedFrom (fuel index : nat) (array : list FlightPoint) : list FlightPoint :=
  match fuel with
  | O => array
  | S fuel' =>
      match array !! index with
      | None => array
      | Some savedUpdate =>
          spliceSavedFrom fuel' (S index) (splice1 (indexOf savedUpdate array) array)
      end
  end.

(** The loop from its start; it makes at most one step per element. *)
Definition spliceSaved (array : list FlightPoint) : list FlightPoint :=
  spliceSavedFrom (List.length array) 0 array.

(** The elements at the odd indices of a list. *)
Fixpoint everySecond {A} (l : list A) : list A :=
  match l with
  | _ :: x :: l' => x :: everySecond l'
  | _ => []
  end.

(** The module variables of [tracker.js] beside [trackedAircraft]. *)
Record Tracker := mkTracker {
  tr_trackedAircraft : TrackedAircraft;
  tr_awaitingUpdateResponse : bool;
  tr_isSlaveMode : bool;
  tr_providedTargetVehicles : option (list TargetVehicle)
}.

(** [trackedAircraft.savedUpdates[icao] = array]. *)
Definition setSavedUpdates (ta : TrackedAircraft) (icao : string) (array : list FlightPoint)
    : TrackedAircraft :=
  mkTrackedAircraft (ta_aircraft ta) (<[icao := array]> (ta_savedUpdates ta))
    (ta_missedUpdates ta).

(** The module variables with [trackedAircraft], and with
    [awaitingUpdateResponse], replaced. *)
Definition withTrackedAircraft (st : Tracker) (ta : TrackedAircraft) : Tracker :=
  mkTracker ta (tr_awaitingUpdateResponse st) (tr_isSlaveMode st)
    (tr_providedTargetVehicles st).

Definition withAwaitingUpdateResponse (st : Tracker) (awaiting : bool) : Tracker :=
  mkTracker (tr_trackedAircraft st) awaiting (tr_isSlaveMode st)
    (tr_providedTargetVehicles st).

(** [trackedAircraft.numTracked()]. *)
Definition numTracked (ta : TrackedAircraft) : nat := size (ta_aircraft ta).

Section Tracker.
Context `{Host}.

(** [makeAircraftWithPoints(aircraftModel)].  While [saveToAircraft] is
    awaited other updates may be handled; what they can do to the queue of
    this aircraft is push the points [arrived] onto it ([updateAircraft]
    queues whenever a pass is under way).  The result is the tracked
    aircraft and the database after the call, and the aircraft with its
    unsynchronised points, or [null]. *)
Definition makeAircraftWithPoints (ta : TrackedAircraft) (db : Database)
    (aircraftModel : Aircraft) (arrived : list FlightPoint)
    : TrackedAircraft * Database * option (Aircraft * list FlightPointModel) :=
  let icao := ac_icao aircraftModel in
  let savedUpdatesToSubmit := default [] (ta_savedUpdates ta !! icao) in
  let builtSavedUpdateFlightPoints := buildFlightPointsModels savedUpdatesToSubmit in
  let db' :=
    mkDatabase (db_Aircraft db)
      (saveToAircraft builtSavedUpdateFlightPoints (db_FlightPoints db) aircraftModel).2 in
  let ta' :=
    match ta_savedUpdates ta !! icao with
    | Some array => setSavedUpdates ta icao (spliceSaved (array ++ arrived))
    | None =>
        match arrived with
        | [] => ta
        | _ => setSavedUpdates ta icao arrived
        end
    end in
  (ta', db', getUnsynchronisedPointsFor db' icao).

(** [handleAircraftSubmissionReceipts(aircraftSubmissionReceipts)]: the
    receipts object maps an ICAO to an array of receipts; every array is
    handed to [updateFlightPointReceipts], and the gate is opened. *)
Definition handleAircraftSubmissionReceipts (st : Tracker) (db : Database)
    (aircraftSubmissionReceipts : list (string * list FlightPointReceipt))
    : Tracker * Database :=
  let tbl :=
    foldl (λ tbl flightPointReceiptsArray,
             match updateFlightPointReceipts tbl flightPointReceiptsArray with
             | Return (tbl', _) => tbl'
             | Throw _ => tbl
             end)
          (db_FlightPoints db) aircraftSubmissionReceipts.*2 in
  (withAwaitingUpdateResponse st false, mkDatabase (db_Aircraft db) tbl).

(** [updateAircraft(aircraftModel, flightPoint)], with the update pass it
    starts when the aircraft is set up and no pass is under way as a
    parameter. *)
Definition updateAircraft
    (performUpdatePass : Tracker → Database → Aircraft → list FlightPointModel
                         → Tracker * Database)
    (st : Tracker) (db : Database) (aircraftModel : Aircraft) (flightPoint : FlightPoint)
    : Tracker * Database :=
  let savedUpdatesArray :=
    default [] (ta_savedUpdates (tr_trackedAircraft st) !! ac_icao aircraftModel) in
  if negb (ac_isSetup aircraftModel) || tr_awaitingUpdateResponse st
  then (withTrackedAircraft st
          (setSavedUpdates (tr_trackedAircraft st) (ac_icao aircraftModel)
             (savedUpdatesArray ++ [flightPoint])), db)
  else performUpdatePass st db aircraftModel (buildFlightPointModel flightPoint).
End Tracker.

(** ** error.js and the targets of the tracker *)

(** The classes of [error.js] that the module exports, one per
    [exports.NAME = NAME] line. *)
Definition errorExports : list string :=
  ["ZSTDDecompressionFailed"; "PageEvaluationError"; "ShutdownRequestError";
   "WebControlError"; "GeneralError"]%string.

(** What [setupFromOptions] and [getTargetVehicles] can throw: an instance
    of a class of [error.js], or anything else. *)
Inductive raised :=
| ErrorInstance (className reason : string)
| Other (e : thrown).

Inductive outcome (A : Type) :=
| Returned (a : A)
| Raised (r : raised).

Arguments Returned {A} a.
Arguments Raised {A} r.

(** [throw new error.NAME(reason)]: a name that is not exported reads as
    [undefined], and [new undefined(...)] throws a [TypeError]. *)
Definition throwNewError (className reason : string) : raised :=
  if bool_decide (className ∈ errorExports) then ErrorInstance className reason
  else Other (TypeError ("error." +:+ className +:+ " is not a constructor")).

(** [err instanceof error.NAME]: with a right-hand side that is
    [undefined], which is no object, the operator throws a [TypeError]. *)
Definition instanceOfError (err : raised) (className : string) : outcome bool :=
  if bool_decide (className ∈ errorExports)
  then Returned (match err with
                 | ErrorInstance name _ => String.eqb name className
                 | Other (ZSTDDecompressionFailed _ _) =>
                     String.eqb "ZSTDDecompressionFailed" className
                 | Other _ => false
                 end)
  else Raised (Other (TypeError "Right-hand side of 'instanceof' is not an object")).

(** [TARGET_VEHICLES_FALLBACK]. *)
Definition TARGET_VEHICLES_FALLBACK : list TargetVehicle := [].

(** [getTargetVehicles()]: [Exception] is not defined anywhere, so the
    [throw new Exception(...)] raises a [ReferenceError]. *)
Definition getTargetVehicles (st : Tracker) : outcome (list TargetVehicle) :=
  let providedTargetVehicles := tr_providedTargetVehicles st in
  if bool_decide (providedTargetVehicles = None)
     || (bool_decide (List.length (default [] providedTargetVehicles) = 0%nat)
         && bool_decide (List.length TARGET_VEHICLES_FALLBACK = 0%nat))
  then Raised (Other (OtherError "ReferenceError: Exception is not defined"))
  else
    if bool_decide (providedTargetVehicles ≠ None)
       && bool_decide (0 < List.length (default [] providedTargetVehicles))%nat
    then Returned (default [] providedTargetVehicles)
    else Returned TARGET_VEHICLES_FALLBACK.

(** The options [runTracker] passes on: [extraOpts.isSlave] and
    [extraOpts.slaveCommand.target_vehicles], each possibly absent. *)
Record ExtraOpts := mkExtraOpts {
  eo_isSlave : option bool;
  eo_target_vehicles : option (list TargetVehicle)
}.

(** [setupFromOptions(extraOpts)], with the answer of
    [master.requestTrackerTargets()] as a parameter: the module variables
    after the call, and whether it returned. *)
Definition setupFromOptions (requestTrackerTargets : outcome (list TargetVehicle))
    (st : Tracker) (extraOpts : ExtraOpts) : Tracker * outcome unit :=
  let isSlaveMode := default false (eo_isSlave extraOpts) in
  let st1 :=
    mkTracker (tr_trackedAircraft st) (tr_awaitingUpdateResponse st) isSlaveMode
      (tr_providedTargetVehicles st) in
  let provide (st : Tracker) (targets : option (list TargetVehicle)) :=
    mkTracker (tr_trackedAircraft st) (tr_awaitingUpdateResponse st) (tr_isSlaveMode st)
      targets in
  let targetVehicles := default [] (eo_target_vehicles extraOpts) in
  let tried : Tracker * outcome unit :=
    if bool_decide (0 < List.length targetVehicles)%nat
    then (provide st1 (Some targetVehicles), Returned tt)
    else if isSlaveMode
    then match requestTrackerTargets with
         | Raised err => (st1, Raised err)
         | Returned remoteTargetVehicles =>
             if bool_decide (List.length remoteTargetVehicles ≤ 0)%nat
             then (st1, Raised (throwNewError "NoExternalTargetVehiclesError"
                                  "server-not-targeting-any"))
             else (provide st1 (Some remoteTargetVehicles), Returned tt)
         end
    else (st1, Raised (throwNewError "NoExternalTargetVehiclesError" "not-in-slave-mode")) in
  match tried with
  | (st2, Returned tt) => (st2, Returned tt)
  | (st2, Raised err) =>
      match instanceOfError err "NoExternalTargetVehiclesError" with
      | Raised typeError => (st2, Raised typeError)
      | Returned true => (provide st2 None, Returned tt)
      | Returned false => (st2, Raised err)
      end
  end.

(** ** tracker.js: the timeout of an aircraft *)

(** [timeoutProperties.isTimeout()] of [binaryUpdateReceived], for a report
    made at [timeOfReport] about an aircraft whose [lastBinaryUpdate] is a
    number, or [null] or [undefined] ([None]). *)
Definition isTimeout (timeOfReport : number) (lastBinaryUpdate : option number) : bool :=
  match lastBinaryUpdate with
  | None => true
  | Some last =>
      if negb (truthy (JNum last)) then true
      else num_gtb (num_sub timeOfReport last) (confNumber "AIRCRAFT_TIMEOUT")
  end.

(** ** tracker.js: a tracked aircraft that a binary update does not hold *)

(** The two properties of a tracked aircraft model that
    [binaryUpdateReceived] reads and writes beside those of [Aircraft]:
    [isActiveNow], of which only the truthiness is used, and
    [lastBinaryUpdate]. *)
Record Activity := mkActivity {
  act_isActiveNow : bool;
  act_lastBinaryUpdate : option number
}.

(** [handleAircraftTimeout(aircraft, timeoutProperties)]: the aircraft as it
    is afterwards, or what the call throws.  [report] is what
    [await master.reportAircraftTimeout(...)] and the reading of
    [determination] from its answer give; both branches on the determination
    inactivate the aircraft, and so does the branch taken outside slave
    mode.  The [save()] that follows writes the row, not these properties. *)
Definition handleAircraftTimeout (isSlaveMode : bool) (report : completion jsval)
    (aircraft : Activity) : completion Activity :=
  let inactivateAircraft (_aircraft : Activity) :=
    mkActivity false (act_lastBinaryUpdate _aircraft) in
  if isSlaveMode
  then match report with
       | Throw err => Throw err
       | Return determination =>
           if bool_decide (determination = JStr "landing")
           then Return (inactivateAircraft aircraft)
           else Return (inactivateAircraft aircraft)
       end
  else Return (inactivateAircraft aircraft).

(** The branch of [binaryUpdateReceived] for a tracked aircraft that
    [findAircraftObjectByIcao] does not find in the update, at the time
    [timeOfReport]: the module variables and the aircraft after it.  The
    branch calls no method of [trackedAircraft] and assigns to no module
    variable; when the aircraft is neither active nor timed out it does
    nothing at all. *)
Definition absentFromUpdate (st : Tracker) (report : completion jsval)
    (timeOfReport : number) (aircraft : Activity) : Tracker * Activity :=
  if act_isActiveNow aircraft && isTimeout timeOfReport (act_lastBinaryUpdate aircraft)
  then match handleAircraftTimeout (tr_isSlaveMode st) report aircraft with
       | Return inactivated => (st, inactivated)
       | Throw _ => (st, aircraft)
       end
  else (st, aircraft).

(** ** database.js: opening the database *)

(** [conf.NAME !== "production"]: an export that is missing reads as
    [undefined] and an integer constant is no string, so both differ from
    the literal; whether an opaque value differs is [opaqueDiffers]. *)
Definition differsFromProduction (name : string) (opaqueDiffers : bool) : bool :=
  match conf !! name with
  | Some ConfOpaque => opaqueDiffers
  | Some (ConfNumber _) | None => true
  end.

(** [createDatabase()], as far as the stored rows go:
    [sequelize.sync({ force: true })] drops every table and creates it
    anew, [sequelize.sync()] keeps what is stored. *)
Definition createDatabase (opaqueDiffers : bool) (stored : Database) : Database :=
  if differsFromProduction "NODE_END" opaqueDiffers
  then mkDatabase ∅ []
  else stored.

(** ** What holds of every flight point *)

Section FlightPointInvariant.
Context `{Host}.

(** The relations between the fields of a flight point that both
    normalizers establish: the climb flags follow the sign of the vertical
    rate, a point on the ground is at altitude 0, and the two clock fields
    are derived from the timestamp. *)
Definition flightPointInvariant (fp : FlightPoint) : Prop :=
  ¬ (fp_isAscending fp = true ∧ fp_isDescending fp = true)
  ∧ (fp_isOnGround fp = true → fp_altitude fp = Some (Num 0))
  ∧ (fp_verticalRate fp = None → fp_isAscending fp = false ∧ fp_isDescending fp = false)
  ∧ (fp_isAscending fp = true → ∃ r, fp_verticalRate fp = Some (Num r) ∧ 0 < r)
  ∧ (fp_isDescending fp = true → ∃ r, fp_verticalRate fp = Some (Num r) ∧ r < 0)
  ∧ fp_timestampMillis fp = num_mul (fp_timestamp fp) (Num 1000)
  ∧ fp_time fp = formatTime (fp_timestamp fp)
  ∧ is_Some (fp_latitude fp) ∧ is_Some (fp_longitude fp).
End FlightPointInvariant.

(** ** Example queue

    A queued point of the aircraft 7c4ee8, [second] seconds after
    1648420051. *)
Definition queuedPoint (second : Z) : FlightPoint :=
  mkFlightPoint (Num (1648420051 + second)) (Num ((1648420051 + second) * 1000))
    (Some (Num (-37))) (Some (Num 145)) (Some (Num 2100)) JNull JNull None JNull ""
    (JNum (Num (-37)), JNum (Num 145)) false false false.

(** ** Further examples *)

(** A host like [stubHost] but for its digest, which is the data themselves,
    so that points with different hash inputs have different hashes. *)
Definition plainHost : Host :=
  {| parseIntStr := λ _, NaN;
     parseFloatStr := λ _, NaN;
     formatTime := toString;
     dateToUtc := toString;
     blake2bHex := λ _ data, data |}.

(** The trace that straddles the change from nine digits to ten, and the
    same two samples once more in other sample arrays. *)
Definition rolloverCopyStore : heap :=
  list_to_map [
    (0%nat, exampleSample 5 2100); (1%nat, exampleSample 15 2200);
    (2%nat, exampleSample 5 2100); (3%nat, exampleSample 15 2200)
  ].

Definition rolloverCopy : AircraftTrace := exampleTrace 999999990 [2; 3]%nat.

(** * Properties *)

(** ** The reference trace of a merge *)

Lemma mergeAllTraces_returns (h : heap) (referenceTrace : AircraftTrace)
    (rest : list traceArg) :
  ∃ h' merged, mergeAllTraces h (ArgTrace referenceTrace :: rest) = Return (h', merged).
Proof.
  unfold mergeAllTraces. simpl head. cbv iota.
  destruct (foldl mergeTrace (h, []) (ArgTrace referenceTrace :: rest)) as [h1 d].
  eauto.
Qed.

(** C7: when the first argument of [mergeAllTraces] is [null], [undefined]
    or missing, the call throws its failure message to the caller and the
    store is left alone; when the first argument is a trace the call
    returns, whatever the other arguments are. *)
Theorem mergeAllTraces_reference_check (h : heap) (rest : list traceArg) :
  let failure :=
    Throw (ThrownString "Failed to merge traces - trace1 can't be null or undefined.") in
  mergeAllTraces h (ArgNull :: rest) = failure
  ∧ mergeAllTraces h (ArgUndefined :: rest) = failure
  ∧ mergeAllTraces h [] = failure
  ∧ ∀ referenceTrace, ∃ h' merged,
      mergeAllTraces h (ArgTrace referenceTrace :: rest) = Return (h', merged).
Proof.
  repeat split; try reflexivity.
  intros referenceTrace. apply mergeAllTraces_returns.
Qed.

(** ** Loops over sample arrays *)

Lemma set_time_to_time (o : TraceObject) : set_time (to_time o) o = o.
Proof. by destruct o. Qed.

Lemma forEachObject_lookup (f : TraceObject → TraceObject) (ls : list loc) (h : heap)
    (l : loc) :
  NoDup ls →
  forEachObject f h ls !! l = if decide (l ∈ ls) then f <$> h !! l else h !! l.
Proof.
  unfold forEachObject. intros Hnd. revert h.
  induction Hnd as [|x ls Hx Hnd IH]; intros h; cbn [foldl].
  - by rewrite decide_False by apply not_elem_of_nil.
  - rewrite IH. destruct (decide (l = x)) as [->|Hne].
    + rewrite decide_False by done. rewrite lookup_alter_eq.
      by rewrite decide_True by constructor.
    + rewrite lookup_alter_ne by done.
      destruct (decide (l ∈ ls)) as [Hin|Hin].
      * by rewrite decide_True by (by constructor).
      * rewrite decide_False; [done|]. by intros [?|?]%elem_of_cons.
Qed.

Lemma forEachObject_payload (f : TraceObject → TraceObject) (ls : list loc) (h : heap)
    (l : loc) :
  (∀ o, set_time NaN (f o) = set_time NaN o) →
  payloadOf (forEachObject f h ls) l = payloadOf h l.
Proof.
  unfold forEachObject, payloadOf. intros Hf. revert h.
  induction ls as [|x ls IH]; intros h; simpl; [done|].
  rewrite IH. destruct (decide (x = l)) as [->|Hne].
  - rewrite lookup_alter_eq. destruct (h !! l); simpl; [|done]. by rewrite Hf.
  - by rewrite lookup_alter_ne.
Qed.

Lemma timeOf_forEachObject (f : TraceObject → TraceObject) (g : number → number)
    (ls : list loc) (h : heap) (l : loc) :
  (∀ o, to_time (f o) = g (to_time o)) → g NaN = NaN →
  NoDup ls →
  timeOf (forEachObject f h ls) l = if decide (l ∈ ls) then g (timeOf h l) else timeOf h l.
Proof.
  intros Hf Hg Hnd. unfold timeOf. rewrite forEachObject_lookup by done.
  destruct (decide (l ∈ ls)); [|done].
  destruct (h !! l); simpl; [apply Hf|by rewrite Hg].
Qed.

Lemma timeOf_normaliseTimestamps (h : heap) (t : AircraftTrace) (l : loc) :
  NoDup (at_trace t) →
  timeOf (normaliseTimestamps h t) l
  = if decide (l ∈ at_trace t) then num_add (timeOf h l) (at_timestamp t) else timeOf h l.
Proof.
  intros Hnd. unfold normaliseTimestamps.
  by rewrite (timeOf_forEachObject _ (λ n, num_add n (at_timestamp t))).
Qed.

Lemma timeOf_relativeTimestamps (h : heap) (t : AircraftTrace) (l : loc) :
  NoDup (at_trace t) →
  timeOf (relativeTimestamps h t) l
  = if decide (l ∈ at_trace t) then num_sub (timeOf h l) (at_timestamp t) else timeOf h l.
Proof.
  intros Hnd. unfold relativeTimestamps.
  by rewrite (timeOf_forEachObject _ (λ n, num_sub n (at_timestamp t))).
Qed.

Lemma payloadOf_normaliseTimestamps (h : heap) (t : AircraftTrace) (l : loc) :
  payloadOf (normaliseTimestamps h t) l = payloadOf h l.
Proof. by apply forEachObject_payload. Qed.

Lemma payloadOf_relativeTimestamps (h : heap) (t : AircraftTrace) (l : loc) :
  payloadOf (relativeTimestamps h t) l = payloadOf h l.
Proof. by apply forEachObject_payload. Qed.

(** Two stores that agree on a sample but for its time. *)
Lemma lookup_of_payload (h h' : heap) (l : loc) :
  payloadOf h' l = payloadOf h l →
  h' !! l = set_time (timeOf h' l) <$> h !! l.
Proof.
  unfold payloadOf, timeOf. destruct (h' !! l) as [o'|], (h !! l) as [o|]; simpl; try done.
  intros [= Heq]. f_equal. destruct o, o'. simpl in *. unfold set_time in *. simpl in *.
  by simplify_eq.
Qed.

(** ** The dictionary of absolute timestamps *)

Lemma dict_get_None (d : dict) (k : number) : dict_get d k = None ↔ k ∉ d.*1.
Proof.
  induction d as [|[k' l] d IH]; simpl.
  - split; [intros _; apply not_elem_of_nil|done].
  - case_decide as Hk; simplify_eq.
    + split; [done|]. intros []. constructor.
    + rewrite IH, not_elem_of_cons. split; [by intros ?; split|by intros [_ ?]].
Qed.

Lemma dict_get_Some_elem (d : dict) (k : number) (l : loc) :
  dict_get d k = Some l → (k, l) ∈ d.
Proof.
  induction d as [|[k' l'] d IH]; simpl; [done|].
  case_decide; simplify_eq.
  - intros [= ->]. constructor.
  - intros ?. constructor. auto.
Qed.

Lemma dict_get_is_Some (d : dict) (k : number) : is_Some (dict_get d k) ↔ k ∈ d.*1.
Proof.
  rewrite <-not_eq_None_Some, dict_get_None.
  split; [|by auto]. intros Hnn. by destruct (decide (k ∈ d.*1)).
Qed.

Lemma dict_get_app (d1 d2 : dict) (k : number) :
  dict_get (d1 ++ d2) k
  = match dict_get d1 k with Some l => Some l | None => dict_get d2 k end.
Proof.
  induction d1 as [|[k' l'] d1 IH]; simpl; [done|]. by case_decide.
Qed.

Lemma dict_has_spec (d : dict) (k : number) : dict_has d k = true ↔ k ∈ d.*1.
Proof. unfold dict_has. apply bool_decide_eq_true. Qed.

(** Last writer never wins: looking a key up after a run of conditional
    stores finds what looking it up in the stores themselves, oldest first,
    finds. *)
Lemma dict_get_foldl_setIfAbsent (c d0 : dict) (k : number) :
  dict_get (foldl setIfAbsent d0 c) k = dict_get (d0 ++ c) k.
Proof.
  revert d0. induction c as [|[k' l'] c IH]; intros d0; simpl.
  - by rewrite app_nil_r.
  - rewrite IH. unfold setIfAbsent. simpl.
    destruct (dict_has d0 k') eqn:Hhas.
    + apply dict_has_spec, dict_get_is_Some in Hhas as [l0 Hl0].
      rewrite !dict_get_app. simpl. case_decide; simplify_eq; [|done].
      by rewrite Hl0.
    + by rewrite <-app_assoc.
Qed.

Lemma foldl_setIfAbsent_keys (c d0 : dict) (k : number) :
  k ∈ (foldl setIfAbsent d0 c).*1 ↔ k ∈ d0.*1 ∨ k ∈ c.*1.
Proof.
  rewrite <-!dict_get_is_Some, dict_get_foldl_setIfAbsent, dict_get_app.
  destruct (dict_get d0 k) eqn:Hd0.
  - split; [left|]; eauto.
  - split; [by right|]. intros [[? ?]|?]; [done|assumption].
Qed.

Lemma foldl_setIfAbsent_NoDup (c d0 : dict) :
  NoDup d0.*1 → NoDup (foldl setIfAbsent d0 c).*1.
Proof.
  revert d0. induction c as [|[k' l'] c IH]; intros d0 Hnd; simpl; [done|].
  apply IH. unfold setIfAbsent. simpl.
  destruct (dict_has d0 k') eqn:Hhas; [done|].
  rewrite fmap_app. simpl. apply NoDup_app. split_and!; [done| |apply NoDup_singleton].
  intros x Hx ->%list_elem_of_singleton.
  apply dict_has_spec in Hx. congruence.
Qed.

Lemma foldl_setIfAbsent_sublist (c d0 : dict) :
  ∃ c', foldl setIfAbsent d0 c = d0 ++ c' ∧ c' `sublist_of` c.
Proof.
  revert d0. induction c as [|e c IH]; intros d0; simpl.
  - exists []. by rewrite app_nil_r.
  - destruct (IH (setIfAbsent d0 e)) as (c' & -> & Hsub).
    unfold setIfAbsent. destruct (dict_has d0 e.1).
    + exists c'. split; [done|]. by constructor.
    + exists (e :: c'). rewrite <-app_assoc. split; [done|]. by constructor.
Qed.

Lemma setIfAbsent_from_empty_sublist (c : dict) :
  foldl setIfAbsent [] c `sublist_of` c.
Proof. by destruct (foldl_setIfAbsent_sublist c []) as (c' & -> & Hsub). Qed.

(** With distinct keys, reading every key in order gives the values in
    order. *)
Lemma omap_dict_get_cons (k : number) (l : loc) (d : dict) (ks : list number) :
  k ∉ ks → omap (dict_get ((k, l) :: d)) ks = omap (dict_get d) ks.
Proof.
  induction ks as [|k' ks IH]; [done|].
  intros [Hne Hnin]%not_elem_of_cons. cbn [omap list_omap].
  rewrite IH by done.
  assert (dict_get ((k, l) :: d) k' = dict_get d k') as ->; [|done].
  simpl. by rewrite decide_False.
Qed.

Lemma omap_dict_get_keys (d : dict) :
  NoDup d.*1 → omap (dict_get d) d.*1 = d.*2.
Proof.
  induction d as [|[k l] d IH]; [done|].
  intros [Hk Hnd]%NoDup_cons. cbn [fmap list_fmap omap list_omap fst snd].
  rewrite omap_dict_get_cons by done. rewrite IH by done.
  simpl. by rewrite decide_True.
Qed.

Lemma omap_dict_get_Forall2 (d : dict) (ks : list number) :
  (∀ k, k ∈ ks → k ∈ d.*1) →
  Forall2 (λ k l, dict_get d k = Some l) ks (omap (dict_get d) ks).
Proof.
  induction ks as [|k ks IH]; intros Hin; simpl; [constructor|].
  destruct (proj2 (dict_get_is_Some d k)) as [l Hl]; [apply Hin; constructor|].
  rewrite Hl. constructor; [done|]. apply IH. intros k' Hk'. apply Hin. by constructor.
Qed.

(** ** The merge loop *)

Lemma contributions_cons_trace (h : heap) (t : AircraftTrace) (rest : list traceArg) :
  contributions h (ArgTrace t :: rest)
  = ((λ l, (num_add (timeOf h l) (at_timestamp t), l)) <$> at_trace t)
    ++ contributions h rest.
Proof. reflexivity. Qed.

Lemma contributions_values (h : heap) (traces : list traceArg) :
  (contributions h traces).*2 = inputObjects traces.
Proof.
  induction traces as [|[| |t] traces IH]; simpl; try done.
  unfold contributions, inputObjects in *. cbn [mbind list_bind].
  rewrite fmap_app, IH. f_equal.
  rewrite <-list_fmap_compose. apply list_fmap_id.
Qed.

Lemma contributions_ext (h h' : heap) (traces : list traceArg) :
  (∀ l, l ∈ inputObjects traces → timeOf h' l = timeOf h l) →
  contributions h' traces = contributions h traces.
Proof.
  induction traces as [|[| |t] traces IH]; intros Heq; try done.
  - apply IH, Heq.
  - apply IH, Heq.
  - rewrite !contributions_cons_trace. f_equal.
    + apply list_fmap_ext. intros i l Hl. rewrite Heq; [done|].
      unfold inputObjects. cbn [mbind list_bind]. apply elem_of_app. left.
      by eapply list_elem_of_lookup_2.
    + apply IH. intros l Hl. apply Heq.
      unfold inputObjects. cbn [mbind list_bind]. apply elem_of_app. by right.
Qed.

Lemma foldl_recordTraceObject (h : heap) (ls : list loc) (d : dict) :
  foldl (recordTraceObject h) d ls = foldl setIfAbsent d ((λ l, (timeOf h l, l)) <$> ls).
Proof. revert d. induction ls as [|l ls IH]; intros d; simpl; [done|]. apply IH. Qed.

Lemma mergeTrace_payload (st : heap * dict) (a : traceArg) (l : loc) :
  payloadOf (mergeTrace st a).1 l = payloadOf st.1 l.
Proof. destruct a; simpl; try done. apply payloadOf_normaliseTimestamps. Qed.

Lemma mergeLoop_payload (traces : list traceArg) (st : heap * dict) (l : loc) :
  payloadOf (foldl mergeTrace st traces).1 l = payloadOf st.1 l.
Proof.
  revert st. induction traces as [|a traces IH]; intros st; simpl; [done|].
  by rewrite IH, mergeTrace_payload.
Qed.

(** Without shared sample arrays, the loop of [mergeAllTraces] stores the
    contributions, first writer first, and leaves every input sample at its
    absolute timestamp. *)
Lemma mergeLoop_spec (traces : list traceArg) (h : heap) (d : dict) :
  NoDup (inputObjects traces) →
  (foldl mergeTrace (h, d) traces).2 = foldl setIfAbsent d (contributions h traces)
  ∧ (∀ k l, (k, l) ∈ contributions h traces →
       timeOf (foldl mergeTrace (h, d) traces).1 l = k)
  ∧ (∀ l, l ∉ inputObjects traces → (foldl mergeTrace (h, d) traces).1 !! l = h !! l).
Proof.
  revert h d. induction traces as [|[| |t] traces IH]; intros h d Hnd.
  - split_and!; [done| |done]. intros k l Hin. by apply elem_of_nil in Hin.
  - apply (IH h d Hnd).
  - apply (IH h d Hnd).
  - unfold inputObjects in Hnd. cbn [mbind list_bind] in Hnd.
    fold (inputObjects traces) in Hnd.
    apply NoDup_app in Hnd as (Hnd1 & Hdisj & Hnd2).
    cbn [foldl mergeTrace]. cbn [fst snd].
    set (h' := normaliseTimestamps h t).
    assert (∀ l, l ∈ inputObjects traces → timeOf h' l = timeOf h l) as Hrest.
    { intros l Hl. unfold h'. rewrite timeOf_normaliseTimestamps by done.
      rewrite decide_False; [done|]. intros Hl'. by eapply Hdisj. }
    destruct (IH h' (foldl (recordTraceObject h') d (at_trace t)) Hnd2)
      as (Hd & Htime & Hother).
    rewrite (contributions_ext h h') in Hd, Htime by done.
    split_and!.
    + rewrite Hd, contributions_cons_trace, foldl_app. f_equal.
      rewrite foldl_recordTraceObject. f_equal.
      apply list_fmap_ext. intros i l Hl. f_equal.
      unfold h'. rewrite timeOf_normaliseTimestamps by done.
      rewrite decide_True; [done|]. by eapply list_elem_of_lookup_2.
    + intros k l. rewrite contributions_cons_trace, elem_of_app.
      intros [Hin|Hin]; [|by apply Htime].
      apply list_elem_of_fmap in Hin as (l' & [= -> ->] & Hl').
      unfold timeOf at 1. rewrite Hother by (intros ?; by eapply Hdisj).
      fold (timeOf h' l'). unfold h'. rewrite timeOf_normaliseTimestamps by done.
      by rewrite decide_True.
    + intros l Hl. unfold inputObjects in Hl. cbn [mbind list_bind] in Hl.
      apply not_elem_of_app in Hl as [Hl1 Hl2].
      rewrite Hother by done. unfold h', normaliseTimestamps.
      rewrite forEachObject_lookup by done. by rewrite decide_False.
Qed.

(** ** The order of the keys *)

Global Instance key_le_total : Total key_le.
Proof.
  intros a b. unfold key_le.
  destruct (String.leb_total (toString a) (toString b)) as [Hab|Hba].
  - left. by rewrite Hab.
  - right. by rewrite Hba.
Qed.

Global Instance key_le_trans : Transitive key_le.
Proof.
  intros a b c. unfold key_le.
  apply (transitivity (R := strings.String.le)).
Qed.

Lemma key_lt_le (a b : number) : key_lt a b → key_le a b.
Proof. intros Hlt. by destruct (total key_le a b). Qed.

Lemma key_lt_irrefl (a : number) : ¬ key_lt a a.
Proof. intros Hlt. apply Hlt. by destruct (total key_le a a). Qed.

Lemma sortedKeysOf_Permutation (d : dict) : sortedKeysOf d ≡ₚ d.*1.
Proof. apply merge_sort_Permutation. Qed.

Lemma sortedKeysOf_Sorted (d : dict) : Sorted key_le (sortedKeysOf d).
Proof. apply (Sorted_merge_sort key_le). Qed.

Lemma sortedKeysOf_StronglySorted (d : dict) : StronglySorted key_le (sortedKeysOf d).
Proof. apply Sorted_StronglySorted; [apply _|apply sortedKeysOf_Sorted]. Qed.

(** Where the order of the strings is the order of the numbers, keys that
    are sorted as strings and pairwise different are strictly increasing. *)
Lemma StronglySorted_keysInOrder (keys : list number) :
  NoDup keys → keysInOrder keys → StronglySorted key_le keys → StronglySorted num_lt keys.
Proof.
  intros Hnd Horder Hs. induction Hs as [|k keys Hs IH Hall]; [constructor|].
  apply NoDup_cons in Hnd as [Hk Hnd]. constructor.
  - apply IH; [done|]. intros a b Ha Hb. apply Horder; by constructor.
  - rewrite Forall_forall in Hall |- *. intros k' Hk'.
    apply Horder; [constructor|by constructor| |by apply Hall].
    intros ->. by apply Hk.
Qed.

Lemma StronglySorted_key_lt_NoDup (keys : list number) :
  StronglySorted key_lt keys → NoDup keys.
Proof.
  induction 1 as [|k keys Hs IH Hall]; constructor; [|done].
  intros Hk. rewrite Forall_forall in Hall. by apply (key_lt_irrefl k), Hall.
Qed.

(** A list whose strings are strictly increasing is the only way to sort
    its elements as strings. *)
Lemma Sorted_key_le_unique (strict sorted : list number) :
  StronglySorted key_lt strict → StronglySorted key_le sorted → sorted ≡ₚ strict →
  sorted = strict.
Proof.
  intros Hstrict. revert sorted.
  induction Hstrict as [|k strict Hs IH Hall]; intros sorted Hsorted Hperm.
  - by apply Permutation_nil_r.
  - destruct Hsorted as [|k' sorted Hsorted Hall'].
    { by apply Permutation_nil_cons in Hperm. }
    rewrite Forall_forall in Hall, Hall'.
    assert (k' = k) as ->.
    { assert (k' ∈ k :: strict) as Hk' by (rewrite <-Hperm; constructor).
      apply elem_of_cons in Hk' as [Heq|Hk']; [done|].
      assert (k ∈ k' :: sorted) as Hk by (rewrite Hperm; constructor).
      apply elem_of_cons in Hk as [Heq|Hk]; [done|].
      destruct (Hall k' Hk'). by apply Hall'. }
    f_equal. apply IH; [done|]. by eapply Permutation_cons_inv.
Qed.

(** Keys whose strings are already strictly increasing stay as they are. *)
Lemma sortedKeysOf_sorted_id (d : dict) :
  StronglySorted key_lt d.*1 → sortedKeysOf d = d.*1.
Proof.
  intros Hs. apply Sorted_key_le_unique; [done| |].
  - apply sortedKeysOf_StronglySorted.
  - apply sortedKeysOf_Permutation.
Qed.

(** The conditions on keys can be checked key by key. *)
Lemma keysInOrder_Forall (keys : list number) :
  Forall (λ k, Forall (λ k', k ≠ k' → key_le k k' → num_lt k k') keys) keys →
  keysInOrder keys.
Proof.
  intros Hall k k' Hk Hk'. rewrite Forall_forall in Hall.
  pose proof (Hall k Hk) as Hall'. rewrite Forall_forall in Hall'. by apply Hall'.
Qed.

Lemma Forall2_fmap_eq {A B C} (f : A → C) (g : B → C) (ks : list A) (ls : list B) :
  Forall2 (λ k l, g l = f k) ks ls → g <$> ls = f <$> ks.
Proof. induction 1; simpl; [done|]. by f_equal. Qed.

(** ** The merge, without shared sample arrays *)

Lemma mergeAllTraces_unfold (h : heap) (referenceTrace : AircraftTrace)
    (rest : list traceArg) :
  mergeAllTraces h (ArgTrace referenceTrace :: rest)
  = let st := foldl mergeTrace (h, []) (ArgTrace referenceTrace :: rest) in
    let resultingTrace :=
      {| at_icao := at_icao referenceTrace;
         at_r := at_r referenceTrace;
         at_t := at_t referenceTrace;
         at_desc := at_desc referenceTrace;
         at_ownOp := at_ownOp referenceTrace;
         at_year := at_year referenceTrace;
         at_timestamp := default NaN (head (sortedKeysOf st.2));
         at_trace := omap (dict_get st.2) (sortedKeysOf st.2) |} in
    Return (relativeTimestamps st.1 resultingTrace, resultingTrace).
Proof.
  unfold mergeAllTraces. cbn [head].
  by destruct (foldl mergeTrace (h, []) (ArgTrace referenceTrace :: rest)) as [h1 d].
Qed.

(** What a merge of traces that share no sample array returns and leaves
    in the store: the keys are the absolute timestamps of the inputs in
    sorted order, each with the first sample contributed for it; a sample
    that is returned holds its absolute timestamp less the new base, any
    other input sample its absolute timestamp. *)
Lemma mergeAllTraces_spec (h : heap) (referenceTrace : AircraftTrace)
    (rest : list traceArg) :
  let traces := ArgTrace referenceTrace :: rest in
  let c := contributions h traces in
  let keys := sortedKeysOf (foldl setIfAbsent [] c) in
  NoDup (inputObjects traces) →
  ∃ h' merged,
    mergeAllTraces h traces = Return (h', merged)
    ∧ at_timestamp merged = default NaN (head keys)
    ∧ keys ≡ₚ remove_dups c.*1
    ∧ Sorted key_le keys
    ∧ Forall2 (λ k l, dict_get c k = Some l) keys (at_trace merged)
    ∧ NoDup (at_trace merged)
    ∧ (∀ k l, (k, l) ∈ c →
         timeOf h' l = if decide (l ∈ at_trace merged)
                       then num_sub k (at_timestamp merged) else k)
    ∧ (∀ l, payloadOf h' l = payloadOf h l)
    ∧ (∀ l, l ∉ inputObjects traces → h' !! l = h !! l).
Proof.
  intros traces c keys Hnd.
  pose proof (mergeAllTraces_unfold h referenceTrace rest) as Hunfold.
  fold traces in Hunfold. rewrite Hunfold. clear Hunfold.
  destruct (mergeLoop_spec traces h [] Hnd) as (Hd & Htime & Hframe).
  fold c in Hd, Htime.
  set (st := foldl mergeTrace (h, []) traces) in *.
  cbv zeta. rewrite Hd. fold keys.
  set (d := foldl setIfAbsent [] c) in *.
  set (ltrace := omap (dict_get d) keys).
  assert (NoDup d.*1) as Hndk by (apply foldl_setIfAbsent_NoDup; constructor).
  assert (keys ≡ₚ d.*1) as Hperm by apply sortedKeysOf_Permutation.
  assert (NoDup ltrace) as Hndl.
  { unfold ltrace. rewrite Hperm, omap_dict_get_keys by done.
    eapply sublist_NoDup; [|apply fmap_sublist, setIfAbsent_from_empty_sublist].
    unfold c. by rewrite contributions_values. }
  eexists _, _. split; [reflexivity|]. cbn [at_timestamp at_trace].
  split_and!.
  - done.
  - rewrite Hperm. apply NoDup_Permutation; [done|apply NoDup_remove_dups|].
    intros k. rewrite elem_of_remove_dups. unfold d.
    rewrite foldl_setIfAbsent_keys. simpl. rewrite elem_of_nil. tauto.
  - apply sortedKeysOf_Sorted.
  - eapply Forall2_impl; [apply omap_dict_get_Forall2|].
    + intros k Hk. by rewrite <-Hperm.
    + intros k l Hkl. simpl in Hkl. unfold d in Hkl.
      by rewrite dict_get_foldl_setIfAbsent in Hkl.
  - done.
  - intros k l Hkl. rewrite timeOf_relativeTimestamps by done.
    cbn [at_timestamp at_trace]. by rewrite (Htime k l Hkl).
  - intros l. rewrite payloadOf_relativeTimestamps. unfold st.
    by rewrite mergeLoop_payload.
  - intros l Hl. unfold relativeTimestamps. cbn [at_timestamp at_trace].
    rewrite forEachObject_lookup by done. rewrite decide_False; [by apply Hframe|].
    intros Hin. apply Hl. rewrite <-(contributions_values h traces). fold c.
    unfold ltrace in Hin. apply list_elem_of_omap in Hin as (k & _ & Hget).
    apply dict_get_Some_elem in Hget.
    eapply elem_of_sublist in Hget; [|apply setIfAbsent_from_empty_sublist].
    apply list_elem_of_fmap. by exists (k, l).
Qed.

Lemma Forall2_elem_of {A B} (P : A → B → Prop) (l1 : list A) (l2 : list B) :
  Forall2 P l1 l2 → Forall2 (λ a b, P a b ∧ a ∈ l1 ∧ b ∈ l2) l1 l2.
Proof.
  induction 1 as [|a b l1 l2 Hab Hall IH]; constructor.
  - split_and!; [done|constructor..].
  - eapply Forall2_impl; [exact IH|]. intros x y (? & ? & ?).
    split_and!; [done|by constructor..].
Qed.

(** The first entry under a key is the one [dict_get] finds. *)
Lemma dict_get_first (c : dict) (k : number) (l : loc) :
  dict_get c k = Some l ↔ ∃ before after, c = before ++ (k, l) :: after ∧ k ∉ before.*1.
Proof.
  split.
  - induction c as [|[k' l'] c IH]; simpl; [done|].
    case_decide as Hk; simplify_eq.
    + intros [= ->]. exists [], c. split; [done|]. apply not_elem_of_nil.
    + intros (before & after & -> & Hnin)%IH.
      exists ((k', l') :: before), after. split; [done|].
      simpl. rewrite not_elem_of_cons. by split; [congruence|].
  - intros (before & after & -> & Hnin). rewrite dict_get_app.
    apply dict_get_None in Hnin. rewrite Hnin. simpl. by rewrite decide_True.
Qed.

Lemma head_elem_of {A} (l : list A) (x : A) : head l = Some x → x ∈ l.
Proof. destruct l; intros [= ->]. constructor. Qed.

(** Decoding the returned trace adds the base of the result back to each
    offset: what comes out for a key is the key less the base plus the
    base, and so the key itself where that is exact. *)
Lemma mergeAllTraces_decodes (c : dict) (h' : heap) (merged : AircraftTrace)
    (keys : list number) :
  Forall2 (λ k l, dict_get c k = Some l) keys (at_trace merged) →
  (∀ k l, (k, l) ∈ c →
     timeOf h' l = if decide (l ∈ at_trace merged)
                   then num_sub k (at_timestamp merged) else k) →
  Forall (rebasesExactly (at_timestamp merged)) keys →
  absoluteTimestamps h' merged = keys.
Proof.
  intros Hall Htime Hexact. unfold absoluteTimestamps.
  rewrite <-(list_fmap_id keys). apply Forall2_fmap_eq.
  eapply Forall2_impl; [apply Forall2_elem_of, Hall|].
  intros k l (Hget & Hk & Hl). simpl.
  rewrite (Htime k l) by by apply dict_get_Some_elem.
  rewrite decide_True by done.
  rewrite Forall_forall in Hexact. by apply Hexact.
Qed.

(** C1 (as amended): when the first argument is a trace and no sample
    array is reachable twice from the arguments, the trace returned holds
    exactly one sample for each absolute timestamp of the inputs (each an
    offset plus the base of its trace); the sample kept for a timestamp is
    the first one contributed for it, in argument order and then in sample
    order; the base of the result is the timestamp of its first sample, a
    sample of the result holds its timestamp less that base and is otherwise
    unchanged.  Where the sort of the keys as strings puts the timestamps
    in numeric order, the samples of the result are in strictly increasing
    order of their timestamps; and where adding the base back gives each
    timestamp again, the trace returned decodes to exactly these
    timestamps. *)
Theorem mergeAllTraces_union (h : heap) (referenceTrace : AircraftTrace)
    (rest : list traceArg) :
  let traces := ArgTrace referenceTrace :: rest in
  NoDup (inputObjects traces) →
  ∃ h' merged keys,
    mergeAllTraces h traces = Return (h', merged)
    ∧ NoDup keys
    ∧ (∀ k, k ∈ keys ↔ k ∈ (contributions h traces).*1)
    ∧ at_timestamp merged = default NaN (head keys)
    ∧ Forall2 (λ k l,
                 (∃ before after,
                    contributions h traces = before ++ (k, l) :: after ∧ k ∉ before.*1)
                 ∧ timeOf h' l = num_sub k (at_timestamp merged))
        keys (at_trace merged)
    ∧ (∀ l, payloadOf h' l = payloadOf h l)
    ∧ (keysInOrder (contributions h traces).*1 → StronglySorted num_lt keys)
    ∧ (Forall (rebasesExactly (at_timestamp merged)) keys →
         absoluteTimestamps h' merged = keys).
Proof.
  intros traces Hnd.
  destruct (mergeAllTraces_spec h referenceTrace rest Hnd)
    as (h' & merged & Hm & Hbase & Hperm & Hsorted & Hall & Hndl & Htime & Hpay & _).
  fold traces in Hm, Hbase, Hperm, Hsorted, Hall, Htime.
  set (c := contributions h traces) in *.
  set (keys := sortedKeysOf (foldl setIfAbsent [] c)) in *.
  assert (∀ k, k ∈ keys ↔ k ∈ c.*1) as Hkeys.
  { intros k. by rewrite Hperm, elem_of_remove_dups. }
  assert (NoDup keys) as Hndk.
  { rewrite Hperm. apply NoDup_remove_dups. }
  exists h', merged, keys. split_and!; try done.
  - eapply Forall2_impl; [apply Forall2_elem_of, Hall|].
    intros k l (Hget & _ & Hl). split; [by apply dict_get_first|].
    rewrite (Htime k l) by by apply dict_get_Some_elem.
    by rewrite decide_True.
  - intros Horder. apply StronglySorted_keysInOrder; [done| |].
    + intros k k' Hk Hk'. apply Horder; by apply Hkeys.
    + apply sortedKeysOf_StronglySorted.
  - by apply (mergeAllTraces_decodes c).
Qed.

(** ** Merging a trace with others that bring nothing new *)

Lemma foldl_setIfAbsent_fresh (c d0 : dict) :
  NoDup (d0 ++ c).*1 → foldl setIfAbsent d0 c = d0 ++ c.
Proof.
  revert d0. induction c as [|[k l] c IH]; intros d0 Hnd; simpl.
  - by rewrite app_nil_r.
  - unfold setIfAbsent at 2. simpl. rewrite (cons_middle _ d0 c), app_assoc in Hnd |- *.
    destruct (dict_has d0 k) eqn:Hhas; [|by apply IH].
    apply dict_has_spec in Hhas. rewrite !fmap_app in Hnd.
    apply NoDup_app in Hnd as [Hnd _]. apply NoDup_app in Hnd as (_ & Hdisj & _).
    destruct (Hdisj k Hhas). simpl. constructor.
Qed.

Lemma foldl_setIfAbsent_present (c d0 : dict) :
  (∀ k, k ∈ c.*1 → k ∈ d0.*1) → foldl setIfAbsent d0 c = d0.
Proof.
  induction c as [|[k l] c IH]; intros Hin; simpl; [done|].
  unfold setIfAbsent at 2. simpl.
  rewrite (proj2 (dict_has_spec d0 k)) by (apply Hin; constructor).
  apply IH. intros k' Hk'. apply Hin. by constructor.
Qed.

Lemma contributions_trace_keys (h : heap) (t : AircraftTrace) :
  ((λ l, (num_add (timeOf h l) (at_timestamp t), l)) <$> at_trace t).*1
  = absoluteTimestamps h t.
Proof. unfold absoluteTimestamps. by rewrite <-list_fmap_compose. Qed.

Lemma contributions_trace_values (h : heap) (t : AircraftTrace) :
  ((λ l, (num_add (timeOf h l) (at_timestamp t), l)) <$> at_trace t).*2 = at_trace t.
Proof. rewrite <-list_fmap_compose. apply list_fmap_id. Qed.

(** A flight point depends on the offset of its sample and on the base of
    its trace only through their sum. *)
Lemma flightPointFromTraceObject_rebase `{Host} (base base' time' : number)
    (o : TraceObject) :
  num_add time' base' = num_add (to_time o) base →
  flightPointFromTraceObject base' (set_time time' o) = flightPointFromTraceObject base o.
Proof.
  intros Heq. unfold flightPointFromTraceObject. destruct o. simpl in *. by rewrite Heq.
Qed.

Lemma copyOf_absoluteTimestamps (h : heap) (t t' : AircraftTrace) :
  copyOf h t t' → absoluteTimestamps h t' = absoluteTimestamps h t.
Proof.
  intros (Hts & Hall & _). unfold absoluteTimestamps. rewrite Hts.
  apply Forall2_fmap_eq. eapply Forall2_impl; [exact Hall|].
  intros l l' Heq. simpl. unfold timeOf. by rewrite Heq.
Qed.

(** A trace whose timestamps are, as strings, already strictly increasing,
    merged with others that hold no timestamp it does not hold: the result
    is made of the sample arrays of the trace, in their order; its base is
    the first timestamp and each sample holds its timestamp less that
    base. *)
Lemma mergeAllTraces_same_samples (h : heap) (t : AircraftTrace) (rest : list traceArg) :
  let traces := ArgTrace t :: rest in
  NoDup (inputObjects traces) →
  StronglySorted key_lt (absoluteTimestamps h t) →
  (∀ k, k ∈ (contributions h rest).*1 → k ∈ absoluteTimestamps h t) →
  ∃ h' merged,
    mergeAllTraces h traces = Return (h', merged)
    ∧ at_trace merged = at_trace t
    ∧ at_timestamp merged = default NaN (head (absoluteTimestamps h t))
    ∧ (∀ l, l ∈ at_trace t →
         timeOf h' l = num_sub (num_add (timeOf h l) (at_timestamp t)) (at_timestamp merged))
    ∧ (∀ l, payloadOf h' l = payloadOf h l).
Proof.
  intros traces Hnd Hsorted Hknown.
  unfold traces. rewrite mergeAllTraces_unfold. fold traces.
  destruct (mergeLoop_spec traces h [] Hnd) as (Hd & Htime & _).
  set (st := foldl mergeTrace (h, []) traces) in *.
  set (ct := (λ l, (num_add (timeOf h l) (at_timestamp t), l)) <$> at_trace t).
  assert (ct.*1 = absoluteTimestamps h t) as Hct1 by apply contributions_trace_keys.
  assert (NoDup ct.*1) as Hndk by (rewrite Hct1; by apply StronglySorted_key_lt_NoDup).
  assert (st.2 = ct) as Hst.
  { rewrite Hd. unfold traces. rewrite contributions_cons_trace, foldl_app. fold ct.
    rewrite (foldl_setIfAbsent_fresh ct []) by done.
    apply foldl_setIfAbsent_present. intros k. rewrite Hct1. apply Hknown. }
  assert (sortedKeysOf ct = absoluteTimestamps h t) as Hkeys.
  { rewrite <-Hct1. apply sortedKeysOf_sorted_id. by rewrite Hct1. }
  assert (omap (dict_get ct) (sortedKeysOf ct) = at_trace t) as Htrace.
  { rewrite Hkeys, <-Hct1, omap_dict_get_keys by done. apply contributions_trace_values. }
  assert (NoDup (at_trace t)) as Hndt.
  { unfold traces, inputObjects in Hnd. cbn [mbind list_bind] in Hnd.
    by apply NoDup_app in Hnd as [? _]. }
  cbv zeta. rewrite Hst, Htrace, Hkeys.
  eexists _, _. split; [reflexivity|]. cbn [at_trace at_timestamp].
  split_and!; [done|done| |].
  - intros l Hl. rewrite timeOf_relativeTimestamps by done. cbn [at_trace at_timestamp].
    rewrite decide_True by done. f_equal. apply Htime.
    unfold traces. rewrite contributions_cons_trace. apply elem_of_app. left.
    apply list_elem_of_fmap. by exists l.
  - intros l. rewrite payloadOf_relativeTimestamps. unfold st.
    by rewrite mergeLoop_payload.
Qed.

(** Such a result has the flight points of the trace where adding the base
    back to each timestamp less the base gives the timestamp again. *)
Lemma same_samples_flightPoints `{Host} (h h' : heap) (t merged : AircraftTrace) :
  at_trace merged = at_trace t →
  (∀ l, l ∈ at_trace t →
     timeOf h' l = num_sub (num_add (timeOf h l) (at_timestamp t)) (at_timestamp merged)) →
  (∀ l, payloadOf h' l = payloadOf h l) →
  Forall (rebasesExactly (at_timestamp merged)) (absoluteTimestamps h t) →
  flightPointsFromTrace h' merged = flightPointsFromTrace h t.
Proof.
  intros Htrace Htime Hpay Hexact. unfold flightPointsFromTrace. rewrite Htrace.
  apply list_omap_ext, Forall_Forall2_diag, Forall_forall. intros l Hl.
  rewrite (lookup_of_payload h h' l) by apply Hpay.
  destruct (h !! l) as [o|] eqn:Ho; [|done]. simpl. f_equal.
  apply flightPointFromTraceObject_rebase.
  rewrite (Htime l Hl). unfold timeOf. rewrite Ho. simpl.
  rewrite Forall_forall in Hexact. apply Hexact.
  unfold absoluteTimestamps. apply list_elem_of_fmap. exists l.
  unfold timeOf. by rewrite Ho.
Qed.

(** ** Merging a trace with a copy of itself *)

(** C2 (as amended): merging a trace with a copy of it held in other sample
    arrays, when the timestamps of the trace are, as strings, strictly
    increasing along the trace, returns the sample arrays of the trace in
    their order, each at its timestamp less the first one, which is the base
    of the result, and otherwise unchanged; so where adding that base back
    gives each timestamp again, the result has the flight points, and with
    them the content hashes in order, of the original. *)
Theorem mergeAllTraces_copy_idempotent `{Host} (aircraft : Aircraft)
    (h : heap) (t t' : AircraftTrace) :
  copyOf h t t' →
  StronglySorted key_lt (absoluteTimestamps h t) →
  ∃ h' merged,
    mergeAllTraces h [ArgTrace t; ArgTrace t'] = Return (h', merged)
    ∧ at_trace merged = at_trace t
    ∧ at_timestamp merged = default NaN (head (absoluteTimestamps h t))
    ∧ (∀ l, l ∈ at_trace t →
         timeOf h' l = num_sub (num_add (timeOf h l) (at_timestamp t)) (at_timestamp merged))
    ∧ (∀ l, payloadOf h' l = payloadOf h l)
    ∧ (Forall (rebasesExactly (at_timestamp merged)) (absoluteTimestamps h t) →
         flightPointsFromTrace h' merged = flightPointsFromTrace h t
         ∧ contentHashes aircraft h' merged = contentHashes aircraft h t).
Proof.
  intros Hcopy Hsorted.
  pose proof (copyOf_absoluteTimestamps h t t' Hcopy) as Habs.
  destruct Hcopy as (Hts & Hall & Hnd).
  destruct (mergeAllTraces_same_samples h t [ArgTrace t'])
    as (h' & merged & Hm & Htrace & Hbase & Htime & Hpay); [|done| |].
  { unfold inputObjects. cbn [mbind list_bind]. by rewrite app_nil_r. }
  { intros k. rewrite contributions_cons_trace.
    change (contributions h []) with (@nil (number * loc)).
    by rewrite app_nil_r, contributions_trace_keys, Habs. }
  exists h', merged. split_and!; try done.
  intros Hexact.
  assert (flightPointsFromTrace h' merged = flightPointsFromTrace h t) as Hfp
    by by apply same_samples_flightPoints.
  split; [done|]. unfold contentHashes. by rewrite Hfp.
Qed.

Lemma contributions_elem (h : heap) (traces : list traceArg) (t : AircraftTrace) (l : loc) :
  ArgTrace t ∈ traces → l ∈ at_trace t →
  (num_add (timeOf h l) (at_timestamp t), l) ∈ contributions h traces.
Proof.
  intros Ht Hl. unfold contributions. apply list_elem_of_bind.
  exists (ArgTrace t). split; [|done].
  apply list_elem_of_fmap. by exists l.
Qed.

Lemma normaliseTimestamps_twice (h : heap) (t : AircraftTrace) (l : loc) :
  NoDup (at_trace t) → l ∈ at_trace t →
  timeOf (foldl mergeTrace (h, []) [ArgTrace t; ArgTrace t]).1 l
  = num_add (num_add (timeOf h l) (at_timestamp t)) (at_timestamp t).
Proof.
  intros Hnd Hl. cbn [foldl mergeTrace fst snd].
  rewrite !timeOf_normaliseTimestamps by done. by rewrite !decide_True.
Qed.

(** C10 (as amended): a merge of traces that share no sample array writes
    into the sample arrays of its inputs.  When its loop ends every input
    sample holds its absolute timestamp (its offset plus the base of its
    trace); when the call returns, a sample that is part of the result holds
    that timestamp less the base of the result, and any other input sample
    still holds its absolute timestamp; nothing but the time of a sample
    changes, and no other sample array is touched.  A trace passed as two
    arguments has its base added twice. *)
Theorem mergeAllTraces_mutates_inputs (h : heap) (referenceTrace : AircraftTrace)
    (rest : list traceArg) :
  let traces := ArgTrace referenceTrace :: rest in
  NoDup (inputObjects traces) →
  ∃ h' merged,
    mergeAllTraces h traces = Return (h', merged)
    ∧ (∀ t l, ArgTrace t ∈ traces → l ∈ at_trace t →
         timeOf (foldl mergeTrace (h, []) traces).1 l
           = num_add (timeOf h l) (at_timestamp t)
         ∧ timeOf h' l
           = if decide (l ∈ at_trace merged)
             then num_sub (num_add (timeOf h l) (at_timestamp t)) (at_timestamp merged)
             else num_add (timeOf h l) (at_timestamp t))
    ∧ (∀ l, payloadOf h' l = payloadOf h l)
    ∧ (∀ l, l ∉ inputObjects traces → h' !! l = h !! l)
    ∧ (∀ l, l ∈ at_trace referenceTrace →
         timeOf (foldl mergeTrace (h, []) [ArgTrace referenceTrace; ArgTrace referenceTrace]).1 l
         = num_add (num_add (timeOf h l) (at_timestamp referenceTrace))
                   (at_timestamp referenceTrace)).
Proof.
  intros traces Hnd.
  destruct (mergeAllTraces_spec h referenceTrace rest Hnd)
    as (h' & merged & Hm & _ & _ & _ & _ & _ & Htime & Hpay & Hframe).
  destruct (mergeLoop_spec traces h [] Hnd) as (_ & Hloop & _).
  exists h', merged. split_and!; try done.
  - intros t l Ht Hl.
    pose proof (contributions_elem h traces t l Ht Hl) as Hin.
    split; [by apply Hloop|by apply Htime].
  - intros l Hl. apply normaliseTimestamps_twice; [|done].
    unfold traces, inputObjects in Hnd. cbn [mbind list_bind] in Hnd.
    apply NoDup_app in Hnd. tauto.
Qed.

(** ** The merge on the example traces *)

Example mergeAllTraces_full_and_recent :
  ∃ h' merged,
    mergeAllTraces exampleStore [ArgTrace fullTrace; ArgTrace recentTrace; ArgNull]
      = Return (h', merged)
    ∧ at_timestamp merged = Num 1648420051
    ∧ at_trace merged = [0; 1; 2; 5]%nat
    ∧ offsetsOf h' merged = [Num 0; Num 5; Num 10; Num 15]
    ∧ offsetsOf h' recentTrace = [Num 1648420056; Num 1648420061; Num 15].
Proof. eexists _, _. split; [reflexivity|]. vm_compute. by repeat split. Qed.

Lemma mergeAllTraces_union_witness :
  ∃ h' merged keys,
    mergeAllTraces exampleStore [ArgTrace fullTrace; ArgTrace recentTrace; ArgNull]
      = Return (h', merged)
    ∧ StronglySorted num_lt keys
    ∧ absoluteTimestamps h' merged = keys.
Proof.
  destruct (mergeAllTraces_union exampleStore fullTrace [ArgTrace recentTrace; ArgNull])
    as (h' & merged & keys & Hm & _ & Hkeys & Hbase & _ & _ & Hsorted & Hdec).
  - apply (bool_decide_unpack _). vm_compute. exact I.
  - exists h', merged, keys. split_and!; [done| |].
    + apply Hsorted, keysInOrder_Forall, (bool_decide_unpack _). vm_compute. exact I.
    + apply Hdec, Forall_forall. intros k Hk. apply Hkeys in Hk.
      assert (mergeAllTraces exampleStore
                [ArgTrace fullTrace; ArgTrace recentTrace; ArgNull]
              = Return (h', merged)) as Hm' by done.
      vm_compute in Hm'. injection Hm' as _ <-. cbn [at_timestamp].
      revert k Hk. apply Forall_forall, (bool_decide_unpack _). vm_compute. exact I.
Defined.

(** C1 fails as stated: a trace object passed twice comes back with every
    sample twice, and a trace whose timestamps do not all have the same
    number of digits comes back in the order of the digit strings; neither
    result decodes to an increasing sequence. *)
Lemma mergeAllTraces_not_increasing :
  (decodedTimestamps (mergeAllTraces copyStore [ArgTrace originalTrace; ArgTrace originalTrace])
     = Some [Num 1648420051; Num 1648420056; Num 1648420051; Num 1648420056]
   ∧ ¬ StronglySorted num_lt
         [Num 1648420051; Num 1648420056; Num 1648420051; Num 1648420056])
  ∧ (decodedTimestamps (mergeAllTraces rolloverStore [ArgTrace rolloverTrace])
       = Some [Num 1000000005; Num 999999995]
     ∧ ¬ StronglySorted num_lt [Num 1000000005; Num 999999995]).
Proof.
  split; (split; [vm_compute; reflexivity|]).
  - intros Hs. apply StronglySorted_inv in Hs as [_ Hall].
    apply Forall_cons in Hall as [_ Hall]. apply Forall_cons in Hall as [Hlt _].
    simpl in Hlt. lia.
  - intros Hs. apply StronglySorted_inv in Hs as [_ Hall].
    apply Forall_cons in Hall as [Hlt _]. simpl in Hlt. lia.
Qed.

Lemma mergeAllTraces_copy_idempotent_witness :
  ∃ h' merged,
    mergeAllTraces copyStore [ArgTrace originalTrace; ArgTrace copiedTrace] = Return (h', merged)
    ∧ at_trace merged = at_trace originalTrace
    ∧ contentHashes (H := plainHost) pol35 h' merged
      = contentHashes (H := plainHost) pol35 copyStore originalTrace.
Proof.
  destruct (mergeAllTraces_copy_idempotent (H := plainHost) pol35 copyStore
              originalTrace copiedTrace)
    as (h' & merged & Hm & Htrace & Hbase & _ & _ & Hexact).
  - split_and!.
    + reflexivity.
    + repeat constructor.
    + apply (bool_decide_unpack _). vm_compute. exact I.
  - change (absoluteTimestamps copyStore originalTrace)
      with [Num 1648420051; Num 1648420056].
    repeat constructor. vm_compute. by intros [].
  - exists h', merged. split_and!; [done|done|]. apply Hexact.
    rewrite Hbase. apply (bool_decide_unpack _). vm_compute. exact I.
Defined.

(** C2 fails as stated: merging a trace object with itself returns every
    sample twice, so twice as many content hashes as the original has;
    merging a trace that holds two samples for one second with a copy of it
    returns one of the two, so fewer hashes than the original has; and
    merging a trace whose timestamps are not in the order of their strings
    with a copy of it returns the samples in another order, so the hashes
    of the original in another order. *)
Lemma mergeAllTraces_self_not_idempotent :
  (∃ h' merged,
     mergeAllTraces copyStore [ArgTrace originalTrace; ArgTrace originalTrace]
       = Return (h', merged)
     ∧ at_trace merged = [0; 1; 0; 1]%nat
     ∧ List.length (contentHashes (H := stubHost) pol35 h' merged) = 4%nat
     ∧ List.length (contentHashes (H := stubHost) pol35 copyStore originalTrace) = 2%nat
     ∧ contentHashes (H := stubHost) pol35 h' merged
       ≠ contentHashes (H := stubHost) pol35 copyStore originalTrace)
  ∧ (∃ h' merged,
       mergeAllTraces repeatStore [ArgTrace repeatTrace; ArgTrace repeatCopy]
         = Return (h', merged)
       ∧ at_trace merged = [0]%nat
       ∧ contentHashes (H := stubHost) pol35 h' merged
         ≠ contentHashes (H := stubHost) pol35 repeatStore repeatTrace)
  ∧ (∃ h' merged,
       mergeAllTraces rolloverCopyStore [ArgTrace rolloverTrace; ArgTrace rolloverCopy]
         = Return (h', merged)
       ∧ at_trace merged = [1; 0]%nat
       ∧ contentHashes (H := plainHost) pol35 h' merged
         ≠ contentHashes (H := plainHost) pol35 rolloverCopyStore rolloverTrace).
Proof.
  split_and!.
  - eexists _, _. split; [reflexivity|]. split_and!; try (vm_compute; reflexivity).
    intros Heq. apply (f_equal List.length) in Heq. vm_compute in Heq. discriminate.
  - eexists _, _. split; [reflexivity|]. split; [vm_compute; reflexivity|].
    intros Heq. apply (f_equal List.length) in Heq. vm_compute in Heq. discriminate.
  - eexists _, _. split; [reflexivity|]. split; [vm_compute; reflexivity|].
    intros Heq. vm_compute in Heq. discriminate.
Qed.

(** Whatever the digest is, a trace merged with itself has twice the
    hashes. *)
Lemma mergeAllTraces_self_doubles `{Host} :
  ∃ h' merged,
    mergeAllTraces copyStore [ArgTrace originalTrace; ArgTrace originalTrace]
      = Return (h', merged)
    ∧ List.length (contentHashes pol35 h' merged) = 4%nat
    ∧ List.length (contentHashes pol35 copyStore originalTrace) = 2%nat.
Proof. eexists _, _. split; [reflexivity|]. split; reflexivity. Qed.

Lemma mergeAllTraces_mutates_inputs_witness :
  ∃ h' merged,
    mergeAllTraces exampleStore [ArgTrace fullTrace; ArgTrace recentTrace; ArgNull]
      = Return (h', merged)
    ∧ ∀ l, payloadOf h' l = payloadOf exampleStore l.
Proof.
  destruct (mergeAllTraces_mutates_inputs exampleStore fullTrace [ArgTrace recentTrace; ArgNull])
    as (h' & merged & Hm & _ & Hpay & _).
  - apply (bool_decide_unpack _). vm_compute. exact I.
  - exists h', merged. by split.
Defined.

(** C10 fails as stated: a trace whose first sample is at offset 0, merged
    alone, holds its original offsets again when the call returns, although
    the loop had overwritten them with absolute timestamps. *)
Lemma mergeAllTraces_offsets_restored :
  offsetsOf copyStore originalTrace = [Num 0; Num 5]
  ∧ offsetsOf (foldl mergeTrace (copyStore, []) [ArgTrace originalTrace; ArgNull]).1
      originalTrace = [Num 1648420051; Num 1648420056]
  ∧ offsetsAfter (mergeAllTraces copyStore [ArgTrace originalTrace; ArgNull]) originalTrace
    = Some [Num 0; Num 5].
Proof. vm_compute. by repeat split. Qed.

(** ** Receipts *)

Lemma receiptMatches_markSynchronised (r : FlightPointReceipt) (fm : FlightPointModel) :
  receiptMatches r (markSynchronised fm) = receiptMatches r fm.
Proof. reflexivity. Qed.

Lemma markSynchronised_idemp (fm : FlightPointModel) :
  markSynchronised (markSynchronised fm) = markSynchronised fm.
Proof. reflexivity. Qed.

Lemma foldl_acknowledge (receipts : list FlightPointReceipt) (tbl : table) :
  foldl acknowledge tbl receipts = acknowledged receipts <$> tbl.
Proof.
  revert tbl. induction receipts as [|r receipts IH]; intros tbl; simpl.
  - unfold acknowledged. simpl. by rewrite list_fmap_id.
  - rewrite IH. unfold acknowledge. rewrite <-list_fmap_compose.
    apply list_fmap_ext. intros i fm _. unfold acknowledged. simpl.
    destruct (receiptMatches r fm) eqn:Hr; simpl; [|done].
    change (existsb (λ r0, receiptMatches r0 (markSynchronised fm)) receipts)
      with (existsb (λ r0, receiptMatches r0 fm) receipts).
    by destruct (existsb _ receipts).
Qed.

Lemma acknowledged_idemp (receipts : list FlightPointReceipt) (fm : FlightPointModel) :
  acknowledged receipts (acknowledged receipts fm) = acknowledged receipts fm.
Proof.
  unfold acknowledged.
  destruct (existsb (λ r, receiptMatches r fm) receipts) eqn:He; [|by rewrite He].
  change (existsb (λ r0, receiptMatches r0 (markSynchronised fm)) receipts)
    with (existsb (λ r0, receiptMatches r0 fm) receipts).
  by rewrite He.
Qed.

Lemma acknowledged_unknown (receipts : list FlightPointReceipt) (fm : FlightPointModel) :
  (∀ r, r ∈ receipts → receiptMatches r fm = false) → acknowledged receipts fm = fm.
Proof.
  intros Hno. unfold acknowledged.
  destruct (existsb _ receipts) eqn:He; [|done].
  apply existsb_exists in He as (r & Hin & Hm).
  apply list_elem_of_In in Hin. by rewrite Hno in Hm.
Qed.

(** The updates of one call settle in any order with the same table. *)
Lemma foldl_acknowledge_order (receipts receipts' : list FlightPointReceipt) (tbl : table) :
  receipts ≡ₚ receipts' →
  foldl acknowledge tbl receipts = foldl acknowledge tbl receipts'.
Proof.
  intros Hperm. rewrite !foldl_acknowledge. apply list_fmap_ext. intros i fm _.
  unfold acknowledged.
  assert (existsb (λ r, receiptMatches r fm) receipts
          = existsb (λ r, receiptMatches r fm) receipts') as ->; [|done].
  apply eq_true_iff_eq. rewrite !existsb_exists.
  split; intros (r & Hin & Hm); exists r; split; try done;
    apply list_elem_of_In; apply list_elem_of_In in Hin;
    [by rewrite <-Hperm|by rewrite Hperm].
Qed.

(** C3: [updateFlightPointReceipts] never throws and hands its argument
    back; afterwards a stored point is synchronised exactly when it was so
    before or some receipt carries its (AircraftIcao, flightPointHash) pair,
    and nothing else about any row changes; receipts that match no stored
    point leave the table as it was; and applying the same receipts to the
    resulting table changes nothing. *)
Theorem updateFlightPointReceipts_acknowledges (tbl : table)
    (receipts : list FlightPointReceipt) :
  ∃ tbl',
    updateFlightPointReceipts tbl receipts = Return (tbl', receipts)
    ∧ List.length tbl' = List.length tbl
    ∧ (∀ i fm, tbl !! i = Some fm →
         ∃ fm', tbl' !! i = Some fm'
           ∧ (fm_synchronised fm' = true ↔
                fm_synchronised fm = true
                ∨ ∃ r, r ∈ receipts
                    ∧ fm_AircraftIcao fm = Some (rc_AircraftIcao r)
                    ∧ fm_flightPointHash fm = Some (rc_flightPointHash r))
           ∧ markSynchronised fm' = markSynchronised fm)
    ∧ ((∀ r fm, r ∈ receipts → fm ∈ tbl → receiptMatches r fm = false) → tbl' = tbl)
    ∧ updateFlightPointReceipts tbl' receipts = Return (tbl', receipts).
Proof.
  exists (acknowledged receipts <$> tbl).
  unfold updateFlightPointReceipts. rewrite !foldl_acknowledge.
  split_and!.
  - done.
  - by rewrite length_fmap.
  - intros i fm Hi. exists (acknowledged receipts fm).
    rewrite list_lookup_fmap, Hi. split_and!; [done| |].
    + unfold acknowledged.
      destruct (existsb (λ r, receiptMatches r fm) receipts) eqn:He.
      * apply existsb_exists in He as (r & Hin & Hm).
        apply list_elem_of_In in Hin. apply bool_decide_eq_true in Hm.
        split; [|done]. intros _. right. exists r. tauto.
      * split; [tauto|]. intros [?|(r & Hin & Hm1 & Hm2)]; [done|].
        assert (existsb (λ r, receiptMatches r fm) receipts = true) as He'; [|congruence].
        apply existsb_exists. exists r. split; [by apply list_elem_of_In|].
        by apply bool_decide_eq_true.
    + unfold acknowledged. by destruct (existsb _ receipts).
  - intros Hno. rewrite <-(list_fmap_id tbl) at 2.
    apply list_fmap_ext. intros i fm Hi. apply acknowledged_unknown.
    intros r Hr. eapply Hno; [done|]. by eapply list_elem_of_lookup_2.
  - rewrite <-list_fmap_compose. f_equal. f_equal.
    apply list_fmap_ext. intros i fm _. apply acknowledged_idemp.
Qed.

(** ** Content hashes *)

Lemma foldl_save_rows (identified : list FlightPointModel) (tbl : table) (fm : FlightPointModel) :
  fm ∈ foldl save tbl identified → fm ∈ tbl ∨ fm ∈ identified.
Proof.
  revert tbl. induction identified as [|x identified IH]; intros tbl; simpl.
  - by left.
  - intros Hin. apply IH in Hin as [Hin|Hin]; [|right; by constructor].
    unfold save in Hin. destruct (fm_flightPointHash x); [|by left].
    case_bool_decide; [by left|].
    apply elem_of_app in Hin as [Hin|Hin]; [by left|].
    apply list_elem_of_singleton in Hin as ->. right. constructor.
Qed.

(** C6: every model that [saveToAircraft] identifies for an aircraft carries
    the aircraft's ICAO and the digest, of 16 bytes (32 hexadecimal
    characters), of the concatenation of the ICAO, the timestamp, the
    latitude followed by the longitude (or "0" when either is null) and the
    altitude (or "na" when it is null); the rows the call adds to the table
    are among these models; and two points that agree on timestamp,
    position and altitude get the same hash for the same aircraft, whatever
    else they carry. *)
Theorem saveToAircraft_content_hash `{Host} (flightPoints : list FlightPoint)
    (tbl : table) (aircraft : Aircraft) :
  (∀ data, String.length (blake2bHex 16 data) = 32%nat) →
  let saved := saveToAircraft (buildFlightPointsModels flightPoints) tbl aircraft in
  Forall2 (λ fp fm,
      ∃ hash, fm_flightPointHash fm = Some hash
        ∧ hash = blake2bHex 16
            (ac_icao aircraft +:+ toString (fp_timestamp fp)
             +:+ match fp_latitude fp, fp_longitude fp with
                 | Some lat, Some lon => toString lat +:+ toString lon
                 | _, _ => "0"
                 end
             +:+ match fp_altitude fp with
                 | Some alt => toString alt
                 | None => "na"
                 end)
        ∧ String.length hash = 32%nat
        ∧ fm_AircraftIcao fm = Some (ac_icao aircraft))
    flightPoints saved.1
  ∧ (∀ fm, fm ∈ saved.2 → fm ∈ tbl ∨ fm ∈ saved.1)
  ∧ ∀ fp1 fp2,
      fp_timestamp fp1 = fp_timestamp fp2 →
      fp_latitude fp1 = fp_latitude fp2 →
      fp_longitude fp1 = fp_longitude fp2 →
      fp_altitude fp1 = fp_altitude fp2 →
      fm_flightPointHash (identify aircraft (newFlightPointModel fp1))
      = fm_flightPointHash (identify aircraft (newFlightPointModel fp2)).
Proof.
  intros Hwidth saved. split_and!.
  - subst saved. unfold saveToAircraft, buildFlightPointsModels. simpl.
    rewrite <-list_fmap_compose. apply Forall2_fmap_r, Forall_Forall2_diag.
    apply Forall_forall. intros fp _. eexists. split_and!; [reflexivity|..].
    + reflexivity.
    + apply Hwidth.
    + reflexivity.
  - intros fm Hin. subst saved. unfold saveToAircraft in *. simpl in *.
    by apply foldl_save_rows.
  - intros fp1 fp2 Ht Hlat Hlon Halt. simpl. by rewrite Ht, Hlat, Hlon, Halt.
Qed.

Lemma saveToAircraft_content_hash_witness :
  Forall2 (λ fp fm, ∃ hash, fm_flightPointHash fm = Some hash ∧ String.length hash = 32%nat)
    [flightPointFromTraceObject (H := stubHost) (Num 1648420051)
       (mkTraceObject (Num 0) (JNum (Num (-37))) (JNum (Num 145)) (JNum (Num 2125))
          JNull JNull JNull JNull)]
    (saveToAircraft (H := stubHost)
       (buildFlightPointsModels (H := stubHost)
          [flightPointFromTraceObject (H := stubHost) (Num 1648420051)
             (mkTraceObject (Num 0) (JNum (Num (-37))) (JNum (Num 145)) (JNum (Num 2125))
                JNull JNull JNull JNull)])
       [] (mkAircraft "7c4ee8" JNull true)).1.
Proof.
  pose proof (saveToAircraft_content_hash (H := stubHost)
    [flightPointFromTraceObject (H := stubHost) (Num 1648420051)
       (mkTraceObject (Num 0) (JNum (Num (-37))) (JNum (Num 145)) (JNum (Num 2125))
          JNull JNull JNull JNull)]
    [] (mkAircraft "7c4ee8" JNull true) (λ _, eq_refl)) as [Hall _].
  eapply Forall2_impl; [exact Hall|].
  intros fp fm (hash & ? & ? & ? & ?). eauto.
Defined.

(** The hash input of a point with a position and of one without. *)
Example hashInput_with_position :
  hashInput "7c4ee8" (Num 1648420051) (Some (Num (-37))) (Some (Num 145)) (Some (Num 2125))
  = "7c4ee81648420051-371452125".
Proof. vm_compute. reflexivity. Qed.

Example hashInput_without_position :
  hashInput "7c4ee8" (Num 1648420051) None (Some (Num 145)) None = "7c4ee816484200510na".
Proof. vm_compute. reflexivity. Qed.

(** ** The normalizer *)

(** Altitude, vertical rate, ground speed and track of a historical sample:
    [null] stays [null], and the ground sentinel is altitude 0 on the
    ground. *)
Lemma flightPointFromTraceObject_absent_fields `{Host} (ts t : number)
    (lat lon src : jsval) :
  let fp := flightPointFromTraceObject ts
              (mkTraceObject t lat lon JNull JNull JNull JNull src) in
  fp_altitude fp = None ∧ fp_verticalRate fp = None ∧ fp_groundSpeed fp = JNull
  ∧ fp_rotation fp = JNull ∧ fp_isOnGround fp = false
  ∧ fp_isAscending fp = false ∧ fp_isDescending fp = false.
Proof. by repeat split. Qed.

Lemma flightPointFromTraceObject_ground `{Host} (ts t : number)
    (lat lon gs track rate src : jsval) :
  let fp := flightPointFromTraceObject ts
              (mkTraceObject t lat lon (JStr "ground") gs track rate src) in
  fp_altitude fp = Some (Num 0) ∧ fp_isOnGround fp = true.
Proof. by repeat split. Qed.

Lemma flightPointFromBinary_absent_fields `{Host} (updateAt : number)
    (hex r t flight : string) (lat lon type : jsval) :
  let fp := flightPointFromBinary updateAt
              (mkBinaryAircraftObject hex r t flight lat lon
                 JUndefined JUndefined JUndefined JUndefined type) in
  fp_altitude fp = None ∧ fp_verticalRate fp = None ∧ fp_groundSpeed fp = JNull
  ∧ fp_rotation fp = JNull ∧ fp_isOnGround fp = false.
Proof. by repeat split. Qed.

(** C5: a historical sample whose latitude and longitude are [null], and a
    binary record without [lat] and [lon], give a flight point whose
    latitude and longitude are [NaN], not [null], while the rest of the
    point is kept; a point normalised this way is hashed with the position
    string "NaNNaN" and not "0". *)
Theorem flightPoint_absent_position_is_NaN `{Host} (ts t : number)
    (alt gs track rate src : jsval) (hex r ty flight : string) (type : jsval) :
  let fromTrace := flightPointFromTraceObject ts
                     (mkTraceObject t JNull JNull alt gs track rate src) in
  let fromBinary := flightPointFromBinary ts
                      (mkBinaryAircraftObject hex r ty flight JUndefined JUndefined
                         alt rate gs track type) in
  fp_latitude fromTrace = Some NaN ∧ fp_longitude fromTrace = Some NaN
  ∧ fp_latitude fromBinary = Some NaN ∧ fp_longitude fromBinary = Some NaN
  ∧ fp_groundSpeed fromTrace = gs ∧ fp_rotation fromTrace = track
  ∧ positionForHash (fp_latitude fromTrace) (fp_longitude fromTrace) = "NaNNaN"
  ∧ positionForHash (fp_latitude fromBinary) (fp_longitude fromBinary) = "NaNNaN".
Proof. by repeat split. Qed.

(** ** Missed updates *)

Lemma conf_has_no_missed_updates_threshold :
  conf !! "NUM_MISSED_UPDATES_AIRCRAFT_LANDED" = None.
Proof. vm_compute. reflexivity. Qed.

Lemma confNumber_missed_updates_threshold :
  confNumber "NUM_MISSED_UPDATES_AIRCRAFT_LANDED" = NaN.
Proof. unfold confNumber. by rewrite conf_has_no_missed_updates_threshold. Qed.

(** Each call counts one more missed update, whatever the threshold. *)
Lemma missingUpdateAgainst_counts (threshold : number) (ta : TrackedAircraft)
    (aircraftModel : Aircraft) :
  let ta' := missingUpdateAgainst threshold ta aircraftModel in
  ta_missedUpdates ta' !! ac_icao aircraftModel
    = Some (num_add (missedSoFar ta (ac_icao aircraftModel)) (Num 1))
  ∨ (ta_missedUpdates ta' !! ac_icao aircraftModel = None
     ∧ ta_aircraft ta' !! ac_icao aircraftModel = None).
Proof.
  simpl. unfold missingUpdateAgainst. simpl. rewrite lookup_insert_eq. simpl.
  destruct (num_geb _ threshold); simpl.
  - right. by rewrite !lookup_delete_eq.
  - left. by rewrite lookup_insert_eq.
Qed.

(** With a number for a threshold, the call that brings the counter to the
    threshold or beyond removes the aircraft. *)
Lemma missingUpdateAgainst_removes (n c : Z) (ta : TrackedAircraft)
    (aircraftModel : Aircraft) :
  missedSoFar ta (ac_icao aircraftModel) = Num c →
  n <= c + 1 →
  ta_aircraft (missingUpdateAgainst (Num n) ta aircraftModel) !! ac_icao aircraftModel
    = None.
Proof.
  intros Hc Hn. unfold missingUpdateAgainst. simpl.
  rewrite lookup_insert_eq, Hc. simpl.
  rewrite (bool_decide_eq_true_2 (n <= c + 1)) by lia. simpl.
  apply lookup_delete_eq.
Qed.

(** [missingUpdate] counts one more missed update for the aircraft at every
    call, but it never removes an aircraft: [conf.js] exports no
    [NUM_MISSED_UPDATES_AIRCRAFT_LANDED], the counter is compared with
    [undefined], and the table of tracked aircraft is left as it was
    however large the counter is. *)
Lemma missingUpdate_never_removes (ta : TrackedAircraft) (aircraftModel : Aircraft) :
  let ta' := missingUpdate ta aircraftModel in
  ta_missedUpdates ta' !! ac_icao aircraftModel
    = Some (num_add (missedSoFar ta (ac_icao aircraftModel)) (Num 1))
  ∧ ta_aircraft ta' = ta_aircraft ta
  ∧ ta_savedUpdates ta' = ta_savedUpdates ta
  ∧ ∀ icao, isVehicleTracked ta' icao = isVehicleTracked ta icao.
Proof.
  simpl. unfold missingUpdate, missingUpdateAgainst.
  rewrite confNumber_missed_updates_threshold. simpl.
  rewrite lookup_insert_eq. simpl.
  replace (num_geb (num_add (missedSoFar ta (ac_icao aircraftModel)) (Num 1)) NaN)
    with false by (by destruct (num_add _ _)).
  simpl. by rewrite lookup_insert_eq.
Qed.

(** A tracked aircraft for which [missingUpdate] is called a thousand times
    in a row is still tracked, with a counter of 1000. *)
Example missingUpdate_thousand_times :
  let pol35 := mkAircraft "7c4ee8" (JStr "POL35") true in
  let ta := add (mkTrackedAircraft ∅ ∅ ∅) pol35 in
  let ta' := Nat.iter 1000 (λ ta, missingUpdate ta pol35) ta in
  isVehicleTracked ta' "7c4ee8" = true
  ∧ ta_missedUpdates ta' !! "7c4ee8" = Some (Num 1000).
Proof. vm_compute. split; reflexivity. Qed.

(** ** An aircraft that a binary update does not hold *)

(** C9 (as amended): a scan cycle in which a tracked aircraft is absent
    from the binary update changes no module variable: the missed-update
    counters and the table of tracked aircraft are as before, so the
    aircraft stays tracked.  What the cycle does is time the aircraft out:
    an aircraft that is active and whose last binary update is unset, or
    more than [conf.AIRCRAFT_TIMEOUT], 60 seconds, before the time of the
    report, is made inactive (in slave mode once the report to the master
    is answered, whatever the determination); any other aircraft is left as
    it is.  The only code that counts missed updates,
    [trackedAircraft.missingUpdate], leaves the table of tracked aircraft as
    it is for every counter. *)
Theorem absentFromUpdate_times_out (st : Tracker) (report : completion jsval)
    (timeOfReport : number) (aircraft : Activity) :
  let after := absentFromUpdate st report timeOfReport aircraft in
  let answered :=
    negb (tr_isSlaveMode st)
    || match report with Return _ => true | Throw _ => false end in
  after.1 = st
  ∧ ta_missedUpdates (tr_trackedAircraft after.1) = ta_missedUpdates (tr_trackedAircraft st)
  ∧ (∀ icao, isVehicleTracked (tr_trackedAircraft after.1) icao
             = isVehicleTracked (tr_trackedAircraft st) icao)
  ∧ act_lastBinaryUpdate after.2 = act_lastBinaryUpdate aircraft
  ∧ act_isActiveNow after.2
    = act_isActiveNow aircraft
      && negb (isTimeout timeOfReport (act_lastBinaryUpdate aircraft) && answered)
  ∧ (∀ t, isTimeout (Num t) None = true
          ∧ ∀ last, last ≠ 0 →
              (isTimeout (Num t) (Some (Num last)) = true ↔ 60 < t - last))
  ∧ (∀ ta aircraftModel, ta_aircraft (missingUpdate ta aircraftModel) = ta_aircraft ta).
Proof.
  cbv zeta. unfold absentFromUpdate, handleAircraftTimeout.
  split_and!.
  - destruct (act_isActiveNow aircraft && isTimeout _ _); [|done].
    destruct (tr_isSlaveMode st); [|done].
    destruct report as [determination|err]; [|done]. by case_bool_decide.
  - destruct (act_isActiveNow aircraft && isTimeout _ _); [|done].
    destruct (tr_isSlaveMode st); [|done].
    destruct report as [determination|err]; [|done]. by case_bool_decide.
  - intros icao. destruct (act_isActiveNow aircraft && isTimeout _ _); [|done].
    destruct (tr_isSlaveMode st); [|done].
    destruct report as [determination|err]; [|done]. by case_bool_decide.
  - destruct (act_isActiveNow aircraft && isTimeout _ _); [|done].
    destruct (tr_isSlaveMode st); [|done].
    destruct report as [determination|err]; [|done]. by case_bool_decide.
  - destruct (act_isActiveNow aircraft) eqn:Hactive,
             (isTimeout timeOfReport (act_lastBinaryUpdate aircraft)); simpl;
      try by rewrite ?Hactive.
    destruct (tr_isSlaveMode st); simpl; [|done].
    destruct report as [determination|err]; simpl; [|by rewrite Hactive].
    by case_bool_decide.
  - intros t. split; [done|]. intros last Hlast. unfold isTimeout. simpl.
    rewrite bool_decide_eq_true_2 by done. simpl.
    change (confNumber "AIRCRAFT_TIMEOUT") with (Num 60). simpl.
    apply bool_decide_eq_true.
  - intros ta aircraftModel. apply missingUpdate_never_removes.
Qed.

(** C9 fails as stated: a tracked aircraft that is absent from a binary
    update has no missed update counted, where the claim has a counter of
    one; after a thousand such cycles there is still no counter and the
    aircraft is still tracked: it has only been made inactive. *)
Lemma absentFromUpdate_counts_nothing :
  let st := mkTracker (add (mkTrackedAircraft ∅ ∅ ∅) pol35) false false None in
  let aircraft := mkActivity true (Some (Num 1648420051)) in
  let cycle (s : Tracker * Activity) :=
    absentFromUpdate s.1 (Return (JStr "landing")) (Num 1648420200) s.2 in
  isVehicleTracked (tr_trackedAircraft st) "7c4ee8" = true
  ∧ ta_missedUpdates (tr_trackedAircraft (cycle (st, aircraft)).1) !! "7c4ee8" = None
  ∧ ta_missedUpdates (tr_trackedAircraft (cycle (st, aircraft)).1) !! "7c4ee8"
    ≠ Some (Num 1)
  ∧ ta_missedUpdates (tr_trackedAircraft (Nat.iter 1000 cycle (st, aircraft)).1)
      !! "7c4ee8" = None
  ∧ isVehicleTracked (tr_trackedAircraft (Nat.iter 1000 cycle (st, aircraft)).1) "7c4ee8"
    = true
  ∧ act_isActiveNow (Nat.iter 1000 cycle (st, aircraft)).2 = false.
Proof. vm_compute. by split_and!. Qed.

(** ** Decoding a binary update *)




(** The [else] branch of the first [catch]: an exception of the
    decompressor that is not a [ZSTDDecompressionFailed] is thrown again. *)
Lemma decodeBinaryUpdate_passes_on (zstdDecode : buffer → completion buffer)
    (wqiDecode : buffer → completion DecodedBinaryUpdate) (buf : buffer) (e : thrown) :
  zstdDecode buf = Throw e →
  (∀ code reason, e ≠ ZSTDDecompressionFailed code reason) →
  decodeBinaryUpdate zstdDecode wqiDecode buf = Throw e.
Proof.
  intros Hz Hne. unfold decodeBinaryUpdate, decompressOrRaw. rewrite Hz.
  destruct e; try done. exfalso. by apply (Hne error_code reason).
Qed.

(** ** Segmentation *)

Module FlightSegmenterFacts.
Import FlightSegmenter.

Lemma scan_points (rule : FlightPoint → FlightPoint → option boundary)
    (rest : list FlightPoint) (startEdge : edge) (current : list FlightPoint)
    (prev : FlightPoint) :
  List.concat (points <$> scan rule startEdge current prev rest) = current ++ prev :: rest.
Proof.
  revert startEdge current prev.
  induction rest as [|q rest IH]; intros startEdge current prev; simpl.
  - by rewrite app_nil_r.
  - destruct (rule prev q) as [b|].
    + simpl. rewrite IH. simpl. by rewrite <-app_assoc.
    + rewrite IH. by rewrite <-app_assoc.
Qed.

Lemma scan_nonempty (rule : FlightPoint → FlightPoint → option boundary)
    (rest : list FlightPoint) (startEdge : edge) (current : list FlightPoint)
    (prev : FlightPoint) :
  Forall (λ partial, points partial ≠ []) (scan rule startEdge current prev rest).
Proof.
  revert startEdge current prev.
  induction rest as [|q rest IH]; intros startEdge current prev; simpl.
  - constructor; [|constructor]. simpl. by destruct current.
  - destruct (rule prev q) as [b|]; [|apply IH].
    constructor; [|apply IH]. simpl. by destruct current.
Qed.

(** C8: whatever rule decides the boundaries, and so with the rule of §4.4
    under any thresholds, the point sequences of the partials, concatenated
    in the order the partials are emitted, are the input sequence itself,
    and no partial is empty: each input point lies in exactly one partial,
    at its original place. *)
Theorem segment_partitions_input (trace : list FlightPoint) :
  (∀ rule,
     List.concat (points <$> segmentWith rule trace) = trace
     ∧ Forall (λ partial, points partial ≠ []) (segmentWith rule trace))
  ∧ ∀ th,
     List.concat (points <$> segment th trace) = trace
     ∧ Forall (λ partial, points partial ≠ []) (segment th trace).
Proof.
  assert (∀ rule,
     List.concat (points <$> segmentWith rule trace) = trace
     ∧ Forall (λ partial, points partial ≠ []) (segmentWith rule trace)) as Hall.
  { intros rule. destruct trace as [|p rest]; simpl.
    - split; [done|constructor].
    - split; [apply scan_points|apply scan_nonempty]. }
  split; [exact Hall|]. intros th. apply Hall.
Qed.

(** The flags of every partial satisfy the definition of a complete flight,
    and each boundary is either verified or an artifact, never both. *)
Lemma mkPartial_flags (startEdge endEdge : edge) (pts : list FlightPoint) :
  let partial := mkPartial startEdge pts endEdge in
  isCompleteFlight partial
    = startedWithTakeoff partial && endedWithLanding partial
      && negb (incompletePast partial) && negb (incompleteFuture partial)
  ∧ incompletePast partial = negb (startedWithTakeoff partial)
  ∧ incompleteFuture partial = negb (endedWithLanding partial).
Proof. by repeat split. Qed.

End FlightSegmenterFacts.

(** * Further properties *)

(** ** Normalising and rebasing *)

(** X1: [normaliseTimestamps] and [relativeTimestamps] write the time of a
    sample and nothing else; and for a trace that lists no sample array
    twice, [relativeTimestamps] undoes [normaliseTimestamps], so that the
    store comes back as it was, where subtracting the base from an offset
    plus the base gives the offset again for every sample of the trace. *)
Theorem relativeTimestamps_normaliseTimestamps (h : heap) (aircraftTrace : AircraftTrace) :
  NoDup (at_trace aircraftTrace) →
  (∀ l, payloadOf (normaliseTimestamps h aircraftTrace) l = payloadOf h l
        ∧ payloadOf (relativeTimestamps h aircraftTrace) l = payloadOf h l)
  ∧ ((∀ l o, l ∈ at_trace aircraftTrace → h !! l = Some o →
        num_sub (num_add (to_time o) (at_timestamp aircraftTrace))
                (at_timestamp aircraftTrace) = to_time o) →
     relativeTimestamps (normaliseTimestamps h aircraftTrace) aircraftTrace = h).
Proof.
  intros Hnd. split.
  - intros l. split; [apply payloadOf_normaliseTimestamps|apply payloadOf_relativeTimestamps].
  - intros Hexact. apply map_eq. intros l.
    unfold relativeTimestamps, normaliseTimestamps.
    rewrite !forEachObject_lookup by done.
    destruct (decide (l ∈ at_trace aircraftTrace)) as [Hl|Hl]; [|done].
    destruct (h !! l) as [o|] eqn:Ho; [|done]. simpl. f_equal.
    pose proof (Hexact l o Hl Ho) as Heq.
    destruct o. unfold subFromTime, addToTime, set_time in *. simpl in *. by rewrite Heq.
Qed.

Lemma relativeTimestamps_normaliseTimestamps_witness :
  relativeTimestamps (normaliseTimestamps exampleStore fullTrace) fullTrace = exampleStore
  ∧ offsetsOf (normaliseTimestamps exampleStore fullTrace) fullTrace
    = [Num 1648420051; Num 1648420056; Num 1648420061].
Proof.
  split; [|vm_compute; reflexivity].
  apply (relativeTimestamps_normaliseTimestamps exampleStore fullTrace).
  - apply (bool_decide_unpack _). vm_compute. exact I.
  - intros l o Hl Ho.
    change (at_trace fullTrace) with [0; 1; 2]%nat in Hl.
    repeat (apply elem_of_cons in Hl as [->|Hl];
            [vm_compute in Ho; injection Ho as <-; vm_compute; reflexivity|]).
    by apply elem_of_nil in Hl.
Defined.

(** ** Arguments that bring no sample *)

Lemma mergeLoop_skip (st : heap * dict) (before after : list traceArg) (skipped : traceArg) :
  skipped = ArgNull ∨ skipped = ArgUndefined →
  foldl mergeTrace st (before ++ skipped :: after) = foldl mergeTrace st (before ++ after).
Proof. intros [-> | ->]; by rewrite !foldl_app. Qed.

(** X2: a [null] or [undefined] argument after the first makes no
    difference to [mergeAllTraces]: with it and without it the call returns
    the same trace and leaves the same store. *)
Theorem mergeAllTraces_skips_absent (h : heap) (referenceTrace : AircraftTrace)
    (before after : list traceArg) :
  mergeAllTraces h (ArgTrace referenceTrace :: before ++ ArgNull :: after)
  = mergeAllTraces h (ArgTrace referenceTrace :: before ++ after)
  ∧ mergeAllTraces h (ArgTrace referenceTrace :: before ++ ArgUndefined :: after)
    = mergeAllTraces h (ArgTrace referenceTrace :: before ++ after).
Proof.
  rewrite !mergeAllTraces_unfold. cbn [foldl].
  by rewrite !(mergeLoop_skip _ before after) by auto.
Qed.

Lemma mergeLoop_no_samples (traces : list traceArg) (st : heap * dict) :
  inputObjects traces = [] → foldl mergeTrace st traces = st.
Proof.
  revert st. induction traces as [|[| |t] traces IH]; intros st Hnil; cbn [foldl]; try done.
  - by apply IH.
  - by apply IH.
  - unfold inputObjects in Hnil. cbn [mbind list_bind] in Hnil.
    apply app_eq_nil in Hnil as [Ht Hrest].
    rewrite IH by done. unfold mergeTrace, normaliseTimestamps. rewrite Ht.
    by destruct st.
Qed.

(** X3: when no argument of [mergeAllTraces] holds a sample, the call
    returns a trace with no sample whose base timestamp is [NaN], whatever
    the base timestamps of the arguments were, and the store is left as it
    was. *)
Theorem mergeAllTraces_no_samples (h : heap) (referenceTrace : AircraftTrace)
    (rest : list traceArg) :
  inputObjects (ArgTrace referenceTrace :: rest) = [] →
  ∃ merged,
    mergeAllTraces h (ArgTrace referenceTrace :: rest) = Return (h, merged)
    ∧ at_timestamp merged = NaN
    ∧ at_trace merged = []
    ∧ at_icao merged = at_icao referenceTrace.
Proof.
  intros Hnil. rewrite mergeAllTraces_unfold, mergeLoop_no_samples by done.
  eexists. split; [reflexivity|]. done.
Qed.

Lemma mergeAllTraces_no_samples_witness :
  ∃ merged,
    mergeAllTraces exampleStore [ArgTrace (exampleTrace 1648420051 []); ArgNull]
      = Return (exampleStore, merged)
    ∧ at_timestamp merged = NaN
    ∧ at_trace merged = []
    ∧ at_icao merged = JStr "7c4ee8".
Proof.
  apply (mergeAllTraces_no_samples exampleStore (exampleTrace 1648420051 []) [ArgNull]).
  reflexivity.
Defined.

(** ** The merge in the order of the keys *)

(** X4: when the first argument is a trace and no sample array is reachable
    twice from the arguments, the trace returned holds one sample for each
    absolute timestamp of the inputs (each an offset plus the base of its
    trace), in the order of the decimal strings of the timestamps, which is
    not always their numeric order; its base is the first of them in that
    order, and each sample holds its timestamp less that base. *)
Theorem mergeAllTraces_string_order (h : heap) (referenceTrace : AircraftTrace)
    (rest : list traceArg) :
  let traces := ArgTrace referenceTrace :: rest in
  NoDup (inputObjects traces) →
  ∃ h' merged keys,
    mergeAllTraces h traces = Return (h', merged)
    ∧ NoDup keys
    ∧ (∀ k, k ∈ keys ↔ k ∈ (contributions h traces).*1)
    ∧ Sorted key_le keys
    ∧ at_timestamp merged = default NaN (head keys)
    ∧ offsetsOf h' merged = (λ k, num_sub k (at_timestamp merged)) <$> keys.
Proof.
  intros traces Hnd.
  destruct (mergeAllTraces_spec h referenceTrace rest Hnd)
    as (h' & merged & Hm & Hbase & Hperm & Hsorted & Hall & Hndl & Htime & Hpay & _).
  fold traces in Hm, Hbase, Hperm, Hsorted, Hall, Htime.
  set (c := contributions h traces) in *.
  set (keys := sortedKeysOf (foldl setIfAbsent [] c)) in *.
  exists h', merged, keys. split_and!; try done.
  - rewrite Hperm. apply NoDup_remove_dups.
  - intros k. by rewrite Hperm, elem_of_remove_dups.
  - unfold offsetsOf. apply Forall2_fmap_eq.
    eapply Forall2_impl; [apply Forall2_elem_of, Hall|].
    intros k l (Hget & _ & Hl). simpl.
    rewrite (Htime k l) by by apply dict_get_Some_elem.
    by rewrite decide_True.
Qed.

Lemma mergeAllTraces_string_order_witness :
  ∃ h' merged keys,
    mergeAllTraces rolloverStore [ArgTrace rolloverTrace] = Return (h', merged)
    ∧ Sorted key_le keys
    ∧ offsetsOf h' merged = (λ k, num_sub k (at_timestamp merged)) <$> keys
    ∧ at_timestamp merged = Num 1000000005
    ∧ offsetsOf h' merged = [Num 0; Num (-10)].
Proof.
  destruct (mergeAllTraces_string_order rolloverStore rolloverTrace [])
    as (h' & merged & keys & Hm & _ & _ & Hsorted & _ & Hoffsets).
  - apply (bool_decide_unpack _). vm_compute. exact I.
  - exists h', merged, keys. split_and!; [done|done|done|..].
    + assert (mergeAllTraces rolloverStore [ArgTrace rolloverTrace]
              = Return (h', merged)) as Hm' by done.
      vm_compute in Hm'. by injection Hm' as _ <-.
    + assert (mergeAllTraces rolloverStore [ArgTrace rolloverTrace]
              = Return (h', merged)) as Hm' by done.
      vm_compute in Hm'. injection Hm' as <- <-. vm_compute. reflexivity.
Defined.

(** ** Keys with different strings *)

Lemma StronglySorted_distinctKeys (keys : list number) :
  NoDup keys → distinctKeys keys → StronglySorted key_le keys → StronglySorted key_lt keys.
Proof.
  intros Hnd Hdistinct Hs. induction Hs as [|k keys Hs IH Hall]; [constructor|].
  apply NoDup_cons in Hnd as [Hk Hnd]. constructor.
  - apply IH; [done|]. intros a b Ha Hb. apply Hdistinct; by constructor.
  - rewrite Forall_forall in Hall |- *. intros k' Hk' Hle. apply Hk.
    assert (k = k') as -> by
      (apply Hdistinct; [constructor|by constructor|];
       apply (anti_symm strings.String.le); [by apply Hall|done]).
    done.
Qed.

(** The sorted keys do not depend on the order in which they were stored. *)
Lemma sortedKeysOf_unique (d d' : dict) :
  NoDup d'.*1 → distinctKeys d'.*1 → d.*1 ≡ₚ d'.*1 → sortedKeysOf d = sortedKeysOf d'.
Proof.
  intros Hnd Hdistinct Hperm. apply Sorted_key_le_unique.
  - apply StronglySorted_distinctKeys.
    + by rewrite sortedKeysOf_Permutation.
    + intros k k' Hk Hk'. rewrite sortedKeysOf_Permutation in Hk, Hk'. by apply Hdistinct.
    + apply sortedKeysOf_StronglySorted.
  - apply sortedKeysOf_StronglySorted.
  - by rewrite !sortedKeysOf_Permutation.
Qed.

Lemma distinctKeys_Forall (keys : list number) :
  Forall (λ k, Forall (λ k', toString k = toString k' → k = k') keys) keys →
  distinctKeys keys.
Proof.
  intros Hall k k' Hk Hk'. rewrite Forall_forall in Hall.
  pose proof (Hall k Hk) as Hall'. rewrite Forall_forall in Hall'. by apply Hall'.
Qed.

(** ** Merging in steps *)

Lemma inputObjects_app (traces1 traces2 : list traceArg) :
  inputObjects (traces1 ++ traces2) = inputObjects traces1 ++ inputObjects traces2.
Proof. unfold inputObjects. apply bind_app. Qed.

Lemma contributions_app (h : heap) (traces1 traces2 : list traceArg) :
  contributions h (traces1 ++ traces2) = contributions h traces1 ++ contributions h traces2.
Proof. unfold contributions. apply bind_app. Qed.

Lemma dict_value_key (c : dict) (k k' : number) (l : loc) :
  NoDup c.*2 → (k, l) ∈ c → (k', l) ∈ c → k = k'.
Proof.
  induction c as [|[k0 l0] c IH]; intros Hnd Hin Hin'; [by apply elem_of_nil in Hin|].
  cbn [fmap list_fmap] in Hnd. apply NoDup_cons in Hnd as [Hl0 Hnd].
  apply elem_of_cons in Hin as [Heq|Hin]; apply elem_of_cons in Hin' as [Heq'|Hin'].
  - congruence.
  - injection Heq as -> ->. destruct Hl0. apply list_elem_of_fmap. by exists (k', l0).
  - injection Heq' as -> ->. destruct Hl0. apply list_elem_of_fmap. by exists (k, l0).
  - by apply IH.
Qed.

Lemma dict_get_NoDup (d : dict) (k : number) (l : loc) :
  NoDup d.*1 → (k, l) ∈ d → dict_get d k = Some l.
Proof.
  induction d as [|[k0 l0] d IH]; intros Hnd Hin; [by apply elem_of_nil in Hin|].
  cbn [fmap list_fmap] in Hnd. apply NoDup_cons in Hnd as [Hk0 Hnd]. simpl.
  apply elem_of_cons in Hin as [Heq|Hin].
  - injection Heq as -> ->. by rewrite decide_True.
  - rewrite decide_False; [by apply IH|]. intros ->. destruct Hk0.
    apply list_elem_of_fmap. by exists (k, l).
Qed.

Lemma Forall2_fst_snd {A B} (P : A → B → Prop) (z : list (A * B)) :
  Forall2 P z.*1 z.*2 → ∀ a b, (a, b) ∈ z → P a b.
Proof.
  induction z as [|[a0 b0] z IH]; intros Hall a b Hin; [by apply elem_of_nil in Hin|].
  cbn [fmap list_fmap] in Hall. apply Forall2_cons in Hall as [H0 Hall].
  apply elem_of_cons in Hin as [Heq|Hin]; [by injection Heq as -> ->|by apply IH].
Qed.

Lemma timeOf_lookup (h h' : heap) (l : loc) : h' !! l = h !! l → timeOf h' l = timeOf h l.
Proof. unfold timeOf. by intros ->. Qed.

(** X5: merging some traces, and then merging the trace returned with
    further traces, is the same as merging them all in one call: the same
    trace is returned and the same store is left.  This holds when the
    first argument is a trace, no sample array is reachable twice from the
    arguments, adding the base of the first result back to each of its
    timestamps less that base gives the timestamp again, and different
    timestamps have different decimal strings. *)
Theorem mergeAllTraces_in_steps (h : heap) (referenceTrace : AircraftTrace)
    (rest later : list traceArg) :
  let first := ArgTrace referenceTrace :: rest in
  NoDup (inputObjects (first ++ later)) →
  ∃ h1 merged,
    mergeAllTraces h first = Return (h1, merged)
    ∧ (Forall (rebasesExactly (at_timestamp merged)) (contributions h first).*1 →
       distinctKeys (contributions h (first ++ later)).*1 →
         mergeAllTraces h1 (ArgTrace merged :: later) = mergeAllTraces h (first ++ later)).
Proof.
  intros first Hnd.
  rewrite inputObjects_app in Hnd. pose proof Hnd as Hnd3.
  apply NoDup_app in Hnd as (Hnd1 & Hdisj & Hnd2).
  destruct (mergeAllTraces_spec h referenceTrace rest Hnd1)
    as (h1 & merged & Hm & Hbase & Hperm & Hsorted & Hall & Hndl & Htime & Hpay & Hframe).
  fold first in Hm, Hbase, Hperm, Hsorted, Hall, Htime, Hframe.
  set (c1 := contributions h first) in *.
  set (keys1 := sortedKeysOf (foldl setIfAbsent [] c1)) in *.
  exists h1, merged. split; [done|]. intros Hexact Hdistinct.
  rewrite contributions_app in Hdistinct. fold c1 in Hdistinct.
  assert (∀ k, k ∈ keys1 ↔ k ∈ c1.*1) as Hkeys1.
  { intros k. by rewrite Hperm, elem_of_remove_dups. }
  assert (absoluteTimestamps h1 merged = keys1) as Hdec.
  { apply (mergeAllTraces_decodes c1); try done.
    rewrite Forall_forall in Hexact |- *. intros k Hk. by apply Hexact, Hkeys1. }
  assert (NoDup c1.*2) as Hndv by (unfold c1; by rewrite contributions_values).
  (* the samples of the first result are samples of the first arguments *)
  assert (∀ l, l ∈ at_trace merged → l ∈ inputObjects first) as Hsub.
  { intros l Hl. apply list_elem_of_lookup in Hl as [i Hi].
    destruct (Forall2_lookup_r _ _ _ _ _ Hall Hi) as (k & _ & Hget).
    apply dict_get_Some_elem in Hget. rewrite <-(contributions_values h first).
    apply list_elem_of_fmap. by exists (k, l). }
  set (zR := (λ l, (num_add (timeOf h1 l) (at_timestamp merged), l)) <$> at_trace merged).
  assert (zR.*1 = keys1) as HzR1 by (unfold zR; by rewrite contributions_trace_keys).
  assert (zR.*2 = at_trace merged) as HzR2 by apply contributions_trace_values.
  assert (∀ k l, (k, l) ∈ zR → dict_get c1 k = Some l) as HzR.
  { apply (Forall2_fst_snd (λ k l, dict_get c1 k = Some l)). by rewrite HzR1, HzR2. }
  assert (NoDup keys1) as Hndk.
  { rewrite Hperm. apply NoDup_remove_dups. }
  assert (∀ k, dict_get zR k = dict_get c1 k) as Hget.
  { intros k. destruct (decide (k ∈ zR.*1)) as [Hin|Hnin].
    - apply list_elem_of_fmap in Hin as ([k' l] & -> & Hin). simpl.
      rewrite (HzR _ _ Hin). apply dict_get_NoDup; [by rewrite HzR1|done].
    - rewrite (proj2 (dict_get_None zR k)) by done. symmetry.
      apply dict_get_None. rewrite HzR1 in Hnin. by rewrite <-Hkeys1. }
  assert (contributions h1 later = contributions h later) as Hlater.
  { apply contributions_ext. intros l Hl. apply timeOf_lookup, Hframe.
    intros Hl1. by apply (Hdisj l). }
  assert (contributions h1 (ArgTrace merged :: later) = zR ++ contributions h later) as Hc2.
  { by rewrite contributions_cons_trace, Hlater. }
  assert (NoDup (inputObjects (ArgTrace merged :: later))) as Hnd2'.
  { change (inputObjects (ArgTrace merged :: later))
      with (at_trace merged ++ inputObjects later).
    apply NoDup_app. split_and!; [done| |done].
    intros l Hl Hl2. by apply (Hdisj l); [apply Hsub|]. }
  assert (NoDup (inputObjects (first ++ later))) as Hnd3' by by rewrite inputObjects_app.
  destruct (mergeLoop_spec (ArgTrace merged :: later) h1 [] Hnd2') as (Hd2 & Htime2 & Hframe2).
  destruct (mergeLoop_spec (first ++ later) h [] Hnd3') as (Hd3 & Htime3 & Hframe3).
  rewrite Hc2 in Hd2, Htime2. rewrite contributions_app in Hd3, Htime3. fold c1 in Hd3, Htime3.
  change (first ++ later) with (ArgTrace referenceTrace :: (rest ++ later)) in *.
  rewrite !mergeAllTraces_unfold.
  set (st2 := foldl mergeTrace (h1, []) (ArgTrace merged :: later)) in *.
  set (st3 := foldl mergeTrace (h, []) (ArgTrace referenceTrace :: rest ++ later)) in *.
  set (cL := contributions h later) in *.
  assert (∀ k, dict_get st2.2 k = dict_get st3.2 k) as Hgets.
  { intros k. rewrite Hd2, Hd3, !dict_get_foldl_setIfAbsent. simpl.
    by rewrite !dict_get_app, Hget. }
  assert (sortedKeysOf st2.2 = sortedKeysOf st3.2) as Hkeys.
  { apply sortedKeysOf_unique; rewrite ?Hd2, ?Hd3.
    - apply foldl_setIfAbsent_NoDup. constructor.
    - intros k k'. rewrite !foldl_setIfAbsent_keys. simpl. rewrite !elem_of_nil.
      intros [[]|Hk] [[]|Hk']. by apply Hdistinct.
    - apply NoDup_Permutation; try (apply foldl_setIfAbsent_NoDup; constructor).
      intros k. rewrite !foldl_setIfAbsent_keys, !fmap_app, !elem_of_app, HzR1, Hkeys1.
      tauto. }
  assert (st2.1 = st3.1) as Hheap.
  { apply map_eq. intros l.
    rewrite (lookup_of_payload h st2.1 l), (lookup_of_payload h st3.1 l).
    2:{ unfold st3. by rewrite mergeLoop_payload. }
    2:{ unfold st2. by rewrite mergeLoop_payload. }
    f_equal. f_equal.
    destruct (decide (l ∈ inputObjects first ++ inputObjects later)) as [Hin|Hnin].
    - rewrite <-!(contributions_values h), <-fmap_app in Hin. fold c1 cL in Hin.
      apply list_elem_of_fmap in Hin as ([k l'] & -> & Hin). simpl.
      rewrite (Htime3 k l' Hin).
      apply elem_of_app in Hin as [Hin|Hin].
      + destruct (decide (l' ∈ at_trace merged)) as [Hl|Hl].
        * apply Htime2, elem_of_app. left.
          assert (∃ k', (k', l') ∈ zR) as [k' Hk'].
          { rewrite <-HzR2 in Hl. apply list_elem_of_fmap in Hl as ([k' l''] & -> & Hl).
            by exists k'. }
          pose proof (dict_get_Some_elem _ _ _ (HzR _ _ Hk')) as Hin'.
          by rewrite (dict_value_key c1 k k' l' Hndv Hin Hin').
        * rewrite (timeOf_lookup h1 st2.1).
          { rewrite (Htime k l' Hin). by rewrite decide_False. }
          apply Hframe2.
          change (inputObjects (ArgTrace merged :: later))
            with (at_trace merged ++ inputObjects later).
          intros [?|Hl2]%elem_of_app; [done|].
          apply (Hdisj l'); [|done]. rewrite <-(contributions_values h first).
          apply list_elem_of_fmap. by exists (k, l').
      + apply Htime2, elem_of_app. by right.
    - apply timeOf_lookup. rewrite Hframe3.
      2:{ change (ArgTrace referenceTrace :: rest ++ later) with (first ++ later).
          by rewrite inputObjects_app. }
      rewrite Hframe2.
      + apply Hframe. intros Hl. apply Hnin, elem_of_app. by left.
      + change (inputObjects (ArgTrace merged :: later))
          with (at_trace merged ++ inputObjects later).
        intros [Hl|Hl]%elem_of_app; apply Hnin, elem_of_app; [left; by apply Hsub|by right]. }
  assert (at_icao merged = at_icao referenceTrace ∧ at_r merged = at_r referenceTrace
          ∧ at_t merged = at_t referenceTrace ∧ at_desc merged = at_desc referenceTrace
          ∧ at_ownOp merged = at_ownOp referenceTrace
          ∧ at_year merged = at_year referenceTrace) as (-> & -> & -> & -> & -> & ->).
  { unfold first in Hm. rewrite mergeAllTraces_unfold in Hm. cbv zeta in Hm.
    injection Hm as _ <-. done. }
  cbv zeta. rewrite Hheap, Hkeys.
  rewrite (list_omap_ext (dict_get st2.2) (dict_get st3.2) _ (sortedKeysOf st3.2)); [done|].
  apply Forall_Forall2_diag, Forall_forall. intros k _. apply Hgets.
Qed.

Lemma mergeAllTraces_in_steps_witness :
  ∃ h1 merged,
    mergeAllTraces exampleStore [ArgTrace fullTrace] = Return (h1, merged)
    ∧ mergeAllTraces h1 [ArgTrace merged; ArgTrace recentTrace]
      = mergeAllTraces exampleStore [ArgTrace fullTrace; ArgTrace recentTrace].
Proof.
  destruct (mergeAllTraces_in_steps exampleStore fullTrace [] [ArgTrace recentTrace])
    as (h1 & merged & Hm & Hsteps).
  - apply (bool_decide_unpack _). vm_compute. exact I.
  - exists h1, merged. split; [done|]. apply Hsteps.
    + assert (mergeAllTraces exampleStore [ArgTrace fullTrace] = Return (h1, merged))
        as Hm' by done.
      vm_compute in Hm'. injection Hm' as _ <-. cbn [at_timestamp].
      apply (bool_decide_unpack _). vm_compute. exact I.
    + apply distinctKeys_Forall, (bool_decide_unpack _). vm_compute. exact I.
Defined.

(** ** Merging traces that bring nothing new *)

(** X6: merging a trace with others that hold no timestamp it does not
    hold already returns the sample arrays of the trace in their order, with
    the first timestamp for a base; and where adding that base back to each
    timestamp less the base gives the timestamp again, the flight points of
    the result are the flight points of the trace.  This holds when no
    sample array is reachable twice from the arguments and the timestamps of
    the trace are, as strings, strictly increasing along the trace; merging
    the trace alone is the case of no other argument. *)
Theorem mergeAllTraces_nothing_new `{Host} (h : heap) (t : AircraftTrace)
    (rest : list traceArg) :
  let traces := ArgTrace t :: rest in
  NoDup (inputObjects traces) →
  StronglySorted key_lt (absoluteTimestamps h t) →
  (∀ k, k ∈ (contributions h rest).*1 → k ∈ absoluteTimestamps h t) →
  ∃ h' merged,
    mergeAllTraces h traces = Return (h', merged)
    ∧ at_trace merged = at_trace t
    ∧ at_timestamp merged = default NaN (head (absoluteTimestamps h t))
    ∧ (Forall (rebasesExactly (at_timestamp merged)) (absoluteTimestamps h t) →
         flightPointsFromTrace h' merged = flightPointsFromTrace h t).
Proof.
  intros traces Hnd Hsorted Hknown.
  destruct (mergeAllTraces_same_samples h t rest Hnd Hsorted Hknown)
    as (h' & merged & Hm & Htrace & Hbase & Htime & Hpay).
  exists h', merged. split_and!; try done.
  intros Hexact. by apply same_samples_flightPoints.
Qed.

Lemma mergeAllTraces_nothing_new_witness :
  ∃ h' merged,
    mergeAllTraces copyStore [ArgTrace originalTrace; ArgTrace copiedTrace; ArgNull]
      = Return (h', merged)
    ∧ at_trace merged = at_trace originalTrace
    ∧ flightPointsFromTrace (H := stubHost) h' merged
      = flightPointsFromTrace (H := stubHost) copyStore originalTrace.
Proof.
  destruct (mergeAllTraces_nothing_new (H := stubHost) copyStore originalTrace
              [ArgTrace copiedTrace; ArgNull])
    as (h' & merged & Hm & Htrace & Hbase & Hexact).
  - apply (bool_decide_unpack _). vm_compute. exact I.
  - change (absoluteTimestamps copyStore originalTrace)
      with [Num 1648420051; Num 1648420056].
    repeat constructor. vm_compute. by intros [].
  - change (absoluteTimestamps copyStore originalTrace)
      with [Num 1648420051; Num 1648420056].
    assert ((contributions copyStore [ArgTrace copiedTrace; ArgNull]).*1
            = [Num 1648420051; Num 1648420056]) as -> by (vm_compute; reflexivity).
    done.
  - exists h', merged. split_and!; [done|done|]. apply Hexact.
    rewrite Hbase. apply (bool_decide_unpack _). vm_compute. exact I.
Defined.

(** ** Flight points *)

Section FlightPoints.
Context `{Host}.

Lemma climb_flags (altitudeRate : option number) :
  ¬ (isAscendingOf altitudeRate = true ∧ isDescendingOf altitudeRate = true)
  ∧ (altitudeRate = None →
       isAscendingOf altitudeRate = false ∧ isDescendingOf altitudeRate = false)
  ∧ (isAscendingOf altitudeRate = true → ∃ r, altitudeRate = Some (Num r) ∧ 0 < r)
  ∧ (isDescendingOf altitudeRate = true → ∃ r, altitudeRate = Some (Num r) ∧ r < 0).
Proof.
  destruct altitudeRate as [[|r]|]; simpl; split_and!; try done; try (by intros [? ?]).
  - intros [Hup Hdown]. apply bool_decide_eq_true in Hup, Hdown. lia.
  - intros Hup. apply bool_decide_eq_true in Hup. eauto.
  - intros Hdown. apply bool_decide_eq_true in Hdown. eauto.
Qed.

(** X7: every flight point that [flightPointsFromTrace] or
    [flightPointFromBinary] produces is never both ascending and
    descending; is ascending only with a positive vertical rate and
    descending only with a negative one, and neither without a vertical
    rate; has altitude 0 when it is on the ground; and carries the
    timestamp in milliseconds and the formatted time of its own
    timestamp. *)
Theorem flightPoints_well_formed :
  (∀ traceTimestamp traceObject,
     flightPointInvariant (flightPointFromTraceObject traceTimestamp traceObject))
  ∧ (∀ updateAt binaryAircraftObject,
       flightPointInvariant (flightPointFromBinary updateAt binaryAircraftObject))
  ∧ (∀ h aircraftTrace,
       Forall flightPointInvariant (flightPointsFromTrace h aircraftTrace)).
Proof.
  assert (∀ traceTimestamp traceObject,
            flightPointInvariant (flightPointFromTraceObject traceTimestamp traceObject))
    as Htrace.
  { intros ts o. unfold flightPointInvariant, flightPointFromTraceObject. cbn.
    set (rate := if decide (to_rate o = JNull) then None else Some (parseInt (to_rate o))).
    destruct (climb_flags rate) as (? & ? & ? & ?).
    split_and!; try done; try by eexists.
    intros Hground. apply bool_decide_eq_true in Hground. rewrite Hground.
    by rewrite decide_False, decide_True. }
  split_and!; [done| |].
  - intros ts o. unfold flightPointInvariant, flightPointFromBinary. cbn.
    set (rate := if decide (bo_baro_rate o = JUndefined) then None
                 else Some (parseInt (bo_baro_rate o))).
    destruct (climb_flags rate) as (? & ? & ? & ?).
    split_and!; try done; try by eexists.
    intros Hground. apply bool_decide_eq_true in Hground. rewrite Hground.
    by rewrite decide_False, decide_True.
  - intros h t. apply Forall_forall. intros fp Hin. unfold flightPointsFromTrace in Hin.
    apply list_elem_of_omap in Hin as (l & _ & Hfp).
    destruct (h !! l) as [o|]; [|done]. injection Hfp as <-. apply Htrace.
Qed.
End FlightPoints.

(** ** The aircraft state of a targeted vehicle *)

Section AircraftWithPointsFacts.
Context `{Host}.

(** X8: what [aircraftWithPointsFromTraces] does is decided by the trace
    it takes for the reference of the merge: the full trace unless that is
    [null], and then the recent one.  When the reference is a trace, the
    merge is of that trace and then the other one, the call returns the
    merged trace, and the state, which is comprehensive, takes its identity
    from the reference, also when the other trace differs.  When both are
    [null] there is no merge: the store is untouched and the state is the
    targeted vehicle's, not comprehensive.  When the reference is
    [undefined], which the tests against [null] let through, the merge fails
    its reference check and the call throws what the merge throws. *)
Theorem aircraftWithPointsFromTraces_returns (h : heap) (details : detailStore)
    (targetedVehicleTrace : TargetedVehicleTrace) :
  let fullTrace := tvt_fullTrace targetedVehicleTrace in
  let recentTrace := tvt_recentTrace targetedVehicleTrace in
  let targetedVehicle := tvt_targetedVehicle targetedVehicleTrace in
  let reference := if isNull fullTrace then recentTrace else fullTrace in
  let other := if isNull fullTrace then fullTrace else recentTrace in
  match reference with
  | ArgTrace referenceTrace =>
      ∃ h' merged,
        aircraftWithPointsFromTraces h details targetedVehicleTrace
          = Return (h', (aircraftStateFromTrace details merged, Some merged))
        ∧ mergeAllTraces h [ArgTrace referenceTrace; other] = Return (h', merged)
        ∧ as_icao (aircraftStateFromTrace details merged) = at_icao referenceTrace
        ∧ as_registration (aircraftStateFromTrace details merged) = at_r referenceTrace
        ∧ as_type (aircraftStateFromTrace details merged) = at_t referenceTrace
        ∧ as_comprehensive (aircraftStateFromTrace details merged) = true
  | ArgNull =>
      aircraftWithPointsFromTraces h details targetedVehicleTrace
        = Return (h, (aircraftStateFromTargetedVehicle targetedVehicle, None))
      ∧ as_icao (aircraftStateFromTargetedVehicle targetedVehicle)
        = JStr (tv_icao targetedVehicle)
      ∧ as_flightName (aircraftStateFromTargetedVehicle targetedVehicle)
        = JStr (tv_name targetedVehicle)
      ∧ as_comprehensive (aircraftStateFromTargetedVehicle targetedVehicle) = false
  | ArgUndefined =>
      aircraftWithPointsFromTraces h details targetedVehicleTrace
        = Throw (ThrownString "Failed to merge traces - trace1 can't be null or undefined.")
  end.
Proof.
  cbv zeta. unfold aircraftWithPointsFromTraces.
  destruct (tvt_fullTrace targetedVehicleTrace) as [| |full],
           (tvt_recentTrace targetedVehicleTrace) as [| |recent];
    cbn [isNull negb andb]; try done;
    rewrite mergeAllTraces_unfold; cbv zeta;
    eexists _, _; (split; [reflexivity|]); by split_and!.
Qed.
End AircraftWithPointsFacts.

(** ** Trimming and lower case *)

Lemma lowerChar_idemp (c : ascii) : lowerChar (lowerChar c) = lowerChar c.
Proof. destruct c as [[] [] [] [] [] [] [] []]; vm_compute; reflexivity. Qed.

Lemma isWhiteSpace_lowerChar (c : ascii) : isWhiteSpace (lowerChar c) = isWhiteSpace c.
Proof. destruct c as [[] [] [] [] [] [] [] []]; vm_compute; reflexivity. Qed.

Lemma toLowerCase_idemp (s : string) : toLowerCase (toLowerCase s) = toLowerCase s.
Proof. induction s as [|c s IH]; simpl; [done|]. by rewrite lowerChar_idemp, IH. Qed.

Lemma trimStart_toLowerCase (s : string) :
  trimStart (toLowerCase s) = toLowerCase (trimStart s).
Proof.
  induction s as [|c s IH]; simpl; [done|].
  rewrite isWhiteSpace_lowerChar. by destruct (isWhiteSpace c).
Qed.

Lemma trimEnd_toLowerCase (s : string) :
  trimEnd (toLowerCase s) = toLowerCase (trimEnd s).
Proof.
  induction s as [|c s IH]; simpl; [done|].
  rewrite IH, isWhiteSpace_lowerChar.
  destruct (trimEnd s); simpl; [|done]. by destruct (isWhiteSpace c).
Qed.

Lemma trim_toLowerCase (s : string) : trim (toLowerCase s) = toLowerCase (trim s).
Proof. unfold trim. by rewrite trimStart_toLowerCase, trimEnd_toLowerCase. Qed.

Lemma trimEnd_idemp (s : string) : trimEnd (trimEnd s) = trimEnd s.
Proof.
  induction s as [|c s IH]; simpl; [done|].
  destruct (trimEnd s) as [|c' s'] eqn:Hs.
  - destruct (isWhiteSpace c) eqn:Hc; simpl; [done|]. by rewrite Hc.
  - simpl. simpl in IH. by rewrite IH.
Qed.

Lemma trimStart_idemp (s : string) : trimStart (trimStart s) = trimStart s.
Proof.
  induction s as [|c s IH]; simpl; [done|].
  destruct (isWhiteSpace c) eqn:Hc; [done|]. simpl. by rewrite Hc.
Qed.

Lemma trimStart_head (s : string) :
  match trimStart s with
  | EmptyString => True
  | String c _ => isWhiteSpace c = false
  end.
Proof.
  induction s as [|c s IH]; simpl; [done|].
  destruct (isWhiteSpace c) eqn:Hc; [done|]. by simpl.
Qed.

Lemma trimEnd_head (c : ascii) (s : string) :
  isWhiteSpace c = false → ∃ s', trimEnd (String c s) = String c s'.
Proof.
  intros Hc. simpl. rewrite Hc. destruct (trimEnd s); eauto.
Qed.

Lemma trim_idemp (s : string) : trim (trim s) = trim s.
Proof.
  unfold trim. pose proof (trimStart_head s) as Hhead.
  destruct (trimStart s) as [|c t] eqn:Ht; [done|].
  destruct (trimEnd_head c t Hhead) as [s' Hs']. rewrite Hs'.
  assert (trimStart (String c s') = String c s') as -> by (simpl; by rewrite Hhead).
  by rewrite <-Hs', trimEnd_idemp.
Qed.

(** ** Looking an aircraft up in a binary update *)

Lemma findAircraftObjectByIcao_ext (aircraft : list BinaryAircraftObject) (icao icao' : string) :
  trim (toLowerCase icao) = trim (toLowerCase icao') →
  findAircraftObjectByIcao aircraft icao = findAircraftObjectByIcao aircraft icao'.
Proof. intros Heq. induction aircraft as [|a aircraft IH]; simpl; [done|]. by rewrite Heq, IH. Qed.

(** X9: [findAircraftObjectByIcao] does not depend on the letter case of
    the ICAO asked for nor on white space around it; the aircraft returned
    is the first one of the update whose [hex] is the ICAO up to case and
    surrounding white space, and [null] is returned exactly when there is
    none. *)
Theorem findAircraftObjectByIcao_insensitive (aircraft : list BinaryAircraftObject)
    (icao : string) :
  findAircraftObjectByIcao aircraft (toLowerCase icao) = findAircraftObjectByIcao aircraft icao
  ∧ findAircraftObjectByIcao aircraft (trim icao) = findAircraftObjectByIcao aircraft icao
  ∧ match findAircraftObjectByIcao aircraft icao with
    | Some found =>
        ∃ before after,
          aircraft = before ++ found :: after
          ∧ trim (toLowerCase (bo_hex found)) = trim (toLowerCase icao)
          ∧ Forall (λ other, trim (toLowerCase (bo_hex other)) ≠ trim (toLowerCase icao)) before
    | None =>
        Forall (λ other, trim (toLowerCase (bo_hex other)) ≠ trim (toLowerCase icao)) aircraft
    end.
Proof.
  split_and!.
  - apply findAircraftObjectByIcao_ext. by rewrite toLowerCase_idemp.
  - apply findAircraftObjectByIcao_ext.
    by rewrite trim_toLowerCase, trim_idemp, <-trim_toLowerCase.
  - induction aircraft as [|a aircraft IH]; simpl; [done|].
    destruct (String.eqb _ _) eqn:Heq.
    + apply String.eqb_eq in Heq. by exists [], aircraft.
    + apply String.eqb_neq in Heq.
      destruct (findAircraftObjectByIcao aircraft icao) as [found|].
      * destruct IH as (before & after & -> & Hm & Hbefore).
        exists (a :: before), after. split_and!; [done|done|by constructor].
      * by constructor.
Qed.

(** X10: the state [aircraftStateFromBinary] builds from the aircraft that
    [findAircraftObjectByIcao] found has an ICAO without surrounding white
    space that is, up to letter case, the ICAO asked for, trimmed; and the
    state is comprehensive. *)
Theorem aircraftStateFromBinary_icao (aircraft : list BinaryAircraftObject)
    (icao : string) (found : BinaryAircraftObject) :
  findAircraftObjectByIcao aircraft icao = Some found →
  ∃ hex,
    as_icao (aircraftStateFromBinary found) = JStr hex
    ∧ toLowerCase hex = trim (toLowerCase icao)
    ∧ trim hex = hex
    ∧ as_comprehensive (aircraftStateFromBinary found) = true.
Proof.
  intros Hfound. exists (trim (bo_hex found)). split; [done|].
  rewrite trim_idemp. split; [|done].
  rewrite <-trim_toLowerCase.
  induction aircraft as [|a aircraft IH]; [done|]. simpl in Hfound.
  destruct (String.eqb _ _) eqn:Heq; [|by apply IH].
  injection Hfound as <-. by apply String.eqb_eq in Heq.
Qed.

Lemma aircraftStateFromBinary_icao_witness :
  let pol35Object :=
    mkBinaryAircraftObject " 7C4EE8 " "VH-PVE" "A139" "POL35   " JUndefined JUndefined
      JUndefined JUndefined JUndefined JUndefined JUndefined in
  ∃ hex,
    as_icao (aircraftStateFromBinary pol35Object) = JStr hex
    ∧ toLowerCase hex = trim (toLowerCase "7c4ee8 ")
    ∧ trim hex = hex
    ∧ as_comprehensive (aircraftStateFromBinary pol35Object) = true.
Proof.
  intros pol35Object.
  apply (aircraftStateFromBinary_icao [pol35Object] "7c4ee8 " pol35Object).
  vm_compute. reflexivity.
Defined.

(** ** Saving flight points *)

Lemma save_prefix (tbl : table) (fm : FlightPointModel) : tbl `prefix_of` save tbl fm.
Proof.
  unfold save. destruct (fm_flightPointHash fm); [|done].
  case_bool_decide; [done|]. by apply prefix_app_r.
Qed.

Lemma foldl_save_prefix (identified : list FlightPointModel) (tbl : table) :
  tbl `prefix_of` foldl save tbl identified.
Proof.
  revert tbl. induction identified as [|fm identified IH]; intros tbl; simpl; [done|].
  etrans; [apply save_prefix|apply IH].
Qed.

Lemma save_unique (tbl : table) (fm : FlightPointModel) :
  NoDup (fm_flightPointHash <$> tbl) → NoDup (fm_flightPointHash <$> save tbl fm).
Proof.
  intros Hnd. unfold save. destruct (fm_flightPointHash fm) as [hash|] eqn:Hhash; [|done].
  case_bool_decide as Hin; [done|].
  rewrite fmap_app. apply NoDup_app. split_and!; [done| |].
  - intros x Hx Hx'. simpl in Hx'. apply list_elem_of_singleton in Hx'. subst x.
    by rewrite Hhash in Hx.
  - simpl. apply NoDup_singleton.
Qed.

Lemma foldl_save_unique (identified : list FlightPointModel) (tbl : table) :
  NoDup (fm_flightPointHash <$> tbl) →
  NoDup (fm_flightPointHash <$> foldl save tbl identified).
Proof.
  revert tbl. induction identified as [|fm identified IH]; intros tbl Hnd; simpl; [done|].
  by apply IH, save_unique.
Qed.

Lemma save_stored (tbl : table) (fm : FlightPointModel) :
  is_Some (fm_flightPointHash fm) →
  fm_flightPointHash fm ∈ fm_flightPointHash <$> save tbl fm.
Proof.
  intros [hash Hhash]. unfold save. rewrite Hhash.
  case_bool_decide as Hin; [done|].
  rewrite fmap_app, elem_of_app. right. simpl. rewrite Hhash. constructor.
Qed.

Lemma foldl_save_stored (identified : list FlightPointModel) (tbl : table)
    (fm : FlightPointModel) :
  fm ∈ identified → is_Some (fm_flightPointHash fm) →
  fm_flightPointHash fm ∈ fm_flightPointHash <$> foldl save tbl identified.
Proof.
  revert tbl. induction identified as [|fm' identified IH]; intros tbl Hin Hsome.
  - by apply elem_of_nil in Hin.
  - simpl. apply elem_of_cons in Hin as [Heq|Hin]; [subst fm'|by apply IH].
    destruct (foldl_save_prefix identified (save tbl fm)) as [more ->].
    rewrite fmap_app, elem_of_app. left. by apply save_stored.
Qed.

Lemma foldl_save_known (identified : list FlightPointModel) (tbl : table) :
  (∀ fm, fm ∈ identified → is_Some (fm_flightPointHash fm) →
         fm_flightPointHash fm ∈ fm_flightPointHash <$> tbl) →
  foldl save tbl identified = tbl.
Proof.
  induction identified as [|fm identified IH]; intros Hknown; simpl; [done|].
  assert (save tbl fm = tbl) as ->.
  { unfold save. destruct (fm_flightPointHash fm) as [hash|] eqn:Hhash; [|done].
    rewrite bool_decide_eq_true_2; [done|].
    rewrite <-Hhash. apply Hknown; [constructor|by rewrite Hhash]. }
  apply IH. intros fm' Hin. apply Hknown. by constructor.
Qed.

Section SaveToAircraft.
Context `{Host}.

(** X11: for an aircraft that has a row in the [Aircraft] table,
    [saveToAircraft] keeps the content hashes of the table pairwise
    different; it changes and removes no row that was there, adding rows at
    the end only; and after the call the hash of every point handed in is
    in the table, whether the point itself was stored or an earlier row
    holds that hash. *)
Theorem saveToAircraft_keeps_hashes_unique (built : list FlightPointModel) (db : Database)
    (aircraft : Aircraft) :
  db_Aircraft db !! ac_icao aircraft = Some aircraft →
  NoDup (fm_flightPointHash <$> db_FlightPoints db) →
  let saved := saveToAircraft built (db_FlightPoints db) aircraft in
  NoDup (fm_flightPointHash <$> saved.2)
  ∧ db_FlightPoints db `prefix_of` saved.2
  ∧ ∀ fm, fm ∈ saved.1 → fm_flightPointHash fm ∈ fm_flightPointHash <$> saved.2.
Proof.
  intros _ Hnd. unfold saveToAircraft. cbn [fst snd]. split_and!.
  - by apply foldl_save_unique.
  - apply foldl_save_prefix.
  - intros fm Hin. apply foldl_save_stored; [done|].
    apply list_elem_of_fmap in Hin as (fm0 & -> & _). by eexists.
Qed.

(** X12: saving the same points for the same aircraft a second time
    changes nothing: the table after the second call is the table after the
    first, and the models carry the same identity. *)
Theorem saveToAircraft_again (built : list FlightPointModel) (tbl : table)
    (aircraft : Aircraft) :
  let once := saveToAircraft built tbl aircraft in
  let twice := saveToAircraft built once.2 aircraft in
  twice.2 = once.2 ∧ twice.1 = once.1.
Proof.
  unfold saveToAircraft. cbn [fst snd]. split; [|done].
  apply foldl_save_known. intros fm Hin Hsome. by apply foldl_save_stored.
Qed.
End SaveToAircraft.

Lemma saveToAircraft_keeps_hashes_unique_witness :
  let db := mkDatabase {[ "7c4ee8" := pol35 ]} [] in
  let built :=
    buildFlightPointsModels (H := plainHost)
      (flightPointsFromTrace (H := plainHost) exampleStore fullTrace) in
  let saved := saveToAircraft (H := plainHost) built (db_FlightPoints db) pol35 in
  (NoDup (fm_flightPointHash <$> saved.2)
   ∧ db_FlightPoints db `prefix_of` saved.2
   ∧ ∀ fm, fm ∈ saved.1 → fm_flightPointHash fm ∈ fm_flightPointHash <$> saved.2)
  ∧ fm_flightPointHash <$> saved.2
    = [Some "7c4ee81648420051-371452100"; Some "7c4ee81648420056-371452200";
       Some "7c4ee81648420061-371452300"].
Proof.
  intros db built saved. split; [|vm_compute; reflexivity].
  apply (saveToAircraft_keeps_hashes_unique (H := plainHost) built db pol35).
  - reflexivity.
  - constructor.
Defined.

(** ** Points whose hash inputs coincide *)

Section Collisions.
Context `{Host}.

Lemma save_known (tbl : table) (fm : FlightPointModel) :
  fm_flightPointHash fm ∈ fm_flightPointHash <$> tbl → save tbl fm = tbl.
Proof.
  intros Hin. unfold save. destruct (fm_flightPointHash fm) as [hash|]; [|done].
  by rewrite bool_decide_eq_true_2.
Qed.

(** X13: a point whose hash input (ICAO, timestamp, position and altitude
    written one after the other with nothing in between) is that of a point
    saved before it in the same call is not stored: the table is the same
    as without it.  This drops a repeated point, and also a point at another
    position whose digits happen to run together to the same string, as
    latitude 12, longitude 3 after latitude 1, longitude 23. *)
Theorem saveToAircraft_same_hash_input (flightPoints : list FlightPoint)
    (earlier later : FlightPoint) (tbl : table) (aircraft : Aircraft) :
  earlier ∈ flightPoints →
  hashInput (ac_icao aircraft) (fp_timestamp later) (fp_latitude later)
    (fp_longitude later) (fp_altitude later)
  = hashInput (ac_icao aircraft) (fp_timestamp earlier) (fp_latitude earlier)
      (fp_longitude earlier) (fp_altitude earlier) →
  (saveToAircraft (buildFlightPointsModels (flightPoints ++ [later])) tbl aircraft).2
  = (saveToAircraft (buildFlightPointsModels flightPoints) tbl aircraft).2.
Proof.
  intros Hin Hsame. unfold saveToAircraft, buildFlightPointsModels. cbn [snd].
  rewrite !fmap_app, foldl_app. cbn [fmap list_fmap foldl].
  apply save_known.
  assert (fm_flightPointHash (identify aircraft (newFlightPointModel later))
          = fm_flightPointHash (identify aircraft (newFlightPointModel earlier))) as ->.
  { simpl. by rewrite Hsame. }
  apply foldl_save_stored; [|by eexists].
  apply list_elem_of_fmap. eexists. split; [done|].
  apply list_elem_of_fmap. by eexists.
Qed.
End Collisions.

Lemma saveToAircraft_same_hash_input_witness :
  let at_position (latitude longitude : Z) :=
    mkFlightPoint (Num 1648420051) (Num 1648420051000) (Some (Num latitude))
      (Some (Num longitude)) (Some (Num 2100)) JNull JNull None JNull "" (JNull, JNull)
      false false false in
  (saveToAircraft (H := stubHost)
     (buildFlightPointsModels (H := stubHost) ([at_position 1 23] ++ [at_position 12 3]))
     [] pol35).2
  = (saveToAircraft (H := stubHost)
       (buildFlightPointsModels (H := stubHost) [at_position 1 23]) [] pol35).2.
Proof.
  intros at_position.
  apply (saveToAircraft_same_hash_input (H := stubHost) [at_position 1 23]
           (at_position 1 23) (at_position 12 3) [] pol35).
  - constructor.
  - vm_compute. reflexivity.
Defined.

(** ** The points not yet synchronised *)

Lemma acknowledged_AircraftIcao (receipts : list FlightPointReceipt) (fm : FlightPointModel) :
  fm_AircraftIcao (acknowledged receipts fm) = fm_AircraftIcao fm.
Proof. unfold acknowledged. by destruct (existsb _ receipts). Qed.

Lemma acknowledged_unsynchronised (receipts : list FlightPointReceipt)
    (fm : FlightPointModel) :
  fm_synchronised (acknowledged receipts fm) = false →
  acknowledged receipts fm = fm
  ∧ ∀ r, r ∈ receipts → receiptMatches r fm = false.
Proof.
  unfold acknowledged. destruct (existsb _ receipts) eqn:Hex; [done|].
  intros _. split; [done|]. intros r Hr.
  destruct (receiptMatches r fm) eqn:Hm; [|done].
  assert (existsb (λ r, receiptMatches r fm) receipts = true) as Hex'.
  { apply existsb_exists. exists r. split; [by apply list_elem_of_In|done]. }
  congruence.
Qed.

Lemma isUnsynchronisedOf_acknowledged (aircraftIcao : string)
    (receipts : list FlightPointReceipt) (fm : FlightPointModel) :
  isUnsynchronisedOf aircraftIcao (acknowledged receipts fm) = true →
  acknowledged receipts fm = fm ∧ isUnsynchronisedOf aircraftIcao fm = true
  ∧ ∀ r, r ∈ receipts → receiptMatches r fm = false.
Proof.
  unfold isUnsynchronisedOf. intros [Hicao Hsync]%andb_true_iff.
  apply negb_true_iff in Hsync.
  destruct (acknowledged_unsynchronised receipts fm Hsync) as [Heq Hno].
  rewrite Heq in Hicao, Hsync. split_and!; [done| |done].
  by rewrite Hicao, Hsync.
Qed.

Lemma merge_sort_nil {A} (R : relation A) `{∀ x y, Decision (R x y)} :
  merge_sort R [] = [].
Proof. reflexivity. Qed.

Lemma filter_fmap_nil {A} (P : A → bool) (f : A → A) (l : list A) :
  (∀ x, x ∈ l → P (f x) = false) → filter P (f <$> l) = [].
Proof.
  induction l as [|x l IH]; intros Hall; [done|].
  rewrite fmap_cons, filter_cons, (Hall x) by constructor.
  simpl. apply IH. intros y Hy. apply Hall. by constructor.
Qed.

Lemma filter_fmap_same {A} (P : A → bool) (f : A → A) (l : list A) :
  (∀ x, x ∈ l → P x = true → f x = x) →
  (∀ x, x ∈ l → P (f x) = true → P x = true) →
  filter P (f <$> l) = filter P l.
Proof.
  induction l as [|x l IH]; intros Hsame Hback; [done|].
  rewrite fmap_cons, !filter_cons.
  rewrite IH.
  2:{ intros y Hy. apply Hsame. by constructor. }
  2:{ intros y Hy. apply Hback. by constructor. }
  destruct (P x) eqn:HP.
  - rewrite (Hsame x) by (done || constructor). by rewrite HP.
  - destruct (P (f x)) eqn:HP'; [|done].
    rewrite (Hback x) in HP by (done || constructor). done.
Qed.

(** X15: when the receipts handed to [updateFlightPointReceipts] cover
    every unsynchronised point of an aircraft, [getUnsynchronisedPointsFor]
    afterwards returns the aircraft with no point. *)
Theorem updateFlightPointReceipts_clears (db : Database) (aircraftIcao : string)
    (aircraft : Aircraft) (receipts : list FlightPointReceipt) :
  db_Aircraft db !! aircraftIcao = Some aircraft →
  (∀ fm, fm ∈ db_FlightPoints db → isUnsynchronisedOf aircraftIcao fm = true →
         ∃ r, r ∈ receipts ∧ receiptMatches r fm = true) →
  ∃ tbl',
    updateFlightPointReceipts (db_FlightPoints db) receipts = Return (tbl', receipts)
    ∧ getUnsynchronisedPointsFor (mkDatabase (db_Aircraft db) tbl') aircraftIcao
      = Some (aircraft, []).
Proof.
  intros Hrow Hall. eexists. split; [reflexivity|].
  unfold getUnsynchronisedPointsFor. cbn [db_Aircraft db_FlightPoints]. rewrite Hrow.
  rewrite foldl_acknowledge, filter_fmap_nil; [done|].
  intros fm Hin. destruct (isUnsynchronisedOf aircraftIcao (acknowledged receipts fm)) eqn:Hun;
    [|done].
  apply isUnsynchronisedOf_acknowledged in Hun as (_ & Hun & Hno).
  destruct (Hall fm Hin Hun) as (r & Hr & Hm). by rewrite (Hno r Hr) in Hm.
Qed.

(** X16: [updateFlightPointReceipts] never makes a point unsynchronised:
    what [getUnsynchronisedPointsFor] returns for an aircraft afterwards was
    returned for it before; and when no receipt is for the aircraft, exactly
    the same points are returned. *)
Theorem updateFlightPointReceipts_pending (db : Database) (aircraftIcao : string)
    (receipts : list FlightPointReceipt) :
  ∃ tbl',
    updateFlightPointReceipts (db_FlightPoints db) receipts = Return (tbl', receipts)
    ∧ match getUnsynchronisedPointsFor (mkDatabase (db_Aircraft db) tbl') aircraftIcao,
            getUnsynchronisedPointsFor db aircraftIcao with
      | Some (aircraft', after), Some (aircraft, before) =>
          aircraft' = aircraft
          ∧ (∀ fm, fm ∈ after → fm ∈ before)
          ∧ ((∀ r, r ∈ receipts → rc_AircraftIcao r ≠ aircraftIcao) → after = before)
      | None, None => True
      | _, _ => False
      end.
Proof.
  eexists. split; [reflexivity|].
  unfold getUnsynchronisedPointsFor. cbn [db_Aircraft db_FlightPoints].
  destruct (db_Aircraft db !! aircraftIcao) as [aircraft|]; [|done].
  rewrite foldl_acknowledge. split_and!; [done| |].
  - intros fm. rewrite !merge_sort_Permutation, !list_elem_of_filter.
    intros [Hun Hin]. apply list_elem_of_fmap in Hin as (fm0 & -> & Hin).
    apply Is_true_true in Hun.
    apply isUnsynchronisedOf_acknowledged in Hun as (-> & Hun & _).
    split; [by apply Is_true_true|done].
  - intros Hother. f_equal. apply filter_fmap_same.
    + intros fm Hin Hun. apply acknowledged_unknown. intros r Hr.
      unfold receiptMatches. apply bool_decide_eq_false. intros [Hicao _].
      unfold isUnsynchronisedOf in Hun. apply andb_true_iff in Hun as [Hicao' _].
      apply bool_decide_eq_true in Hicao'. rewrite Hicao' in Hicao.
      injection Hicao as Heq. by apply (Hother r Hr).
    + intros fm Hin Hun. by apply isUnsynchronisedOf_acknowledged in Hun as (_ & ? & _).
Qed.

Section SaveThenQuery.
Context `{Host}.

(** X14: after [saveToAircraft] of newly built points for a stored
    aircraft, every row the call added is among the points
    [getUnsynchronisedPointsFor] returns for that aircraft, and every point
    returned is a row of the table that is not synchronised. *)
Theorem saveToAircraft_unsynchronised (flightPoints : list FlightPoint) (db : Database)
    (aircraft : Aircraft) :
  db_Aircraft db !! ac_icao aircraft = Some aircraft →
  let saved := saveToAircraft (buildFlightPointsModels flightPoints) (db_FlightPoints db)
                 aircraft in
  ∃ points,
    getUnsynchronisedPointsFor (mkDatabase (db_Aircraft db) saved.2) (ac_icao aircraft)
      = Some (aircraft, points)
    ∧ (∀ fm, fm ∈ saved.2 → fm ∈ db_FlightPoints db ∨ fm ∈ points)
    ∧ (∀ fm, fm ∈ points → fm ∈ saved.2 ∧ fm_synchronised fm = false).
Proof.
  intros Hrow saved. unfold getUnsynchronisedPointsFor. cbn [db_Aircraft db_FlightPoints].
  rewrite Hrow. eexists. split; [reflexivity|]. split.
  - intros fm Hin. destruct (foldl_save_rows _ _ _ Hin) as [Hold|Hnew]; [by left|].
    right. rewrite merge_sort_Permutation, list_elem_of_filter. split; [|done].
    apply list_elem_of_fmap in Hnew as (fm0 & -> & Hnew).
    apply list_elem_of_fmap in Hnew as (fp & -> & _).
    unfold isUnsynchronisedOf. simpl. by rewrite bool_decide_eq_true_2.
  - intros fm. rewrite merge_sort_Permutation, list_elem_of_filter.
    intros [Hun Hin]. split; [done|].
    unfold isUnsynchronisedOf in Hun. apply Is_true_true, andb_true_iff in Hun as [_ Hs].
    by apply negb_true_iff in Hs.
Qed.
End SaveThenQuery.

Lemma saveToAircraft_unsynchronised_witness :
  let db := mkDatabase {[ "7c4ee8" := pol35 ]} [] in
  let saved :=
    saveToAircraft (H := stubHost)
      (buildFlightPointsModels (H := stubHost)
         (flightPointsFromTrace (H := stubHost) exampleStore fullTrace)) [] pol35 in
  ∃ points,
    getUnsynchronisedPointsFor (mkDatabase (db_Aircraft db) saved.2) "7c4ee8"
      = Some (pol35, points)
    ∧ (∀ fm, fm ∈ saved.2 → fm ∈ [] ∨ fm ∈ points)
    ∧ (∀ fm, fm ∈ points → fm ∈ saved.2 ∧ fm_synchronised fm = false).
Proof.
  intros db saved.
  apply (saveToAircraft_unsynchronised (H := stubHost)
           (flightPointsFromTrace (H := stubHost) exampleStore fullTrace) db pol35).
  vm_compute. reflexivity.
Defined.

Lemma updateFlightPointReceipts_clears_witness :
  let row (hash : string) (synchronised : bool) :=
    mkFlightPointModel (Num 1648420051) "2022-03-27" None None None JNull JNull None JNull
      false false false (Some "7c4ee8") (Some hash) synchronised in
  let db := mkDatabase {[ "7c4ee8" := pol35 ]} [row "aa" false; row "bb" true; row "cc" false] in
  let receipts :=
    [mkFlightPointReceipt "7c4ee8" "cc" true; mkFlightPointReceipt "7c4ee8" "aa" true] in
  ∃ tbl',
    updateFlightPointReceipts (db_FlightPoints db) receipts = Return (tbl', receipts)
    ∧ getUnsynchronisedPointsFor (mkDatabase (db_Aircraft db) tbl') "7c4ee8"
      = Some (pol35, []).
Proof.
  intros row db receipts.
  apply (updateFlightPointReceipts_clears db "7c4ee8" pol35 receipts).
  - vm_compute. reflexivity.
  - intros fm Hin Hun. unfold db in Hin. cbn [db_FlightPoints] in Hin.
    apply elem_of_cons in Hin as [->|Hin].
    { exists (mkFlightPointReceipt "7c4ee8" "aa" true).
      split; [unfold receipts; repeat constructor|vm_compute; reflexivity]. }
    apply elem_of_cons in Hin as [->|Hin].
    { vm_compute in Hun. discriminate Hun. }
    apply elem_of_cons in Hin as [->|Hin].
    { exists (mkFlightPointReceipt "7c4ee8" "cc" true).
      split; [unfold receipts; repeat constructor|vm_compute; reflexivity]. }
    by apply elem_of_nil in Hin.
Defined.

(** ** The points of a day, and a new database *)

(** X17: the points [getUnsynchronisedPointsFromDayFor] returns for an
    aircraft and a day are the points [getUnsynchronisedPointsFor] returns
    for the aircraft whose date is that day, and both return [null] exactly
    when the aircraft is not stored. *)
Theorem getUnsynchronisedPointsFromDayFor_day (db : Database) (aircraftIcao isoDay : string) :
  match getUnsynchronisedPointsFromDayFor db aircraftIcao isoDay,
        getUnsynchronisedPointsFor db aircraftIcao with
  | Some (aircraft', ofDay), Some (aircraft, points) =>
      aircraft' = aircraft
      ∧ ∀ fm, fm ∈ ofDay ↔ fm ∈ points ∧ fm_date fm = isoDay
  | None, None => db_Aircraft db !! aircraftIcao = None
  | _, _ => False
  end.
Proof.
  unfold getUnsynchronisedPointsFromDayFor, getUnsynchronisedPointsFor.
  destruct (db_Aircraft db !! aircraftIcao) as [aircraft|]; [|done].
  split; [done|]. intros fm.
  rewrite !merge_sort_Permutation, !list_elem_of_filter.
  rewrite andb_True, bool_decide_spec. tauto.
Qed.

(** X18: [createDatabase] compares [conf.NODE_END] with "production", and
    [conf.js] exports no such name ([NODE_ENV] is the export); so in every
    environment the tables are dropped and created anew, and no aircraft and
    no point stored before is found afterwards. *)
Theorem createDatabase_rebuilds (opaqueDiffers : bool) (stored : Database) :
  conf !! "NODE_END" = None
  ∧ createDatabase opaqueDiffers stored = mkDatabase ∅ []
  ∧ ∀ aircraftIcao,
      getUnsynchronisedPointsFor (createDatabase opaqueDiffers stored) aircraftIcao = None.
Proof. split_and!; [by vm_compute|done|done]. Qed.


(** ** The queue of an aircraft *)

Lemma indexOf_NoDup (array : list FlightPoint) (i : nat) (x : FlightPoint) :
  NoDup array → array !! i = Some x → indexOf x array = Some i.
Proof.
  revert i. induction array as [|y array IH]; intros i Hnd Hi; [done|].
  apply NoDup_cons in Hnd as [Hy Hnd]. simpl. destruct i as [|i]; simpl in Hi.
  - injection Hi as ->. by rewrite decide_True.
  - rewrite decide_False.
    + by rewrite (IH i).
    + intros ->. apply Hy. apply list_elem_of_lookup. by exists i.
Qed.

Lemma spliceSavedFrom_spec (fuel : nat) (kept rest : list FlightPoint) :
  NoDup (kept ++ rest) → (List.length rest ≤ 2 * fuel)%nat →
  spliceSavedFrom fuel (List.length kept) (kept ++ rest) = kept ++ everySecond rest.
Proof.
  revert kept rest. induction fuel as [|fuel IH]; intros kept rest Hnd Hlen.
  - destruct rest; [simpl; by rewrite app_nil_r|simpl in Hlen; lia].
  - simpl. destruct rest as [|x rest].
    + simpl. rewrite app_nil_r, lookup_ge_None_2 by done. done.
    + rewrite list_lookup_middle by done.
      rewrite (indexOf_NoDup _ (List.length kept) x Hnd) by by apply list_lookup_middle.
      simpl. rewrite delete_middle.
      destruct rest as [|y rest].
      * rewrite app_nil_r. destruct fuel; [done|]. simpl.
        by rewrite lookup_ge_None_2 by lia.
      * replace (S (List.length kept)) with (List.length (kept ++ [y]))
          by (rewrite length_app; simpl; lia).
        rewrite (cons_middle y kept rest), app_assoc. rewrite IH.
        -- by rewrite <-app_assoc.
        -- rewrite <-app_assoc. simpl.
           apply NoDup_app in Hnd as (Hk & Hdisj & Hr).
           apply NoDup_cons in Hr as [Hx Hr].
           apply NoDup_app. split_and!; [done| |done].
           intros z Hz Hz'. apply (Hdisj z Hz). by right.
        -- simpl in Hlen. lia.
Qed.

Lemma everySecond_lookup {A} (l : list A) (j : nat) :
  everySecond l !! j = l !! (2 * j + 1)%nat.
Proof.
  revert l. induction j as [|j IH]; intros [|x [|y l]]; try done.
  simpl. rewrite IH. replace (j + S (j + 0) + 1)%nat with (S (2 * j + 1)) by lia. done.
Qed.

Lemma everySecond_even {A} (l : list A) (i : nat) (x : A) :
  NoDup l → l !! (2 * i)%nat = Some x → x ∉ everySecond l.
Proof.
  intros Hnd Hi Hin. apply list_elem_of_lookup in Hin as [j Hj].
  rewrite everySecond_lookup in Hj.
  pose proof (NoDup_lookup l _ _ x Hnd Hi Hj). lia.
Qed.

Lemma splice1_length (start : option nat) (array : list FlightPoint) :
  (List.length (splice1 start array) ≤ List.length array)%nat.
Proof.
  destruct start as [i|]; simpl.
  - apply sublist_length, sublist_delete.
  - rewrite length_take. lia.
Qed.

(** The bound on the number of steps is never what stops the loop. *)
Lemma spliceSavedFrom_fuel (fuel fuel' index : nat) (array : list FlightPoint) :
  (List.length array ≤ index + fuel)%nat → (fuel ≤ fuel')%nat →
  spliceSavedFrom fuel' index array = spliceSavedFrom fuel index array.
Proof.
  revert fuel' index array. induction fuel as [|fuel IH]; intros fuel' index array Hlen Hle.
  - destruct fuel'; [done|]. simpl. by rewrite lookup_ge_None_2 by lia.
  - destruct fuel'; [lia|]. simpl. destruct (array !! index); [|done].
    apply IH; [|lia]. pose proof (splice1_length (indexOf f array) array). lia.
Qed.

Lemma spliceSaved_spec (array : list FlightPoint) :
  NoDup array → spliceSaved array = everySecond array.
Proof. intros Hnd. apply (spliceSavedFrom_spec (List.length array) [] array Hnd). lia. Qed.

(** X19: the loop of [makeAircraftWithPoints] that is meant to take the
    saved updates out of the queue walks the very array it splices; on a
    queue of pairwise different points it takes out the points at the even
    indices and leaves those at the odd indices, every second point, in the
    queue, and it does so however many steps it is allowed beyond the length
    of the queue. *)
Theorem spliceSaved_every_second (array : list FlightPoint) :
  NoDup array →
  spliceSaved array = everySecond array
  ∧ (∀ fuel, (List.length array ≤ fuel)%nat → spliceSavedFrom fuel 0 array = everySecond array)
  ∧ (∀ i savedUpdate, array !! (2 * i)%nat = Some savedUpdate → savedUpdate ∉ spliceSaved array)
  ∧ (∀ i savedUpdate, array !! (2 * i + 1)%nat = Some savedUpdate →
       savedUpdate ∈ spliceSaved array).
Proof.
  intros Hnd.
  assert (∀ fuel, (List.length array ≤ fuel)%nat →
                  spliceSavedFrom fuel 0 array = everySecond array) as Hfuel.
  { intros fuel Hle. apply (spliceSavedFrom_spec fuel [] array Hnd). lia. }
  rewrite (spliceSaved_spec array Hnd). split_and!; [done|done| |].
  - intros i x Hi. by apply (everySecond_even array i).
  - intros i x Hi. apply list_elem_of_lookup. exists i. by rewrite everySecond_lookup.
Qed.

Lemma spliceSaved_every_second_witness :
  spliceSaved [queuedPoint 0; queuedPoint 1; queuedPoint 2] = [queuedPoint 1].
Proof.
  destruct (spliceSaved_every_second [queuedPoint 0; queuedPoint 1; queuedPoint 2])
    as (Heq & _).
  - apply (bool_decide_unpack _). vm_compute. exact I.
  - exact Heq.
Defined.

Section TrackerFacts.
Context `{Host}.

(** X20: [makeAircraftWithPoints] for an aircraft that has a queue of
    pairwise different points, some of which were pushed while the saved
    updates were being written: the rows it adds to the table are models of
    the points that were queued when it was called; the queue it leaves
    holds every second point of the queue as it stood after the pushes; so
    a point that sits at an even index there is no longer queued, and if it
    was pushed meanwhile it was not saved either. *)
Theorem makeAircraftWithPoints_queue (ta : TrackedAircraft) (db : Database)
    (aircraftModel : Aircraft) (queue arrived : list FlightPoint) :
  ta_savedUpdates ta !! ac_icao aircraftModel = Some queue →
  NoDup (queue ++ arrived) →
  let made := makeAircraftWithPoints ta db aircraftModel arrived in
  let left := everySecond (queue ++ arrived) in
  ta_savedUpdates made.1.1 !! ac_icao aircraftModel = Some left
  ∧ (∀ fm, fm ∈ db_FlightPoints made.1.2 →
       fm ∈ db_FlightPoints db
       ∨ ∃ savedUpdate, savedUpdate ∈ queue
           ∧ fm = identify aircraftModel (newFlightPointModel savedUpdate))
  ∧ (∀ i savedUpdate, (queue ++ arrived) !! (2 * i)%nat = Some savedUpdate →
       savedUpdate ∉ left)
  ∧ made.2 = getUnsynchronisedPointsFor made.1.2 (ac_icao aircraftModel).
Proof.
  intros Hqueue Hnd made left. subst made left. unfold makeAircraftWithPoints.
  rewrite Hqueue. cbn [fst snd default]. unfold setSavedUpdates. cbn [ta_savedUpdates].
  rewrite lookup_insert_eq.
  rewrite (spliceSaved_spec (queue ++ arrived) Hnd). split_and!; [done| | |done].
  - intros fm Hin. cbn [db_FlightPoints] in Hin.
    destruct (foldl_save_rows _ _ _ Hin) as [Hold|Hnew]; [by left|]. right.
    apply list_elem_of_fmap in Hnew as (fm0 & -> & Hnew).
    apply list_elem_of_fmap in Hnew as (fp & -> & Hfp). by exists fp.
  - intros i savedUpdate Hi. by apply (everySecond_even (queue ++ arrived) i).
Qed.

(** X21: while the aircraft is not set up or an update pass is under way,
    [updateAircraft] writes nothing to the database and starts no pass: the
    points are appended to the queue of the aircraft in the order they
    come, the queues of other aircraft, the tracked aircraft and the gate
    stay as they are. *)
Theorem updateAircraft_queues
    (performUpdatePass : Tracker → Database → Aircraft → list FlightPointModel
                         → Tracker * Database)
    (st : Tracker) (db : Database) (aircraftModel : Aircraft)
    (flightPoints : list FlightPoint) :
  ac_isSetup aircraftModel = false ∨ tr_awaitingUpdateResponse st = true →
  let after :=
    foldl (λ s flightPoint, updateAircraft performUpdatePass s.1 s.2 aircraftModel flightPoint)
      (st, db) flightPoints in
  let queueOf (s : Tracker) (icao : string) :=
    default [] (ta_savedUpdates (tr_trackedAircraft s) !! icao) in
  after.2 = db
  ∧ queueOf after.1 (ac_icao aircraftModel) = queueOf st (ac_icao aircraftModel) ++ flightPoints
  ∧ (∀ icao, icao ≠ ac_icao aircraftModel →
       ta_savedUpdates (tr_trackedAircraft after.1) !! icao
       = ta_savedUpdates (tr_trackedAircraft st) !! icao)
  ∧ ta_aircraft (tr_trackedAircraft after.1) = ta_aircraft (tr_trackedAircraft st)
  ∧ tr_awaitingUpdateResponse after.1 = tr_awaitingUpdateResponse st.
Proof.
  intros Hgate. cbv zeta. revert st Hgate.
  induction flightPoints as [|flightPoint flightPoints IH]; intros st Hgate.
  - simpl. by rewrite app_nil_r.
  - cbn [foldl fst snd]. unfold updateAircraft at 2 4 6 8 10.
    assert (negb (ac_isSetup aircraftModel) || tr_awaitingUpdateResponse st = true) as ->.
    { destruct Hgate as [-> | ->]; [done|by rewrite orb_true_r]. }
    set (st1 := withTrackedAircraft st _).
    destruct (IH st1) as (Hdb & Hq & Hother & Htracked & Hawait).
    { destruct Hgate as [?|?]; [by left|by right]. }
    split_and!.
    + done.
    + rewrite Hq. unfold st1. cbn [withTrackedAircraft tr_trackedAircraft].
      unfold setSavedUpdates. cbn [ta_savedUpdates]. rewrite lookup_insert_eq.
      simpl. by rewrite <-app_assoc.
    + intros icao Hne. rewrite (Hother icao Hne). unfold st1.
      cbn [withTrackedAircraft tr_trackedAircraft]. unfold setSavedUpdates.
      cbn [ta_savedUpdates]. by rewrite lookup_insert_ne.
    + by rewrite Htracked.
    + by rewrite Hawait.
Qed.

(** X22: [handleAircraftSubmissionReceipts] opens the gate and leaves the
    table as one [updateFlightPointReceipts] of all the receipts of all the
    aircraft would: a row is marked synchronised exactly when some receipt
    names its aircraft and hash, and nothing else changes. *)
Theorem handleAircraftSubmissionReceipts_acknowledges (st : Tracker) (db : Database)
    (aircraftSubmissionReceipts : list (string * list FlightPointReceipt)) :
  let handled := handleAircraftSubmissionReceipts st db aircraftSubmissionReceipts in
  tr_awaitingUpdateResponse handled.1 = false
  ∧ db_FlightPoints handled.2
    = acknowledged (mjoin aircraftSubmissionReceipts.*2) <$> db_FlightPoints db
  ∧ db_Aircraft handled.2 = db_Aircraft db
  ∧ tr_trackedAircraft handled.1 = tr_trackedAircraft st.
Proof.
  cbv zeta. unfold handleAircraftSubmissionReceipts. cbn [fst snd db_FlightPoints db_Aircraft].
  split_and!; try done.
  rewrite <-foldl_acknowledge. generalize (db_FlightPoints db).
  induction (aircraftSubmissionReceipts.*2) as [|array arrays IH]; intros tbl; [done|].
  cbn [foldl]. rewrite IH. unfold updateFlightPointReceipts. simpl.
  by rewrite foldl_app.
Qed.
End TrackerFacts.

Lemma makeAircraftWithPoints_queue_witness :
  let ta :=
    mkTrackedAircraft {[ "7c4ee8" := pol35 ]}
      {[ "7c4ee8" := [queuedPoint 0; queuedPoint 1] ]} ∅ in
  let db := mkDatabase {[ "7c4ee8" := pol35 ]} [] in
  let made := makeAircraftWithPoints (H := stubHost) ta db pol35 [queuedPoint 2] in
  ta_savedUpdates made.1.1 !! "7c4ee8" = Some [queuedPoint 1]
  ∧ List.length (db_FlightPoints made.1.2) = 1%nat.
Proof.
  intros ta db made.
  destruct (makeAircraftWithPoints_queue (H := stubHost) ta db pol35
              [queuedPoint 0; queuedPoint 1] [queuedPoint 2]) as (Hleft & _).
  - vm_compute. reflexivity.
  - apply (bool_decide_unpack _). vm_compute. exact I.
  - split; [exact Hleft|]. vm_compute. reflexivity.
Defined.

Lemma updateAircraft_queues_witness :
  let st :=
    mkTracker (mkTrackedAircraft {[ "7c4ee8" := pol35 ]} {[ "7c4ee8" := [queuedPoint 0] ]} ∅)
      true true None in
  let db := mkDatabase {[ "7c4ee8" := pol35 ]} [] in
  let after :=
    foldl (λ s flightPoint,
             updateAircraft (H := stubHost) (λ st db _ _, (st, db)) s.1 s.2 pol35 flightPoint)
      (st, db) [queuedPoint 1; queuedPoint 2] in
  after.2 = db
  ∧ default [] (ta_savedUpdates (tr_trackedAircraft after.1) !! "7c4ee8")
    = [queuedPoint 0; queuedPoint 1; queuedPoint 2].
Proof.
  intros st db after.
  destruct (updateAircraft_queues (H := stubHost) (λ st db _ _, (st, db)) st db pol35
              [queuedPoint 1; queuedPoint 2]) as (Hdb & Hqueue & _).
  - right. reflexivity.
  - split; [exact Hdb|exact Hqueue].
Defined.

(** ** Tracked aircraft *)

(** X23: an ICAO counts as tracked when the table of tracked aircraft has
    it as a key or inherits it as a property name.  [trackedAircraft.add] of
    an aircraft that counts as tracked changes nothing, so its queue and the
    model first added are kept; for any other aircraft it stores the model
    with an empty queue and the number tracked grows by one; [remove] leaves
    the table without the aircraft and without its queue, so that the
    aircraft no longer counts as tracked unless its ICAO is an inherited
    name; and removing an aircraft just added to a table that knew nothing
    of it gives the table back. *)
Theorem trackedAircraft_add_remove (ta : TrackedAircraft) (aircraftModel : Aircraft) :
  let icao := ac_icao aircraftModel in
  (isVehicleTracked ta icao = true ↔
     is_Some (ta_aircraft ta !! icao) ∨ icao ∈ objectPrototypeKeys)
  ∧ (isVehicleTracked ta icao = true → add ta aircraftModel = ta)
  ∧ (isVehicleTracked ta icao = false →
       ta_aircraft (add ta aircraftModel) !! icao = Some aircraftModel
       ∧ ta_savedUpdates (add ta aircraftModel) !! icao = Some []
       ∧ numTracked (add ta aircraftModel) = S (numTracked ta))
  ∧ add (add ta aircraftModel) aircraftModel = add ta aircraftModel
  ∧ ta_aircraft (remove ta aircraftModel) !! icao = None
  ∧ ta_savedUpdates (remove ta aircraftModel) !! icao = None
  ∧ isVehicleTracked (remove ta aircraftModel) icao
    = bool_decide (icao ∈ objectPrototypeKeys)
  ∧ (isVehicleTracked ta icao = false → ta_savedUpdates ta !! icao = None →
       ta_missedUpdates ta !! icao = None →
       remove (add ta aircraftModel) aircraftModel = ta).
Proof.
  cbv zeta. unfold isVehicleTracked, add, remove, numTracked, hasProperty.
  split; [apply bool_decide_eq_true|].
  split; [by intros ->|].
  split.
  { intros Hno. rewrite Hno. cbn [ta_aircraft ta_savedUpdates].
    rewrite !lookup_insert_eq. split_and!; try done.
    apply bool_decide_eq_false in Hno. rewrite map_size_insert_None; [done|].
    apply eq_None_not_Some. intros Hsome. apply Hno. by left. }
  split.
  { destruct (bool_decide (is_Some (ta_aircraft ta !! ac_icao aircraftModel) ∨ _))
      eqn:Hin; [by rewrite Hin|].
    cbn [ta_aircraft]. rewrite bool_decide_eq_true_2; [done|].
    left. rewrite lookup_insert_eq. by eexists. }
  cbn [ta_aircraft ta_savedUpdates]. rewrite !lookup_delete_eq.
  split; [done|]. split; [done|]. split.
  { apply bool_decide_ext. split; [|by right].
    intros [Hsome|Hin]; [by apply is_Some_None in Hsome|done]. }
  intros Hno Hq Hm. rewrite Hno. apply bool_decide_eq_false in Hno.
  assert (ta_aircraft ta !! ac_icao aircraftModel = None) as Ha.
  { apply eq_None_not_Some. intros Hsome. apply Hno. by left. }
  destruct ta as [a q m]. cbn in *.
  by rewrite !delete_insert_eq, !delete_id.
Qed.

(** ** The timeout of an aircraft *)

(** X24: an aircraft with no last binary update, or one that reads as 0, is
    always timed out; otherwise it is timed out exactly when more than
    [conf.AIRCRAFT_TIMEOUT], 60 seconds, lie between the last update and the
    report, and once timed out it stays so for every later report. *)
Theorem isTimeout_threshold (timeOfReport : Z) :
  isTimeout (Num timeOfReport) None = true
  ∧ isTimeout (Num timeOfReport) (Some (Num 0)) = true
  ∧ isTimeout (Num timeOfReport) (Some NaN) = true
  ∧ ∀ last, last ≠ 0 →
      (isTimeout (Num timeOfReport) (Some (Num last)) = true ↔ 60 < timeOfReport - last)
      ∧ ∀ later, timeOfReport <= later →
          isTimeout (Num timeOfReport) (Some (Num last)) = true →
          isTimeout (Num later) (Some (Num last)) = true.
Proof.
  split_and!; try done. intros last Hlast.
  assert (∀ t, isTimeout (Num t) (Some (Num last)) = true ↔ 60 < t - last) as Hiff.
  { intros t. unfold isTimeout. simpl. rewrite bool_decide_eq_true_2 by done. simpl.
    change (confNumber "AIRCRAFT_TIMEOUT") with (Num 60). simpl.
    apply bool_decide_eq_true. }
  split; [apply Hiff|]. intros later Hle. rewrite !Hiff. lia.
Qed.

(** ** The targets of the tracker *)

(** X25: [getTargetVehicles] returns the provided target vehicles when
    there are some and in no other case: with no list or an empty list it
    throws, the fallback list being empty, and what it throws is the
    [ReferenceError] of the undefined [Exception].  It never returns an
    empty list. *)
Theorem getTargetVehicles_provided (st : Tracker) :
  match getTargetVehicles st with
  | Returned targetVehicles =>
      tr_providedTargetVehicles st = Some targetVehicles ∧ targetVehicles ≠ []
  | Raised r =>
      r = Other (OtherError "ReferenceError: Exception is not defined")
      ∧ (tr_providedTargetVehicles st = None ∨ tr_providedTargetVehicles st = Some [])
  end.
Proof.
  unfold getTargetVehicles. destruct (tr_providedTargetVehicles st) as [[|v vs]|]; simpl.
  - split; [done|by right].
  - done.
  - split; [done|by left].
Qed.

(** X26: [setupFromOptions] returns exactly when target vehicles come
    with the command line or, in slave mode, from the master; they are then
    what [getTargetVehicles] returns.  In every other case (no targets and
    not in slave mode, an empty answer, a failed request) it throws a
    [TypeError], because [error.js] does not export
    [NoExternalTargetVehiclesError]: the provided targets are never set to
    [null], and the fallback the log message announces is never reached. *)
Theorem setupFromOptions_targets (requestTrackerTargets : outcome (list TargetVehicle))
    (st : Tracker) (extraOpts : ExtraOpts) :
  let isSlave := default false (eo_isSlave extraOpts) in
  let given := default [] (eo_target_vehicles extraOpts) in
  let chosen :=
    if bool_decide (given ≠ []) then Some given
    else if isSlave
    then match requestTrackerTargets with
         | Returned (v :: remote) => Some (v :: remote)
         | _ => None
         end
    else None in
  let setup := setupFromOptions requestTrackerTargets st extraOpts in
  tr_isSlaveMode setup.1 = isSlave
  ∧ match chosen with
    | Some targetVehicles =>
        setup.2 = Returned tt
        ∧ tr_providedTargetVehicles setup.1 = Some targetVehicles
        ∧ getTargetVehicles setup.1 = Returned targetVehicles
    | None =>
        setup.2 = Raised (Other (TypeError "Right-hand side of 'instanceof' is not an object"))
        ∧ tr_providedTargetVehicles setup.1 = tr_providedTargetVehicles st
    end.
Proof.
  cbv zeta. unfold setupFromOptions.
  destruct (default [] (eo_target_vehicles extraOpts)) as [|v vs] eqn:Hgiven.
  - simpl. destruct (default false (eo_isSlave extraOpts)).
    + destruct requestTrackerTargets as [[|r remote]|err]; simpl; done.
    + simpl. done.
  - simpl. done.
Qed.
